(** * sheeprl replay buffers: [sheeprl/data/buffers.py]

    A shallow embedding of [ReplayBuffer] and [SequentialReplayBuffer] and the
    properties of their cursor arithmetic, valid-index computation and
    sampling.

    Conventions of the embedding.
    - Python integers are [Z]; [%] with a positive modulus is [Z.modulo].
    - A [TensorDict] of batch size [[buffer_size, n_envs]] is a grid of
      records: a list of rows, each row holding one record per environment.
      A record (all the fields of one slot of one environment) is an abstract
      type [A]: the batches stored in one buffer carry the same keys.
      [observations] is the projection of the key ['observations'], read for
      the companion [next_observations], when the records carry that key, and
      [None] when they do not.  A slot that was never written reads as
      [zero], the content of a freshly allocated column.
    - Objects live in a heap of tensordicts; the buffer object refers to its
      table by location, indexing with index tensors allocates a new
      tensordict, and assigning a key or rows mutates the heap in place.
    - An index tensor is a list of integers; the tensor that [torch.tensor]
      makes of an empty range is a float32 tensor and cannot index.
      Assigning rows through an index tensor needs one source row per
      destination index and writes the rows in order (a later write to the
      same slot wins).
    - [torch.randint] reads a tape of raw draws kept in the world; every
      tuple of outcomes in range is produced by some tape. *)

From Stdlib Require Import ZArith Lia List Bool.
From stdpp Require Import base numbers list.
Import ListNotations.
Local Open Scope Z_scope.

(** ** Python and torch primitives on integers and lists *)

Module Py.

(** [range(a, b)] *)
Definition range (a b : Z) : list Z :=
  map (fun i : nat => a + Z.of_nat i) (seq 0 (Z.to_nat (b - a))).

Definition len {X} (xs : list X) : Z := Z.of_nat (length xs).

(** [xs[start:]]: a negative [start] counts from the end, and the slice is
    clipped to the list. *)
Definition slice_from {X} (start : Z) (xs : list X) : list X :=
  let s := if start <? 0 then Z.max 0 (len xs + start) else Z.min start (len xs) in
  drop (Z.to_nat s) xs.

(** The position addressed by index [i] in a dimension of size [n]:
    indices in [[-n, 0)] count from the end, others out of [[0, n)] are an
    [IndexError]. *)
Definition norm_index (n i : Z) : option nat :=
  if (0 <=? i) && (i <? n) then Some (Z.to_nat i)
  else if (- n <=? i) && (i <? 0) then Some (Z.to_nat (i + n))
  else None.

(** [xs[i]] *)
Definition getitem {X} (xs : list X) (i : Z) : option X :=
  match norm_index (len xs) i with
  | Some k => xs !! k
  | None => None
  end.

(** [xs[idx]] for an index tensor [idx] *)
Fixpoint index_select {X} (xs : list X) (idx : list Z) : option (list X) :=
  match idx with
  | [] => Some []
  | i :: idx' =>
      match getitem xs i, index_select xs idx' with
      | Some x, Some r => Some (x :: r)
      | _, _ => None
      end
  end.

End Py.

(** ** Exceptions *)

(** One constructor per [raise] of the source; everything raised inside torch
    or tensordict (shape mismatch, index out of range, an index tensor that
    is not of integers, empty [randint] range, a missing table, a missing
    key) is [BackendError]. *)
Inductive exn : Type :=
| ValueError_buffer_size        (* "The buffer size must be greater than zero" *)
| ValueError_n_envs             (* "The number of environments must be greater than zero" *)
| ValueError_batch_size         (* "Batch size must be greater than 0" *)
| ValueError_no_sample          (* "No sample has been added to the buffer ..." *)
| RuntimeError_one_sample       (* "... but one sample has been added to the buffer ..." *)
| RuntimeError_not_initialized  (* "The buffer has not been initialized ..." *)
| ValueError_larger_than_buffer (* "n_samples * batch size (..) is larger than the replay buffer size" *)
| ValueError_too_long_sequence  (* "too long sequence length" *)
| ValueError_larger_than_sampleable (* "... is larger than sampleable items ..." *)
| BackendError.

(** The error taxonomy of the design document, and the name it gives to each
    [raise] of the source. *)
Inductive error_kind : Type :=
| InvalidArgument | EmptyBufferError | InsufficientDataError | CapacityError
| UninitializedStorageError | BackendFailure.

Definition kind_of (e : exn) : error_kind :=
  match e with
  | ValueError_buffer_size | ValueError_n_envs | ValueError_batch_size => InvalidArgument
  | ValueError_no_sample => EmptyBufferError
  | RuntimeError_one_sample | ValueError_larger_than_sampleable => InsufficientDataError
  | ValueError_larger_than_buffer | ValueError_too_long_sequence => CapacityError
  | RuntimeError_not_initialized => UninitializedStorageError
  | BackendError => BackendFailure
  end.

Inductive outcome (X : Type) : Type :=
| Ok (x : X)
| Raise (e : exn).
Arguments Ok {X} x.
Arguments Raise {X} e.

Definition fails_with {X} (r : outcome X) (k : error_kind) : Prop :=
  exists e, r = Raise e /\ kind_of e = k.

Definition succeeds {X} (r : outcome X) : Prop := exists x, r = Ok x.

(** ** Objects, heap and world *)

Abbreviation loc := nat.

(** A tensordict is either a storage table of batch size
    [[buffer_size, n_envs]] or a gathered sample: its batch shape, its records
    in row-major order, and the key [next_observations] when it was set. *)
Inductive tensordict (A Obs : Type) : Type :=
| Storage (rows : list (list A))
| Samples (shape : list Z) (items : list A) (next_observations : option (list Obs)).
Arguments Storage {A Obs} rows.
Arguments Samples {A Obs} shape items next_observations.

(** The attributes of a buffer object. *)
Record attrs : Type := mkAttrs {
  _buffer_size : Z;
  _n_envs : Z;
  _memmap : bool;
  _buf : option loc;
  _pos : Z;
  _full : bool
}.

Record world (A Obs : Type) : Type := mkWorld {
  self : attrs;
  heap : list (tensordict A Obs);
  rng : nat -> Z;
  rng_next : nat
}.
Arguments mkWorld {A Obs} self heap rng rng_next.
Arguments self {A Obs} w.
Arguments heap {A Obs} w.
Arguments rng {A Obs} w.
Arguments rng_next {A Obs} w.

(** ** The monad of the embedding: state and exceptions *)

Section Monad.
Context {A Obs : Type}.

Definition M (X : Type) : Type := world A Obs -> outcome X * world A Obs.

Definition ret {X} (x : X) : M X := fun w => (Ok x, w).

Definition raise {X} (e : exn) : M X := fun w => (Raise e, w).

Definition bind {X Y} (m : M X) (f : X -> M Y) : M Y :=
  fun w =>
    match m w with
    | (Ok x, w') => f x w'
    | (Raise e, w') => (Raise e, w')
    end.

Definition get_self : M attrs := fun w => (Ok (self w), w).

Definition set_self (a : attrs) : M unit :=
  fun w => (Ok tt, mkWorld a (heap w) (rng w) (rng_next w)).

Definition of_option {X} (o : option X) (e : exn) : M X :=
  match o with
  | Some x => ret x
  | None => raise e
  end.

(** Allocation of a new object. *)
Definition alloc (td : tensordict A Obs) : M loc :=
  fun w => (Ok (length (heap w)), mkWorld (self w) (heap w ++ [td]) (rng w) (rng_next w)).

Definition load (l : loc) : M (tensordict A Obs) :=
  fun w => (match heap w !! l with Some td => Ok td | None => Raise BackendError end, w).

Definition store (l : loc) (td : tensordict A Obs) : M unit :=
  fun w => (Ok tt, mkWorld (self w) (<[l := td]> (heap w)) (rng w) (rng_next w)).

(** [torch.randint(low, high, size=(size,))]: an empty range is an error;
    each draw is reduced into [[low, high)]. *)
Definition randint (low high size : Z) : M (list Z) :=
  fun w =>
    if (high <=? low) || (size <? 0) then (Raise BackendError, w)
    else
      let k := Z.to_nat size in
      (Ok (map (fun j : nat => low + rng w (rng_next w + j)%nat mod (high - low)) (seq 0 k)),
       mkWorld (self w) (heap w) (rng w) (rng_next w + k)%nat).

End Monad.

Declare Scope py_scope.
Delimit Scope py_scope with py.
Notation "x <- m ;; k" := (bind m (fun x => k))
  (at level 100, m at next level, right associativity) : py_scope.
Notation "m ;;; k" := (bind m (fun _ => k))
  (at level 100, right associativity) : py_scope.

(** ** Operations of the storage backend (tensordict) *)

(** An index tensor built by [torch.tensor] from a sequence of integers has
    dtype int64, except that an empty sequence gives an empty tensor of the
    default dtype float32. *)
Inductive index_tensor : Type :=
| Int64 (xs : list Z)
| Float32_empty.

(** [torch.tensor(xs)] *)
Definition torch_tensor (xs : list Z) : index_tensor :=
  match xs with
  | [] => Float32_empty
  | _ :: _ => Int64 xs
  end.

Section TensorDictOps.
Context {A Obs : Type}.
Local Open Scope py_scope.

(** [rows[idxes, :] = src] on a table: the rows are written in order. *)
Fixpoint put_rows (rows : list (list A)) (idxes : list Z) (src : list (list A))
  : option (list (list A)) :=
  match idxes, src with
  | [], [] => Some rows
  | i :: idxes', r :: src' =>
      match Py.norm_index (Py.len rows) i with
      | Some k => put_rows (<[k := r]> rows) idxes' src'
      | None => None
      end
  | _, _ => None
  end.

(** The index must be an integer tensor (a float32 tensor is refused as an
    index), and the source batch must have the table's number of
    environments. *)
Definition setitem_rows (n_envs : Z) (rows : list (list A)) (idxes : index_tensor)
  (src : list (list A)) : option (list (list A)) :=
  match idxes with
  | Float32_empty => None
  | Int64 xs =>
      if forallb (fun r => Py.len r =? n_envs) src then put_rows rows xs src else None
  end.

(** [self._buf[idxes, :] = src] *)
Definition setitem (b : option loc) (n_envs : Z) (idxes : index_tensor) (src : list (list A))
  : M (A:=A) (Obs:=Obs) unit :=
  match b with
  | None => raise BackendError
  | Some l =>
      td <- load l ;;
      match td with
      | Storage rows =>
          match setitem_rows n_envs rows idxes src with
          | Some rows' => store l (Storage rows')
          | None => raise BackendError
          end
      | Samples _ _ _ => raise BackendError
      end
  end.

(** [rows[batch_idxes, env_idxes]]: the record at each pair of indices. *)
Fixpoint gather (rows : list (list A)) (batch_idxes env_idxes : list Z) : option (list A) :=
  match batch_idxes, env_idxes with
  | [], [] => Some []
  | i :: bs, e :: es =>
      match Py.getitem rows i with
      | Some row =>
          match Py.getitem row e, gather rows bs es with
          | Some x, Some r => Some (x :: r)
          | _, _ => None
          end
      | None => None
      end
  | _, _ => None
  end.

(** The records read by [td[batch_idxes, env_idxes]] from the table at [l]. *)
Definition getitem_at (l : loc) (batch_idxes env_idxes : list Z) : M (A:=A) (Obs:=Obs) (list A) :=
  td <- load l ;;
  match td with
  | Storage rows => of_option (gather rows batch_idxes env_idxes) BackendError
  | Samples _ _ _ => raise BackendError
  end.

(** [td["next_observations"] = nxt] on a gathered sample. *)
Definition setkey_next_observations (l : loc) (nxt : list Obs) : M (A:=A) (Obs:=Obs) unit :=
  td <- load l ;;
  match td with
  | Samples shape items _ => store l (Samples shape items (Some nxt))
  | Storage _ => raise BackendError
  end.

(** [td.shape[0]] *)
Definition shape0 (b : option loc) : M (A:=A) (Obs:=Obs) Z :=
  match b with
  | None => raise BackendError
  | Some l =>
      td <- load l ;;
      match td with
      | Storage rows => ret (Py.len rows)
      | Samples shape _ _ => of_option (hd_error shape) BackendError
      end
  end.

Definition product (shape : list Z) : Z := fold_right Z.mul 1 shape.

(** [td.view(shape)] and [td.reshape(shape)]: a new tensordict over the same
    records; the dimensions must be positive and cover the records, so that
    the view of a tensordict that holds no record is refused. *)
Definition view (l : loc) (shape : list Z) : M (A:=A) (Obs:=Obs) loc :=
  td <- load l ;;
  match td with
  | Samples _ items nxt =>
      if forallb (fun d => 0 <? d) shape && (product shape =? Py.len items)
      then alloc (Samples shape items nxt)
      else raise BackendError
  | Storage _ => raise BackendError
  end.

(** [td.unsqueeze(-1)] *)
Definition unsqueeze_last (l : loc) : M (A:=A) (Obs:=Obs) loc :=
  td <- load l ;;
  match td with
  | Samples shape items nxt => alloc (Samples (shape ++ [1]) items nxt)
  | Storage _ => raise BackendError
  end.

(** [td.permute(0, -1, -2)] on a tensordict of three batch dimensions:
    entry [(i, k, j)] of the result is entry [(i, j, k)] of the argument. *)
Definition permute_0_2_1 (l : loc) : M (A:=A) (Obs:=Obs) loc :=
  td <- load l ;;
  match td with
  | Samples [a; b; c] items nxt =>
      let at_ (n : nat) := match items !! n with Some x => [x] | None => [] end in
      let items' :=
        flat_map (fun i : nat =>
          flat_map (fun k : nat =>
            flat_map (fun j : nat => at_ ((i * Z.to_nat b + j) * Z.to_nat c + k)%nat)
                     (seq 0 (Z.to_nat b)))
            (seq 0 (Z.to_nat c)))
          (seq 0 (Z.to_nat a)) in
      alloc (Samples [a; c; b] items' nxt)
  | _ => raise BackendError
  end.

(** [td.clone()] *)
Definition clone_td (l : loc) : M (A:=A) (Obs:=Obs) loc :=
  td <- load l ;;
  alloc td.

(** [torch.arange(n)] *)
Definition arange (n : Z) : M (A:=A) (Obs:=Obs) (list Z) :=
  if n <? 0 then raise BackendError else ret (Py.range 0 n).

End TensorDictOps.

(** ** [class ReplayBuffer] *)

Module ReplayBuffer.
Section ReplayBuffer.
Context {A Obs : Type} (zero : A) (observations : option (A -> Obs)).
Local Open Scope py_scope.
Local Abbreviation M := (M (A:=A) (Obs:=Obs)).

Definition set_buf (b : option loc) : M unit :=
  s <- get_self ;;
  set_self (mkAttrs (_buffer_size s) (_n_envs s) (_memmap s) b (_pos s) (_full s)).

Definition set_pos (p : Z) : M unit :=
  s <- get_self ;;
  set_self (mkAttrs (_buffer_size s) (_n_envs s) (_memmap s) (_buf s) p (_full s)).

Definition set_full (f : bool) : M unit :=
  s <- get_self ;;
  set_self (mkAttrs (_buffer_size s) (_n_envs s) (_memmap s) (_buf s) (_pos s) f).

(** [TensorDict({}, batch_size=[buffer_size, n_envs])], and the table of
    memory-mapped columns allocated by the first [add]. *)
Definition empty_table (buffer_size n_envs : Z) : tensordict A Obs :=
  Storage (repeat (repeat zero (Z.to_nat n_envs)) (Z.to_nat buffer_size)).

(** [ReplayBuffer.__init__] *)
Definition __init__ (buffer_size n_envs : Z) (memmap : bool) : M unit :=
  if buffer_size <=? 0 then raise ValueError_buffer_size
  else if n_envs <=? 0 then raise ValueError_n_envs
  else
    buf <- (if memmap then ret None
            else l <- alloc (empty_table buffer_size n_envs) ;; ret (Some l)) ;;
    set_self (mkAttrs buffer_size n_envs memmap buf 0 false).

(** [ReplayBuffer.__len__] *)
Definition __len__ : M Z :=
  s <- get_self ;; ret (_buffer_size s).

(** The properties [buffer], [buffer_size], [full] and [n_envs]. *)
Definition buffer : M (option loc) :=
  s <- get_self ;; ret (_buf s).

Definition buffer_size : M Z :=
  s <- get_self ;; ret (_buffer_size s).

Definition full : M bool :=
  s <- get_self ;; ret (_full s).

Definition n_envs : M Z :=
  s <- get_self ;; ret (_n_envs s).

(** The property [shape], [self.buffer.shape]: the batch size of the table;
    there is none to ask before the table exists. *)
Definition shape : M (list Z) :=
  b <- buffer ;;
  match b with
  | None => raise BackendError
  | Some l =>
      td <- load l ;;
      match td with
      | Storage rows => ret [Py.len rows; Py.len (hd [] rows)]
      | Samples shape _ _ => ret shape
      end
  end.

(** The destination indices of [add], before [torch.tensor] makes the index
    tensor [idxes] of them (source lines 98-104). *)
Definition add_idxes (s : attrs) (data_len : Z) : list Z :=
  let next_pos := (_pos s + data_len) mod _buffer_size s in
  if (next_pos <? _pos s) || ((data_len >=? _buffer_size s) && negb (_full s))
  then Py.range (_pos s) (_buffer_size s) ++ Py.range 0 next_pos
  else Py.range (_pos s) next_pos.

(** The rows [data_to_store] of [add] (source lines 105-108). *)
Definition add_data_to_store (s : attrs) (data : list (list A)) : list (list A) :=
  let data_len := Py.len data in
  let next_pos := (_pos s + data_len) mod _buffer_size s in
  if data_len >? _buffer_size s
  then Py.slice_from (- _buffer_size s - next_pos) data
  else data.

(** [ReplayBuffer.add].  [data] is a batch of two batch dimensions
    [[data_len, n_envs]], given by its rows (a [ReplayBuffer] argument stands
    for the rows of its table); the type excludes the other ranks, which the
    source rejects. *)
Definition add (data : list (list A)) : M unit :=
  s <- get_self ;;
  let data_len := Py.len data in
  let next_pos := (_pos s + data_len) mod _buffer_size s in
  let idxes := torch_tensor (add_idxes s data_len) in
  let data_to_store := add_data_to_store s data in
  buf <- (match _buf s with
          | None =>
              if _memmap s
              then l <- alloc (empty_table (_buffer_size s) (_n_envs s)) ;;
                   set_buf (Some l) ;;; ret (Some l)
              else ret None
          | Some l => ret (Some l)
          end) ;;
  setitem buf (_n_envs s) idxes data_to_store ;;;
  (if _pos s + data_len >=? _buffer_size s then set_full true else ret tt) ;;;
  set_pos next_pos.

(** The list [valid_idxes] built by [sample] on a full buffer. *)
Definition valid_idxes (s : attrs) (sample_next_obs : bool) : list Z :=
  let first_range_end := if sample_next_obs then _pos s - 1 else _pos s in
  let second_range_end :=
    if first_range_end >=? 0 then _buffer_size s else _buffer_size s + first_range_end in
  Py.range 0 first_range_end ++ Py.range (_pos s) second_range_end.

(** The tensor [batch_idxes] drawn by [sample] (source lines 140-161). *)
Definition batch_idxes (batch_size : Z) (sample_next_obs : bool) : M (list Z) :=
  s <- get_self ;;
  if batch_size <=? 0 then raise ValueError_batch_size
  else if negb (_full s) && (_pos s =? 0) then raise ValueError_no_sample
  else if _full s then
    let valid := valid_idxes s sample_next_obs in
    r <- randint 0 (Py.len valid) batch_size ;;
    of_option (Py.index_select valid r) BackendError
  else
    let max_pos_to_sample := if sample_next_obs then _pos s - 1 else _pos s in
    if max_pos_to_sample =? 0 then raise RuntimeError_one_sample
    else randint 0 max_pos_to_sample batch_size.

(** [ReplayBuffer._get_samples] *)
Definition _get_samples (batch_idxes : list Z) (sample_next_obs : bool) : M loc :=
  s <- get_self ;;
  env_idxes <- randint 0 (_n_envs s) (Py.len batch_idxes) ;;
  match _buf s with
  | None => raise RuntimeError_not_initialized
  | Some b =>
      items <- getitem_at b batch_idxes env_idxes ;;
      buf <- alloc (Samples [Py.len batch_idxes] items None) ;;
      (if sample_next_obs
       then match observations with
            | None => raise BackendError
            | Some obs =>
                nxt <- getitem_at b (map (fun i => (i + 1) mod _buffer_size s) batch_idxes)
                         env_idxes ;;
                setkey_next_observations buf (map obs nxt)
            end
       else ret tt) ;;;
      ret buf
  end.

(** [ReplayBuffer.sample] *)
Definition sample (batch_size : Z) (sample_next_obs clone : bool) : M loc :=
  idx <- batch_idxes batch_size sample_next_obs ;;
  buf <- _get_samples idx sample_next_obs ;;
  smp <- unsqueeze_last buf ;;
  if clone then clone_td smp else ret smp.

End ReplayBuffer.
End ReplayBuffer.

(** ** [class SequentialReplayBuffer(ReplayBuffer)] *)

Module SequentialReplayBuffer.
Section SequentialReplayBuffer.
Context {A Obs : Type} (zero : A).
Local Open Scope py_scope.
Local Abbreviation M := (M (A:=A) (Obs:=Obs)).

(** [SequentialReplayBuffer.__init__]: the table is never memory-mapped. *)
Definition __init__ (buffer_size n_envs : Z) : M unit :=
  ReplayBuffer.__init__ zero buffer_size n_envs false.

(** The list [valid_idxes] of window starts built by [sample] on a full
    buffer. *)
Definition valid_idxes (s : attrs) (sequence_length : Z) : list Z :=
  let first_range_end := _pos s - sequence_length + 1 in
  let second_range_end :=
    if first_range_end >=? 0 then _buffer_size s else _buffer_size s + first_range_end in
  Py.range 0 first_range_end ++ Py.range (_pos s) second_range_end.

(** The tensor [start_idxes] drawn by [sample] (source lines 224-265).
    [self._buf.shape[0]] is read once: nothing is written between its two
    uses. *)
Definition start_idxes (batch_size sequence_length n_samples : Z) : M (list Z) :=
  s <- get_self ;;
  let batch_dim := batch_size * n_samples in
  if batch_dim <=? 0 then raise ValueError_batch_size
  else if negb (_full s) && (_pos s =? 0) then raise ValueError_no_sample
  else
    size0 <- shape0 (_buf s) ;;
    if batch_dim >? size0 then raise ValueError_larger_than_buffer
    else if negb (_full s) && (_pos s - sequence_length + 1 <? 1)
    then raise ValueError_too_long_sequence
    else if _full s && (sequence_length >? size0)
    then raise ValueError_too_long_sequence
    else if _full s then
      let valid := valid_idxes s sequence_length in
      if Py.len valid <? batch_dim then raise ValueError_larger_than_sampleable
      else
        r <- randint 0 (Py.len valid) batch_dim ;;
        of_option (Py.index_select valid r) BackendError
    else randint 0 (_pos s - sequence_length + 1) batch_dim.

(** The tensor [idxes] of [sample]: one row of slot indices per window
    (source lines 267-269). *)
Definition window_idxes (batch_size sequence_length n_samples : Z) : M (list (list Z)) :=
  start <- start_idxes batch_size sequence_length n_samples ;;
  chunk_length <- arange sequence_length ;;
  s <- get_self ;;
  ret (map (fun st => map (fun c => (st + c) mod _buffer_size s) chunk_length) start).

(** The tensor [env_idxes] of [_get_samples]: one draw per window, repeated
    along the window. *)
Definition env_idxes (n_windows window_length : Z) : M (list Z) :=
  s <- get_self ;;
  envs <- randint 0 (_n_envs s) n_windows ;;
  ret (flat_map (fun e => repeat e (Z.to_nat window_length)) envs).

(** [SequentialReplayBuffer._get_samples]: [batch_idxes] has shape
    [[batch_dim, sequence_length]]; the argument [sample_next_obs] is not
    used. *)
Definition _get_samples (batch_idxes : list (list Z)) (sample_next_obs : bool) : M loc :=
  s <- get_self ;;
  let unflatten_shape := [Py.len batch_idxes; Py.len (hd [] batch_idxes)] in
  envs <- env_idxes (Py.len batch_idxes) (Py.len (hd [] batch_idxes)) ;;
  match _buf s with
  | None => raise BackendError
  | Some b =>
      items <- getitem_at b (concat batch_idxes) envs ;;
      smp <- alloc (Samples [Py.len (concat batch_idxes)] items None) ;;
      view smp unflatten_shape
  end.

(** [SequentialReplayBuffer.sample] *)
Definition sample (batch_size : Z) (sample_next_obs clone : bool)
  (sequence_length n_samples : Z) : M loc :=
  idxes <- window_idxes batch_size sequence_length n_samples ;;
  smp <- _get_samples idxes false ;;
  r <- view smp [n_samples; batch_size; sequence_length] ;;
  p <- permute_0_2_1 r ;;
  if clone then clone_td p else ret p.

End SequentialReplayBuffer.
End SequentialReplayBuffer.

(** ** Well-formed worlds *)

Section Invariant.
Context {A Obs : Type}.

(** The table of a buffer object is allocated with [buffer_size] rows of
    [n_envs] records; only a memory-mapped buffer that was never written has
    no table yet. *)
Definition table_ok (s : attrs) (h : list (tensordict A Obs)) : Prop :=
  match _buf s with
  | Some l =>
      exists rows, h !! l = Some (Storage rows)
        /\ Py.len rows = _buffer_size s
        /\ Forall (fun r => Py.len r = _n_envs s) rows
  | None => _memmap s = true /\ _pos s = 0 /\ _full s = false
  end.

Definition wf (w : world A Obs) : Prop :=
  0 < _buffer_size (self w)
  /\ 0 < _n_envs (self w)
  /\ 0 <= _pos (self w) < _buffer_size (self w)
  /\ table_ok (self w) (heap w).

(** A decision procedure for [wf]. *)
Definition table_okb (s : attrs) (h : list (tensordict A Obs)) : bool :=
  match _buf s with
  | Some l =>
      match h !! l with
      | Some (Storage rows) =>
          (Py.len rows =? _buffer_size s)
          && forallb (fun r => Py.len r =? _n_envs s) rows
      | _ => false
      end
  | None => _memmap s && (_pos s =? 0) && negb (_full s)
  end.

Definition wfb (w : world A Obs) : bool :=
  (0 <? _buffer_size (self w))
  && (0 <? _n_envs (self w))
  && (0 <=? _pos (self w)) && (_pos (self w) <? _buffer_size (self w))
  && table_okb (self w) (heap w).

(** The rows of the buffer's table, when it is allocated. *)
Definition table_rows (w : world A Obs) : option (list (list A)) :=
  match _buf (self w) with
  | Some l =>
      match heap w !! l with
      | Some (Storage rows) => Some rows
      | _ => None
      end
  | None => None
  end.

(** While the buffer is not full, the slots from the cursor on were never
    written: they hold the rows of [zero] of the new table. *)
Definition unwritten_zero (zero : A) (w : world A Obs) : Prop :=
  _full (self w) = false ->
  forall (rows : list (list A)) (i : Z),
    table_rows w = Some rows -> _pos (self w) <= i < _buffer_size (self w) ->
    rows !! Z.to_nat i = Some (repeat zero (Z.to_nat (_n_envs (self w)))).

(** The world in which the random source is replaced by [tape]. *)
Definition with_tape (w : world A Obs) (tape : nat -> Z) : world A Obs :=
  mkWorld (self w) (heap w) tape 0.

(** What a sampler may change: it never touches the attributes of the buffer
    nor an object that was already allocated. *)
Definition unchanged (w w' : world A Obs) : Prop :=
  self w' = self w
  /\ (length (heap w) <= length (heap w'))%nat
  /\ forall l : loc, (l < length (heap w))%nat -> heap w' !! l = heap w !! l.

End Invariant.

(** The calls of the public interface, and the world after a call, whether it
    returned or raised. *)
Inductive call (A : Type) : Type :=
| Call_add (data : list (list A))
| Call_sample (batch_size : Z) (sample_next_obs clone : bool)
| Call_sample_sequence (batch_size : Z) (sample_next_obs clone : bool)
    (sequence_length n_samples : Z).
Arguments Call_add {A} data.
Arguments Call_sample {A} batch_size sample_next_obs clone.
Arguments Call_sample_sequence {A} batch_size sample_next_obs clone sequence_length n_samples.

Definition after {A Obs : Type} (zero : A) (observations : option (A -> Obs))
  (w : world A Obs) (c : call A) : world A Obs :=
  match c with
  | Call_add data => snd (ReplayBuffer.add zero data w)
  | Call_sample b n c => snd (ReplayBuffer.sample observations b n c w)
  | Call_sample_sequence b n c l k => snd (SequentialReplayBuffer.sample b n c l k w)
  end.

(** The draws of [randint]: [k] entries of the tape from position [from],
    reduced into [[low, high)]. *)
Definition draws (low high : Z) (tape : nat -> Z) (from k : nat) : list Z :=
  map (fun j : nat => low + tape (from + j)%nat mod (high - low)) (seq 0 k).



(** The attributes after a successful [add]. *)
Definition added (s : attrs) (b : option loc) (data_len : Z) : attrs :=
  mkAttrs (_buffer_size s) (_n_envs s) (_memmap s) b
    ((_pos s + data_len) mod _buffer_size s)
    (if _pos s + data_len >=? _buffer_size s then true else _full s).

(** ** Reasoning about computations *)

Section Logic.
Context {A Obs : Type}.
Local Abbreviation M := (M (A:=A) (Obs:=Obs)).

(** [wp m Q E w]: run from [w], [m] returns a value and a world in [Q] or
    raises an exception and leaves a world in [E]. *)
Definition wp {X} (m : M X) (Q : X -> world A Obs -> Prop)
  (E : exn -> world A Obs -> Prop) (w : world A Obs) : Prop :=
  match m w with
  | (Ok x, w') => Q x w'
  | (Raise e, w') => E e w'
  end.

(** [m] neither changes the buffer attributes nor any object allocated in
    [w0], whether it returns (a value in [Q]) or raises. *)
Definition frame_from {X} (w0 : world A Obs) (m : M X) (Q : X -> Prop) : Prop :=
  forall w, unchanged w0 w ->
    wp m (fun x w' => unchanged w0 w' /\ Q x) (fun _ w' => unchanged w0 w') w.

(** [l] is not allocated in [w0]. *)
Definition fresh_in (w0 : world A Obs) (l : loc) : Prop := (length (heap w0) <= l)%nat.

(** Every exception raised by [m] is in [S]. *)
Definition raises_only {X} (m : M X) (S : exn -> Prop) : Prop :=
  forall w, wp m (fun _ _ => True) (fun e _ => S e) w.

End Logic.

(** ** Example worlds over integer records *)

Module Examples.

(** An entropy tape. *)
Definition tape (n : nat) : Z := Z.of_nat n * 7 + 3.

Definition init : world Z Z := mkWorld (mkAttrs 0 0 false None 0 false) [] tape 0.

(** [n] one-environment rows, numbered from [a]. *)
Definition numbered (a n : nat) : list (list Z) := map (fun i : nat => [Z.of_nat i]) (seq a n).

(** The world after the calls [cs] on [ReplayBuffer(buffer_size, n_envs)]. *)
Definition buffer (buffer_size n_envs : Z) (cs : list (call Z)) : world Z Z :=
  fold_left (after 0 (Some id)) cs (snd (ReplayBuffer.__init__ 0 buffer_size n_envs false init)).

(** A new buffer of capacity 5 and one environment. *)
Definition fresh5 : world Z Z := buffer 5 1 [].

(** A full buffer of capacity 5 whose cursor is at slot 2; it holds the
    records 5, 6, 2, 3, 4. *)
Definition full5 : world Z Z := buffer 5 1 [Call_add (numbered 0 7)].

(** A full buffer of capacity 1. *)
Definition full1 : world Z Z := buffer 1 1 [Call_add (numbered 0 1)].

(** A buffer of capacity 10 holding three records. *)
Definition part10 : world Z Z := buffer 10 1 [Call_add (numbered 0 3)].

(** A memory-mapped buffer of capacity 5 before its first [add]. *)
Definition memmap5 : world Z Z := snd (ReplayBuffer.__init__ 0 5 1 true init).

(** A buffer of capacity 5 holding three records. *)
Definition part5 : world Z Z := buffer 5 1 [Call_add (numbered 0 3)].


End Examples.

(** ** Arithmetic of ranges and indices *)

Ltac cmp :=
  repeat rewrite Z.geb_leb in *; repeat rewrite Z.gtb_ltb in *;
  repeat match goal with
  | |- context [?a <=? ?b] => destruct (Z.leb_spec a b)
  | |- context [?a <? ?b] => destruct (Z.ltb_spec a b)
  | |- context [?a =? ?b] => destruct (Z.eqb_spec a b)
  | H : context [?a <=? ?b] |- _ => destruct (Z.leb_spec a b)
  | H : context [?a <? ?b] |- _ => destruct (Z.ltb_spec a b)
  | H : context [?a =? ?b] |- _ => destruct (Z.eqb_spec a b)
  end; simpl in *.

(** Resolve the comparisons that linear arithmetic decides. *)
Ltac decide_cmp :=
  repeat rewrite Z.geb_leb; repeat rewrite Z.gtb_ltb;
  repeat match goal with
  | |- context [?a <=? ?b] =>
      first [ replace (a <=? b) with true by (symmetry; apply Z.leb_le; lia)
            | replace (a <=? b) with false by (symmetry; apply Z.leb_gt; lia) ]
  | |- context [?a <? ?b] =>
      first [ replace (a <? b) with true by (symmetry; apply Z.ltb_lt; lia)
            | replace (a <? b) with false by (symmetry; apply Z.ltb_ge; lia) ]
  | |- context [?a =? ?b] =>
      first [ replace (a =? b) with true by (symmetry; apply Z.eqb_eq; lia)
            | replace (a =? b) with false by (symmetry; apply Z.eqb_neq; lia) ]
  end; simpl.

Lemma range_length (a b : Z) : length (Py.range a b) = Z.to_nat (b - a).
Proof. unfold Py.range. now rewrite length_map, length_seq. Qed.

Lemma range_len (a b : Z) : Py.len (Py.range a b) = Z.max 0 (b - a).
Proof. unfold Py.len. rewrite range_length. lia. Qed.

Lemma range_In (a b i : Z) : In i (Py.range a b) <-> a <= i < b.
Proof.
  unfold Py.range. rewrite in_map_iff. split.
  - intros (k & <- & Hk). apply in_seq in Hk. lia.
  - intros H. exists (Z.to_nat (i - a)). split; [lia|]. apply in_seq. lia.
Qed.

Lemma range_lookup (a b : Z) (k : nat) :
  (k < Z.to_nat (b - a))%nat -> Py.range a b !! k = Some (a + Z.of_nat k).
Proof.
  intros Hk. unfold Py.range. rewrite list_lookup_fmap.
  rewrite lookup_seq_lt by lia. reflexivity.
Qed.

Lemma range_empty (a b : Z) : b <= a -> Py.range a b = [].
Proof. intros H. unfold Py.range. replace (Z.to_nat (b - a)) with 0%nat by lia. reflexivity. Qed.

Lemma norm_index_small (n i : Z) : 0 <= i < n -> Py.norm_index n i = Some (Z.to_nat i).
Proof. intros H. unfold Py.norm_index. cmp; try lia. reflexivity. Qed.

Lemma getitem_small {X} (xs : list X) (i : Z) :
  0 <= i < Py.len xs -> Py.getitem xs i = xs !! Z.to_nat i.
Proof. intros H. unfold Py.getitem. now rewrite norm_index_small. Qed.

Lemma getitem_is_Some {X} (xs : list X) (i : Z) :
  0 <= i < Py.len xs -> exists x, Py.getitem xs i = Some x.
Proof.
  intros H. rewrite getitem_small by assumption.
  destruct (lookup_lt_is_Some_2 xs (Z.to_nat i)) as [x Hx]; [unfold Py.len in H; lia|].
  eauto.
Qed.

Lemma getitem_In {X} (xs : list X) (i : Z) (x : X) : Py.getitem xs i = Some x -> In x xs.
Proof.
  unfold Py.getitem. destruct (Py.norm_index _ _); [|discriminate].
  intros H. apply list_elem_of_In. eapply list_elem_of_lookup_2; eassumption.
Qed.

Lemma index_select_In {X} (xs : list X) (idx : list Z) (r : list X) :
  Py.index_select xs idx = Some r -> forall x, In x r -> In x xs.
Proof.
  revert r. induction idx as [|i idx IH]; simpl; intros r H x Hx.
  - injection H as <-. destruct Hx.
  - destruct (Py.getitem xs i) eqn:Hi; [|discriminate].
    destruct (Py.index_select xs idx) eqn:Hr; [|discriminate].
    injection H as <-. destruct Hx as [<- | Hx]; [eapply getitem_In; eassumption|].
    eapply IH; [reflexivity | assumption].
Qed.

Lemma index_select_length {X} (xs : list X) (idx : list Z) (r : list X) :
  Py.index_select xs idx = Some r -> length r = length idx.
Proof.
  revert r. induction idx as [|i idx IH]; simpl; intros r H.
  - now injection H as <-.
  - destruct (Py.getitem xs i); [|discriminate].
    destruct (Py.index_select xs idx); [|discriminate].
    injection H as <-. simpl. f_equal. now apply IH.
Qed.

Lemma index_select_total {X} (xs : list X) (idx : list Z) :
  Forall (fun i => 0 <= i < Py.len xs) idx -> exists r, Py.index_select xs idx = Some r.
Proof.
  induction 1 as [|i idx Hi _ [r Hr]]; simpl; [eauto|].
  destruct (getitem_is_Some xs i Hi) as [x ->]. rewrite Hr. eauto.
Qed.

(** ** Rules of the weakest precondition *)

Section Rules.
Context {A Obs : Type}.
Local Abbreviation M := (M (A:=A) (Obs:=Obs)).
Local Abbreviation world := (world A Obs).
Implicit Types w : world.

Lemma wp_bind {X Y} (m : M X) (f : X -> M Y) Q E w :
  wp m (fun x w' => wp (f x) Q E w') E w -> wp (bind m f) Q E w.
Proof. unfold wp, bind. destruct (m w) as [[x|e] w']; auto. Qed.

Lemma wp_mono {X} (m : M X) (Q Q' : X -> world -> Prop) (E E' : exn -> world -> Prop) w :
  wp m Q E w ->
  (forall x w', Q x w' -> Q' x w') ->
  (forall e w', E e w' -> E' e w') ->
  wp m Q' E' w.
Proof. unfold wp. destruct (m w) as [[x|e] w']; auto. Qed.

Lemma wp_ret {X} (x : X) Q E w : Q x w -> wp (ret x) Q E w.
Proof. auto. Qed.

Lemma wp_raise {X} (e : exn) (Q : X -> world -> Prop) E w : E e w -> wp (raise e) Q E w.
Proof. auto. Qed.

Lemma wp_get_self Q E w : Q (self w) w -> wp get_self Q E w.
Proof. auto. Qed.

Lemma wp_alloc td Q E w :
  Q (length (heap w)) (mkWorld (self w) (heap w ++ [td]) (rng w) (rng_next w)) ->
  wp (alloc td) Q E w.
Proof. auto. Qed.

Lemma wp_load l Q E w :
  (forall td, heap w !! l = Some td -> Q td w) ->
  (heap w !! l = None -> E BackendError w) ->
  wp (load l) Q E w.
Proof. unfold wp, load. destruct (heap w !! l); auto. Qed.

Lemma wp_store l td Q E w :
  Q tt (mkWorld (self w) (<[l := td]> (heap w)) (rng w) (rng_next w)) ->
  wp (store l td) Q E w.
Proof. auto. Qed.

Lemma draws_length low high tape from k : length (draws low high tape from k) = k.
Proof. unfold draws. now rewrite length_map, length_seq. Qed.

Lemma draws_range low high tape from k :
  low < high -> Forall (fun x => low <= x < high) (draws low high tape from k).
Proof.
  intros H. unfold draws. apply List.Forall_forall. intros x Hx.
  apply in_map_iff in Hx as (j & <- & _).
  pose proof (Z.mod_pos_bound (tape (from + j)%nat) (high - low)). lia.
Qed.

Lemma randint_ok (low high size : Z) w :
  low < high -> 0 <= size ->
  randint low high size w =
    (Ok (draws low high (rng w) (rng_next w) (Z.to_nat size)),
     mkWorld (self w) (heap w) (rng w) (rng_next w + Z.to_nat size)%nat).
Proof. intros H1 H2. unfold randint. cmp; try lia. reflexivity. Qed.

Lemma randint_empty (low high size : Z) w :
  high <= low -> randint low high size w = (Raise BackendError, w).
Proof. intros H. unfold randint. cmp; try lia; reflexivity. Qed.

Lemma wp_randint (low high size : Z) Q E w :
  (low < high -> 0 <= size ->
   forall r, length r = Z.to_nat size -> Forall (fun x => low <= x < high) r ->
   Q r (mkWorld (self w) (heap w) (rng w) (rng_next w + Z.to_nat size)%nat)) ->
  (high <= low \/ size < 0 -> E BackendError w) ->
  wp (randint low high size) Q E w.
Proof.
  intros HQ HE. unfold wp, randint. cmp; try (apply HE; lia).
  apply HQ; try lia.
  - now rewrite length_map, length_seq.
  - apply (draws_range low high (rng w) (rng_next w) (Z.to_nat size)). lia.
Qed.

(** Every tuple of outcomes in range is drawn from some tape. *)
Lemma randint_any (low high : Z) (es : list Z) w :
  Forall (fun x => low <= x < high) es -> es <> [] ->
  let tape := fun n : nat => nth n es low - low in
  randint low high (Py.len es) (with_tape w tape)
  = (Ok es, mkWorld (self w) (heap w) tape (length es)).
Proof.
  intros Hes Hne tape.
  assert (low < high).
  { destruct es as [|e es']; [congruence|]. inversion Hes; subst. lia. }
  rewrite randint_ok by (unfold Py.len; simpl; lia). simpl.
  unfold Py.len. rewrite Nat2Z.id. f_equal. f_equal.
  apply list_eq. intros n. unfold draws. rewrite list_lookup_fmap.
  destruct (lt_dec n (length es)) as [Hn|Hn].
  - rewrite lookup_seq_lt by assumption. simpl.
    destruct (lookup_lt_is_Some_2 es n Hn) as [x Hx]. rewrite Hx. f_equal.
    unfold tape. rewrite (nth_lookup_Some _ _ low _ Hx).
    pose proof (Forall_lookup_1 _ _ _ _ Hes Hx) as Hr. simpl in Hr.
    rewrite Z.mod_small by lia. lia.
  - rewrite lookup_seq_ge by lia. simpl. symmetry. apply lookup_ge_None_2. lia.
Qed.

End Rules.

(** ** Sampling leaves the allocated objects alone *)

Section Frame.
Context {A Obs : Type}.
Local Abbreviation M := (M (A:=A) (Obs:=Obs)).
Local Abbreviation world := (world A Obs).
Implicit Types w : world.

Lemma unchanged_refl w : unchanged w w.
Proof. repeat split; auto. Qed.

Lemma unchanged_rng w0 w r n :
  unchanged w0 w -> unchanged w0 (mkWorld (self w) (heap w) r n).
Proof. intros H. exact H. Qed.

Lemma unchanged_alloc w0 w td r n :
  unchanged w0 w -> unchanged w0 (mkWorld (self w) (heap w ++ [td]) r n).
Proof.
  intros (Hs & Hl & Hh). repeat split; simpl; auto.
  - rewrite length_app. lia.
  - intros l Hlt. rewrite lookup_app_l by lia. auto.
Qed.

Lemma unchanged_store_fresh w0 w l td r n :
  unchanged w0 w -> (length (heap w0) <= l)%nat ->
  unchanged w0 (mkWorld (self w) (<[l := td]> (heap w)) r n).
Proof.
  intros (Hs & Hl & Hh) Hfresh. repeat split; simpl; auto.
  - rewrite length_insert. lia.
  - intros l' Hlt. rewrite list_lookup_insert_ne by lia. auto.
Qed.

Lemma unchanged_trans w0 w1 w2 : unchanged w0 w1 -> unchanged w1 w2 -> unchanged w0 w2.
Proof.
  intros (Hs & Hl & Hh) (Hs' & Hl' & Hh'). repeat split.
  - congruence.
  - lia.
  - intros l Hlt. rewrite Hh' by lia. auto.
Qed.

Lemma frame_bind {X Y} w0 (m : M X) (f : X -> M Y) (Q : X -> Prop) (R : Y -> Prop) :
  frame_from w0 m Q -> (forall x, Q x -> frame_from w0 (f x) R) ->
  frame_from w0 (bind m f) R.
Proof.
  intros Hm Hf w Hw. apply wp_bind. eapply wp_mono; [apply Hm, Hw | |]; simpl.
  - intros x w' [Hw' Hx]. apply Hf; assumption.
  - auto.
Qed.

Lemma frame_weaken {X} w0 (m : M X) (Q R : X -> Prop) :
  frame_from w0 m Q -> (forall x, Q x -> R x) -> frame_from w0 m R.
Proof.
  intros Hm HQR w Hw. eapply wp_mono; [apply Hm, Hw | |]; simpl; auto.
  intros x w' [? ?]; auto.
Qed.

Lemma frame_ret {X} w0 (x : X) (Q : X -> Prop) : Q x -> frame_from w0 (ret x) Q.
Proof. intros Hx w Hw. apply wp_ret. auto. Qed.

Lemma frame_raise {X} w0 e (Q : X -> Prop) : frame_from w0 (raise e : M X) Q.
Proof. intros w Hw. apply wp_raise. auto. Qed.

Lemma frame_get_self w0 : frame_from w0 get_self (fun s => s = self w0).
Proof. intros w Hw. apply wp_get_self. split; [assumption|]. apply Hw. Qed.

Lemma frame_of_option {X} w0 (o : option X) e : frame_from w0 (of_option o e) (fun _ => True).
Proof. destruct o; [apply frame_ret; exact I | apply frame_raise]. Qed.

Lemma frame_randint w0 low high size :
  frame_from w0 (randint low high size) (fun _ => True).
Proof.
  intros w Hw. apply wp_randint.
  - intros _ _ r _ _. split; [now apply unchanged_rng | exact I].
  - intros _. exact Hw.
Qed.

Lemma frame_alloc w0 td : frame_from w0 (alloc td) (fun l => (length (heap w0) <= l)%nat).
Proof.
  intros w Hw. apply wp_alloc. split; [now apply unchanged_alloc|].
  destruct Hw as (_ & Hl & _). exact Hl.
Qed.

Lemma frame_load w0 l : frame_from w0 (load l) (fun _ => True).
Proof. intros w Hw. apply wp_load; auto. Qed.

Lemma frame_store_fresh w0 l td :
  (length (heap w0) <= l)%nat -> frame_from w0 (store l td) (fun _ => True).
Proof.
  intros Hl w Hw. apply wp_store. split; [|exact I]. now apply unchanged_store_fresh.
Qed.

End Frame.

(** ** [add]: the table write and the cursor *)

Section Add.
Context {A Obs : Type} (zero : A).
Local Abbreviation world := (world A Obs).
Implicit Types (w : world) (rows src data : list (list A)).

Lemma put_rows_shape (P : list A -> Prop) idxes : forall rows src rows',
  put_rows rows idxes src = Some rows' ->
  length rows' = length rows /\ (Forall P rows -> Forall P src -> Forall P rows').
Proof.
  induction idxes as [|i idxes IH]; intros rows src rows' H; destruct src as [|r src];
    simpl in H; try discriminate.
  - injection H as <-. auto.
  - destruct (Py.norm_index (Py.len rows) i) as [k|]; [|discriminate].
    apply IH in H as [Hlen Hall]. rewrite length_insert in Hlen. split; [assumption|].
    intros Hrows Hsrc. inversion Hsrc; subst. apply Hall; [|assumption].
    apply Forall_insert; assumption.
Qed.

Lemma put_rows_length idxes : forall rows src rows',
  put_rows rows idxes src = Some rows' -> length idxes = length src.
Proof.
  induction idxes as [|i idxes IH]; intros rows src rows' H; destruct src as [|r src];
    simpl in H; try discriminate; [reflexivity|].
  destruct (Py.norm_index (Py.len rows) i); [|discriminate].
  simpl. f_equal. eapply IH; eassumption.
Qed.

Lemma setitem_rows_tensor n_envs rows (idxes : list Z) src :
  setitem_rows n_envs rows (torch_tensor idxes) src
  = if forallb (fun r => Py.len r =? n_envs) src
    then match idxes with [] => None | _ :: _ => put_rows rows idxes src end
    else None.
Proof. destruct idxes; simpl; [now destruct (forallb _ src) | reflexivity]. Qed.

Lemma setitem_rows_put n_envs rows (idxes : list Z) src rows' :
  setitem_rows n_envs rows (torch_tensor idxes) src = Some rows' ->
  idxes <> [] /\ forallb (fun r => Py.len r =? n_envs) src = true
  /\ put_rows rows idxes src = Some rows'.
Proof.
  rewrite setitem_rows_tensor. destruct (forallb _ src); [|discriminate].
  destruct idxes; [discriminate|]. intros H. repeat split; [discriminate | exact H].
Qed.

Lemma setitem_rows_nonempty n_envs rows (idxes : list Z) src :
  idxes <> [] -> forallb (fun r => Py.len r =? n_envs) src = true ->
  setitem_rows n_envs rows (torch_tensor idxes) src = put_rows rows idxes src.
Proof. intros Hne Hw. rewrite setitem_rows_tensor, Hw. destruct idxes; congruence. Qed.

Lemma setitem_rows_shape n_envs rows (idxes : list Z) src rows' :
  setitem_rows n_envs rows (torch_tensor idxes) src = Some rows' ->
  Forall (fun r => Py.len r = n_envs) rows ->
  Py.len rows' = Py.len rows /\ Forall (fun r => Py.len r = n_envs) rows'
  /\ length idxes = length src.
Proof.
  intros H. apply setitem_rows_put in H as (_ & Hw & H). revert H.
  intros H Hrows.
  destruct (put_rows_shape (fun r => Py.len r = n_envs) _ _ _ _ H) as [Hlen Hall].
  unfold Py.len. rewrite Hlen. repeat split; [|eapply put_rows_length; eassumption].
  apply Hall; [assumption|]. apply List.Forall_forall. intros r Hr.
  rewrite forallb_forall in Hw. apply Hw in Hr. lia.
Qed.

Lemma add_allocated w data l rows :
  _buf (self w) = Some l -> heap w !! l = Some (Storage rows) ->
  ReplayBuffer.add zero data w =
    match setitem_rows (_n_envs (self w)) rows
            (torch_tensor (ReplayBuffer.add_idxes (self w) (Py.len data)))
            (ReplayBuffer.add_data_to_store (self w) data) with
    | Some rows' =>
        (Ok tt, mkWorld (added (self w) (Some l) (Py.len data))
                  (<[l := Storage rows']> (heap w)) (rng w) (rng_next w))
    | None => (Raise BackendError, w)
    end.
Proof.
  intros Hb Hl. unfold ReplayBuffer.add, bind, get_self. rewrite Hb. simpl.
  unfold bind, load. rewrite Hl.
  destruct (setitem_rows _ _ _ _) as [rows'|]; simpl; [|reflexivity].
  unfold added, ReplayBuffer.set_full, ReplayBuffer.set_pos, bind, get_self, set_self.
  destruct (_pos (self w) + Py.len data >=? _buffer_size (self w)); simpl;
    rewrite Hb; reflexivity.
Qed.

Lemma add_unallocated w data :
  _buf (self w) = None -> _memmap (self w) = true ->
  let l := length (heap w) in
  let rows := repeat (repeat zero (Z.to_nat (_n_envs (self w))))
                (Z.to_nat (_buffer_size (self w))) in
  let s1 := mkAttrs (_buffer_size (self w)) (_n_envs (self w)) true (Some l)
              (_pos (self w)) (_full (self w)) in
  ReplayBuffer.add zero data w =
    match setitem_rows (_n_envs (self w)) rows
            (torch_tensor (ReplayBuffer.add_idxes (self w) (Py.len data)))
            (ReplayBuffer.add_data_to_store (self w) data) with
    | Some rows' =>
        (Ok tt, mkWorld (added (self w) (Some l) (Py.len data))
                  (heap w ++ [Storage rows']) (rng w) (rng_next w))
    | None => (Raise BackendError, mkWorld s1 (heap w ++ [Storage rows]) (rng w) (rng_next w))
    end.
Proof.
  intros Hb Hm l rows s1. unfold ReplayBuffer.add, bind, get_self. rewrite Hb, Hm. simpl.
  unfold bind, load. simpl.
  rewrite lookup_app_r by lia. rewrite Nat.sub_diag. simpl.
  subst rows s1 l.
  destruct (setitem_rows _ _ _ _) as [rows'|]; simpl; [|rewrite Hm; reflexivity].
  unfold added, ReplayBuffer.set_full, ReplayBuffer.set_pos, bind, get_self, set_self.
  rewrite insert_app_r_alt by lia. rewrite Nat.sub_diag. simpl.
  destruct (_pos (self w) + Py.len data >=? _buffer_size (self w)); simpl; reflexivity.
Qed.

Lemma empty_table_shape (buffer_size n_envs : Z) :
  0 <= buffer_size -> 0 <= n_envs ->
  let rows := repeat (repeat zero (Z.to_nat n_envs)) (Z.to_nat buffer_size) in
  Py.len rows = buffer_size /\ Forall (fun r => Py.len r = n_envs) rows.
Proof.
  intros Hb He rows. unfold rows, Py.len. rewrite repeat_length. split; [lia|].
  apply List.Forall_forall. intros r Hr. apply repeat_spec in Hr. subst r.
  rewrite repeat_length. lia.
Qed.

(** [add] keeps the world well formed, whether it returns or raises. *)
Lemma add_wf w data : wf w -> wf (snd (ReplayBuffer.add zero data w)).
Proof.
  intros (HC & HE & Hpos & Htab). unfold table_ok in Htab.
  destruct (_buf (self w)) as [l|] eqn:Hb.
  - destruct Htab as (rows & Hl & Hlen & Hrows).
    rewrite (add_allocated w data l rows Hb Hl).
    destruct (setitem_rows _ _ _ _) as [rows'|] eqn:Hset; simpl.
    + apply setitem_rows_shape in Hset as (Hlen' & Hrows' & _); [|assumption].
      unfold wf, table_ok; simpl.
      repeat split; try assumption; try (apply Z.mod_pos_bound; lia).
      exists rows'. rewrite list_lookup_insert_eq by (eapply lookup_lt_Some; eassumption).
      repeat split; [congruence | assumption].
    + unfold wf, table_ok. rewrite Hb. repeat split; try assumption; try lia. eauto.
  - destruct Htab as (Hm & Hp0 & Hf).
    rewrite (add_unallocated w data Hb Hm).
    destruct (empty_table_shape (_buffer_size (self w)) (_n_envs (self w))) as [Hlen Hrows];
      [lia | lia |].
    destruct (setitem_rows _ _ _ _) as [rows'|] eqn:Hset; simpl.
    + apply setitem_rows_shape in Hset as (Hlen' & Hrows' & _); [|assumption].
      unfold wf, table_ok; simpl.
      repeat split; try assumption; try (apply Z.mod_pos_bound; lia).
      exists rows'. rewrite lookup_app_r by lia. rewrite Nat.sub_diag.
      repeat split; [congruence | assumption].
    + unfold wf, table_ok; simpl. repeat split; try assumption; try lia.
      eexists. rewrite lookup_app_r by lia. rewrite Nat.sub_diag.
      repeat split; [exact Hlen | exact Hrows].
Qed.

(** The cursor after [add]. *)
Lemma add_attrs w data w' :
  wf w -> ReplayBuffer.add zero data w = (Ok tt, w') ->
  _buffer_size (self w') = _buffer_size (self w)
  /\ _n_envs (self w') = _n_envs (self w)
  /\ _pos (self w') = (_pos (self w) + Py.len data) mod _buffer_size (self w)
  /\ _full (self w') = _full (self w) || (_buffer_size (self w) <=? _pos (self w) + Py.len data).
Proof.
  intros (HC & HE & Hpos & Htab) Hadd. unfold table_ok in Htab.
  assert (Hs : exists b, self w' = added (self w) b (Py.len data)).
  { destruct (_buf (self w)) as [l|] eqn:Hb.
    - destruct Htab as (rows & Hl & _).
      rewrite (add_allocated w data l rows Hb Hl) in Hadd.
      destruct (setitem_rows _ _ _ _); [|discriminate].
      injection Hadd as <-. eauto.
    - destruct Htab as (Hm & _).
      rewrite (add_unallocated w data Hb Hm) in Hadd.
      destruct (setitem_rows _ _ _ _); [|discriminate].
      injection Hadd as <-. eauto. }
  destruct Hs as [b ->]. unfold added; simpl. repeat split.
  rewrite Z.geb_leb. destruct (_buffer_size (self w) <=? _pos (self w) + Py.len data);
    destruct (_full (self w)); reflexivity.
Qed.

(** A raising [add] does not move the cursor, and [full] is never reset. *)
Lemma add_full_monotone w data :
  wf w -> _full (self w) = true -> _full (self (snd (ReplayBuffer.add zero data w))) = true.
Proof.
  intros (HC & HE & Hpos & Htab) Hfull. unfold table_ok in Htab.
  destruct (_buf (self w)) as [l|] eqn:Hb.
  - destruct Htab as (rows & Hl & _).
    rewrite (add_allocated w data l rows Hb Hl).
    destruct (setitem_rows _ _ _ _); simpl; [|assumption].
    rewrite Hfull. now destruct (_ >=? _).
  - destruct Htab as (_ & _ & Hf). congruence.
Qed.

End Add.

(** ** The uniform sampler: valid indices and draws *)

Section UniformIndices.
Context {A Obs : Type}.
Local Abbreviation world := (world A Obs).
Implicit Types (w : world) (s : attrs).

Lemma mod_pred (c p : Z) :
  0 < c -> 0 <= p < c -> (p - 1) mod c = if p =? 0 then c - 1 else p - 1.
Proof.
  intros Hc Hp. cmp.
  - subst p. replace (0 - 1) with (-1 * c + (c - 1)) by lia.
    rewrite Z.add_comm, Z.mod_add by lia. apply Z.mod_small. lia.
  - apply Z.mod_small. lia.
Qed.

(** On a full buffer the valid indices are all the slots, except, when the
    next observation is asked for, the slot before the cursor. *)
Lemma valid_idxes_In s (sample_next_obs : bool) (i : Z) :
  0 < _buffer_size s -> 0 <= _pos s < _buffer_size s ->
  In i (ReplayBuffer.valid_idxes s sample_next_obs) <->
  0 <= i < _buffer_size s
  /\ (sample_next_obs = true -> i <> (_pos s - 1) mod _buffer_size s).
Proof.
  intros HC Hpos. unfold ReplayBuffer.valid_idxes.
  rewrite in_app_iff, !range_In, mod_pred by assumption.
  destruct sample_next_obs; cmp; (split; [intros Hin | intros [Hin Hne]]);
    try specialize (Hne eq_refl); try lia; (split; [lia | intros; first [discriminate | lia]]).
Qed.

Lemma valid_idxes_len s (sample_next_obs : bool) :
  0 < _buffer_size s -> 0 <= _pos s < _buffer_size s ->
  Py.len (ReplayBuffer.valid_idxes s sample_next_obs)
  = if sample_next_obs then _buffer_size s - 1 else _buffer_size s.
Proof.
  intros HC Hpos. unfold ReplayBuffer.valid_idxes, Py.len.
  rewrite length_app, !range_length. destruct sample_next_obs; cmp; lia.
Qed.

(** Selecting through in-range positions returns listed elements. *)
Lemma index_select_draws (xs : list Z) (r : list Z) :
  Forall (fun k => 0 <= k < Py.len xs) r ->
  exists idx, Py.index_select xs r = Some idx
    /\ length idx = length r /\ Forall (fun i => In i xs) idx.
Proof.
  intros Hr. destruct (index_select_total xs r Hr) as [idx Hidx].
  exists idx. repeat split; [assumption | eapply index_select_length; eassumption |].
  apply List.Forall_forall. intros i Hi. eapply index_select_In; eassumption.
Qed.

(** The outcome of [batch_idxes], case by case. *)
Lemma batch_idxes_batch_size w batch_size sno :
  batch_size <= 0 ->
  ReplayBuffer.batch_idxes batch_size sno w = (Raise ValueError_batch_size, w).
Proof. intros H. unfold ReplayBuffer.batch_idxes, bind, get_self. cmp; try lia; reflexivity. Qed.

Lemma batch_idxes_no_sample w batch_size sno :
  0 < batch_size -> _full (self w) = false -> _pos (self w) = 0 ->
  ReplayBuffer.batch_idxes batch_size sno w = (Raise ValueError_no_sample, w).
Proof.
  intros H Hf Hp. unfold ReplayBuffer.batch_idxes, bind, get_self. rewrite Hf, Hp.
  cmp; try lia; reflexivity.
Qed.

Lemma batch_idxes_one_sample w batch_size :
  0 < batch_size -> _full (self w) = false -> _pos (self w) = 1 ->
  ReplayBuffer.batch_idxes batch_size true w = (Raise RuntimeError_one_sample, w).
Proof.
  intros H Hf Hp. unfold ReplayBuffer.batch_idxes, bind, get_self. rewrite Hf, Hp.
  cmp; try lia; reflexivity.
Qed.

Lemma batch_idxes_no_valid w batch_size :
  0 < batch_size -> _full (self w) = true ->
  _buffer_size (self w) = 1 -> _pos (self w) = 0 ->
  ReplayBuffer.batch_idxes batch_size true w = (Raise BackendError, w).
Proof.
  intros H Hf Hc Hp. unfold ReplayBuffer.batch_idxes, bind, get_self. rewrite Hf.
  cmp; try lia.
  unfold ReplayBuffer.valid_idxes. rewrite Hc, Hp. simpl. reflexivity.
Qed.

Lemma batch_idxes_full w batch_size sno :
  0 < _buffer_size (self w) -> 0 <= _pos (self w) < _buffer_size (self w) ->
  0 < batch_size -> _full (self w) = true ->
  (sno = true -> 1 < _buffer_size (self w)) ->
  exists idx,
    ReplayBuffer.batch_idxes batch_size sno w
    = (Ok idx, mkWorld (self w) (heap w) (rng w) (rng_next w + Z.to_nat batch_size)%nat)
    /\ Py.len idx = batch_size
    /\ Forall (fun i => In i (ReplayBuffer.valid_idxes (self w) sno)) idx.
Proof.
  intros HC Hpos Hbs Hf Hc1.
  assert (Hlen : 0 < Py.len (ReplayBuffer.valid_idxes (self w) sno)).
  { rewrite valid_idxes_len by assumption. destruct sno; [specialize (Hc1 eq_refl)|]; lia. }
  destruct (index_select_draws (ReplayBuffer.valid_idxes (self w) sno)
              (draws 0 (Py.len (ReplayBuffer.valid_idxes (self w) sno)) (rng w) (rng_next w)
                 (Z.to_nat batch_size))) as (idx & Hsel & Hl & Hin).
  { apply draws_range. assumption. }
  unfold ReplayBuffer.batch_idxes, bind, get_self. rewrite Hf. decide_cmp.
  rewrite randint_ok by lia.
  rewrite Hsel. simpl. exists idx. repeat split; [|assumption].
  unfold Py.len. rewrite Hl, draws_length. lia.
Qed.

Lemma batch_idxes_not_full w batch_size sno :
  0 < batch_size -> _full (self w) = false -> 0 < _pos (self w) ->
  (sno = true -> 1 < _pos (self w)) ->
  exists idx,
    ReplayBuffer.batch_idxes batch_size sno w
    = (Ok idx, mkWorld (self w) (heap w) (rng w) (rng_next w + Z.to_nat batch_size)%nat)
    /\ Py.len idx = batch_size
    /\ Forall (fun i => 0 <= i < (if sno then _pos (self w) - 1 else _pos (self w))) idx.
Proof.
  intros Hbs Hf Hp Hp1.
  unfold ReplayBuffer.batch_idxes, bind, get_self. rewrite Hf.
  destruct sno; [specialize (Hp1 eq_refl)|]; decide_cmp;
    (rewrite randint_ok by lia; eexists; repeat split;
     [unfold Py.len; rewrite draws_length; lia | apply draws_range; lia]).
Qed.

(** Whatever is drawn on a full buffer is a valid index. *)
Lemma batch_idxes_sound w batch_size sno idx w' :
  _full (self w) = true ->
  ReplayBuffer.batch_idxes batch_size sno w = (Ok idx, w') ->
  Forall (fun i => In i (ReplayBuffer.valid_idxes (self w) sno)) idx.
Proof.
  intros Hf. unfold ReplayBuffer.batch_idxes, bind, get_self. rewrite Hf.
  destruct (batch_size <=? 0); [discriminate|]. simpl.
  destruct (randint _ _ _ w) as [[r|e] w1]; [|discriminate].
  destruct (Py.index_select _ r) as [sel|] eqn:Hsel; simpl; [|discriminate].
  intros H. injection H as <- _. apply List.Forall_forall. intros i Hi.
  eapply index_select_In; eassumption.
Qed.

(** Every valid index is drawn from some tape. *)
Lemma batch_idxes_complete w sno (i : Z) :
  _full (self w) = true ->
  In i (ReplayBuffer.valid_idxes (self w) sno) ->
  exists tape, fst (ReplayBuffer.batch_idxes 1 sno (with_tape w tape)) = Ok [i].
Proof.
  intros Hf Hi. apply list_elem_of_In, list_elem_of_lookup_1 in Hi as [k Hk].
  pose proof (lookup_lt_Some _ _ _ Hk) as Hlt.
  set (valid := ReplayBuffer.valid_idxes (self w) sno) in *.
  assert (Hes : Forall (fun x => 0 <= x < Py.len valid) [Z.of_nat k]).
  { constructor; [unfold Py.len; lia | constructor]. }
  pose proof (randint_any 0 (Py.len valid) [Z.of_nat k] w Hes ltac:(discriminate)) as Hr.
  simpl in Hr. eexists.
  unfold ReplayBuffer.batch_idxes, bind, get_self. simpl. rewrite Hf. simpl.
  fold valid. change (Py.len [Z.of_nat k]) with 1 in Hr. rewrite Hr. simpl.
  rewrite getitem_small by (unfold Py.len; lia). rewrite Nat2Z.id, Hk. reflexivity.
Qed.

End UniformIndices.

(** ** The samplers only read *)

Section FrameSamplers.
Context {A Obs : Type} (observations : option (A -> Obs)).
Local Abbreviation M := (M (A:=A) (Obs:=Obs)).
Local Abbreviation world := (world A Obs).
Implicit Types (w : world).

Lemma frame_true {X} w0 (m : M X) (Q : X -> Prop) :
  frame_from w0 m Q -> frame_from w0 m (fun _ => True).
Proof. intros H. eapply frame_weaken; [exact H | auto]. Qed.

Lemma frame_bind_true {X Y} w0 (m : M X) (f : X -> M Y) (Q : X -> Prop) (R : Y -> Prop) :
  frame_from w0 m Q -> (forall x, frame_from w0 (f x) R) -> frame_from w0 (bind m f) R.
Proof. intros Hm Hf. eapply frame_bind; [exact Hm | auto]. Qed.

Lemma frame_getitem_at w0 l (bi ei : list Z) :
  frame_from w0 (getitem_at (A:=A) (Obs:=Obs) l bi ei) (fun _ => True).
Proof.
  unfold getitem_at. eapply frame_bind_true; [apply frame_load|].
  intros [rows|? ? ?]; [apply frame_of_option | apply frame_raise].
Qed.

Lemma frame_setkey w0 l (nxt : list Obs) :
  fresh_in w0 l -> frame_from w0 (setkey_next_observations (A:=A) l nxt) (fun _ => True).
Proof.
  intros Hl. unfold setkey_next_observations. eapply frame_bind_true; [apply frame_load|].
  intros [rows|? ? ?]; [apply frame_raise | apply frame_store_fresh, Hl].
Qed.

Lemma frame_shape0 w0 b : frame_from w0 (shape0 (A:=A) (Obs:=Obs) b) (fun _ => True).
Proof.
  unfold shape0. destruct b as [l|]; [|apply frame_raise].
  eapply frame_bind_true; [apply frame_load|].
  intros [rows|? ? ?]; [apply frame_ret; exact I | apply frame_of_option].
Qed.

Lemma frame_view w0 l shape : frame_from w0 (view (A:=A) (Obs:=Obs) l shape) (fresh_in w0).
Proof.
  unfold view. eapply frame_bind_true; [apply frame_load|].
  intros [rows|? ? ?]; [apply frame_raise|].
  destruct (_ && _); [apply frame_alloc | apply frame_raise].
Qed.

Lemma frame_unsqueeze_last w0 l :
  frame_from w0 (unsqueeze_last (A:=A) (Obs:=Obs) l) (fresh_in w0).
Proof.
  unfold unsqueeze_last. eapply frame_bind_true; [apply frame_load|].
  intros [rows|? ? ?]; [apply frame_raise | apply frame_alloc].
Qed.

Lemma frame_permute_0_2_1 w0 l :
  frame_from w0 (permute_0_2_1 (A:=A) (Obs:=Obs) l) (fresh_in w0).
Proof.
  unfold permute_0_2_1. eapply frame_bind_true; [apply frame_load|].
  intros [rows|[|a [|b [|c [|d shape]]]] ? ?]; try apply frame_raise. apply frame_alloc.
Qed.

Lemma frame_clone_td w0 l : frame_from w0 (clone_td (A:=A) (Obs:=Obs) l) (fresh_in w0).
Proof.
  unfold clone_td. eapply frame_bind_true; [apply frame_load|]. intros td. apply frame_alloc.
Qed.

Lemma frame_arange w0 n : frame_from w0 (arange (A:=A) (Obs:=Obs) n) (fun _ => True).
Proof. unfold arange. destruct (n <? 0); [apply frame_raise | apply frame_ret; exact I]. Qed.

Lemma frame_batch_idxes w0 batch_size sno :
  frame_from w0 (ReplayBuffer.batch_idxes (A:=A) (Obs:=Obs) batch_size sno) (fun _ => True).
Proof.
  unfold ReplayBuffer.batch_idxes. eapply frame_bind_true; [apply frame_get_self|].
  intros s. destruct (batch_size <=? 0); [apply frame_raise|].
  destruct (negb (_full s) && (_pos s =? 0)); [apply frame_raise|].
  destruct (_full s).
  - eapply frame_bind_true; [apply frame_randint|]. intros r. apply frame_of_option.
  - destruct (_ =? 0); [apply frame_raise | apply frame_randint].
Qed.

Lemma frame_get_samples w0 (idx : list Z) sno :
  frame_from w0 (ReplayBuffer._get_samples observations idx sno) (fresh_in w0).
Proof.
  unfold ReplayBuffer._get_samples. eapply frame_bind_true; [apply frame_get_self|].
  intros s. eapply frame_bind_true; [apply frame_randint|]. intros envs.
  destruct (_buf s) as [b|]; [|apply frame_raise].
  eapply frame_bind_true; [apply frame_getitem_at|]. intros items.
  eapply frame_bind; [apply frame_alloc|]. intros buf Hbuf.
  eapply (frame_bind_true _ _ _ (fun _ => True)); [|intros _; apply frame_ret; exact Hbuf].
  destruct sno; [|apply frame_ret; exact I].
  destruct observations as [obs|]; [|apply frame_raise].
  eapply frame_bind_true; [apply frame_getitem_at|]. intros nxt.
  apply frame_setkey. exact Hbuf.
Qed.

Lemma frame_sample w0 batch_size sno clone :
  frame_from w0 (ReplayBuffer.sample observations batch_size sno clone) (fresh_in w0).
Proof.
  unfold ReplayBuffer.sample. eapply frame_bind_true; [apply frame_batch_idxes|].
  intros idx. eapply frame_bind_true; [apply frame_get_samples|].
  intros buf. eapply frame_bind; [apply frame_unsqueeze_last|].
  intros smp Hsmp. destruct clone; [apply frame_clone_td | apply frame_ret; exact Hsmp].
Qed.

Lemma frame_start_idxes w0 batch_size sequence_length n_samples :
  frame_from w0
    (SequentialReplayBuffer.start_idxes (A:=A) (Obs:=Obs) batch_size sequence_length n_samples)
    (fun _ => True).
Proof.
  unfold SequentialReplayBuffer.start_idxes. eapply frame_bind_true; [apply frame_get_self|].
  intros s. destruct (_ <=? 0); [apply frame_raise|].
  destruct (negb (_full s) && (_pos s =? 0)); [apply frame_raise|].
  eapply frame_bind_true; [apply frame_shape0|]. intros size0.
  destruct (_ >? size0); [apply frame_raise|].
  destruct (negb (_full s) && _); [apply frame_raise|].
  destruct (_full s && _); [apply frame_raise|].
  destruct (_full s); [|apply frame_randint].
  destruct (_ <? _); [apply frame_raise|].
  eapply frame_bind_true; [apply frame_randint|]. intros r. apply frame_of_option.
Qed.

Lemma frame_window_idxes w0 batch_size sequence_length n_samples :
  frame_from w0
    (SequentialReplayBuffer.window_idxes (A:=A) (Obs:=Obs) batch_size sequence_length n_samples)
    (fun _ => True).
Proof.
  unfold SequentialReplayBuffer.window_idxes.
  eapply frame_bind_true; [apply frame_start_idxes|]. intros start.
  eapply frame_bind_true; [apply frame_arange|]. intros chunk.
  eapply frame_bind_true; [apply frame_get_self|]. intros s. apply frame_ret. exact I.
Qed.

Lemma frame_env_idxes w0 n l :
  frame_from w0 (SequentialReplayBuffer.env_idxes (A:=A) (Obs:=Obs) n l) (fun _ => True).
Proof.
  unfold SequentialReplayBuffer.env_idxes. eapply frame_bind_true; [apply frame_get_self|].
  intros s. eapply frame_bind_true; [apply frame_randint|]. intros envs.
  apply frame_ret. exact I.
Qed.

Lemma frame_seq_get_samples w0 (idxes : list (list Z)) sno :
  frame_from w0 (SequentialReplayBuffer._get_samples (A:=A) (Obs:=Obs) idxes sno) (fresh_in w0).
Proof.
  unfold SequentialReplayBuffer._get_samples. eapply frame_bind_true; [apply frame_get_self|].
  intros s. eapply frame_bind_true; [apply frame_env_idxes|]. intros envs.
  destruct (_buf s) as [b|]; [|apply frame_raise].
  eapply frame_bind_true; [apply frame_getitem_at|]. intros items.
  eapply frame_bind_true; [apply frame_alloc|]. intros smp. apply frame_view.
Qed.

Lemma frame_seq_sample w0 batch_size sno clone sequence_length n_samples :
  frame_from w0
    (SequentialReplayBuffer.sample (A:=A) (Obs:=Obs) batch_size sno clone sequence_length
       n_samples)
    (fresh_in w0).
Proof.
  unfold SequentialReplayBuffer.sample. eapply frame_bind_true; [apply frame_window_idxes|].
  intros idxes. eapply frame_bind_true; [apply frame_seq_get_samples|].
  intros smp. eapply frame_bind_true; [apply frame_view|].
  intros r. eapply frame_bind; [apply frame_permute_0_2_1|].
  intros p Hp. destruct clone; [apply frame_clone_td | apply frame_ret; exact Hp].
Qed.

(** From a frame judgement to the world after a run. *)
Lemma frame_run {X} w (m : M X) (Q : X -> Prop) : frame_from w m Q -> unchanged w (snd (m w)).
Proof.
  intros H. specialize (H w (unchanged_refl w)). unfold wp in H.
  destruct (m w) as [[x|e] w']; simpl; [apply H | exact H].
Qed.

Lemma unchanged_wf w w' : unchanged w w' -> wf w -> wf w'.
Proof.
  intros (Hs & Hl & Hh) (HC & HE & Hpos & Htab). unfold wf, table_ok in *. rewrite Hs.
  repeat split; try assumption; try lia.
  destruct (_buf (self w)) as [l|]; [|assumption].
  destruct Htab as (rows & Hrows & ?). exists rows. split; [|assumption].
  rewrite Hh; [assumption|]. eapply lookup_lt_Some; eassumption.
Qed.

Lemma unchanged_table_rows w w' : unchanged w w' -> wf w -> table_rows w' = table_rows w.
Proof.
  intros (Hs & Hl & Hh) (HC & HE & Hpos & Htab). unfold table_rows, table_ok in *. rewrite Hs.
  destruct (_buf (self w)) as [l|]; [|reflexivity].
  destruct Htab as (rows & Hrows & ?). rewrite Hh; [reflexivity|].
  eapply lookup_lt_Some; eassumption.
Qed.

End FrameSamplers.

(** ** The uniform sampler: outcome of [sample] *)

Section UniformOutcome.
Context {A Obs : Type} (observations : option (A -> Obs)).
Local Abbreviation M := (M (A:=A) (Obs:=Obs)).
Local Abbreviation world := (world A Obs).
Implicit Types (w : world) (rows : list (list A)).

Lemma bind_raise {X Y} (m : M X) (f : X -> M Y) w e w' :
  m w = (Raise e, w') -> bind m f w = (Raise e, w').
Proof. intros H. unfold bind. now rewrite H. Qed.

Lemma bind_ok {X Y} (m : M X) (f : X -> M Y) w x w' :
  m w = (Ok x, w') -> bind m f w = f x w'.
Proof. intros H. unfold bind. now rewrite H. Qed.

Lemma gather_total rows (n_envs : Z) : forall bi ei : list Z,
  Forall (fun r => Py.len r = n_envs) rows ->
  Forall (fun i => 0 <= i < Py.len rows) bi ->
  Forall (fun e => 0 <= e < n_envs) ei ->
  length bi = length ei ->
  exists items, gather rows bi ei = Some items /\ length items = length bi.
Proof.
  induction bi as [|i bi IH]; intros [|e ei] Hrows Hbi Hei Hlen; simpl in Hlen;
    try discriminate.
  - exists []. auto.
  - inversion Hbi as [|? ? Hi Hbi']; inversion Hei as [|? ? He Hei']; subst.
    destruct (IH ei Hrows Hbi' Hei' ltac:(lia)) as (items & Hitems & Hl).
    simpl. destruct (getitem_is_Some rows i Hi) as [row Hrow]. rewrite Hrow.
    assert (Hw : Py.len row = n_envs).
    { rewrite List.Forall_forall in Hrows. apply Hrows. eapply getitem_In; eassumption. }
    destruct (getitem_is_Some row e ltac:(lia)) as [x Hx]. rewrite Hx, Hitems.
    exists (x :: items). simpl. auto.
Qed.

Lemma get_samples_returns w (idx : list Z) (sno : bool) :
  wf w -> _buf (self w) <> None ->
  Forall (fun i => 0 <= i < _buffer_size (self w)) idx ->
  (sno = true -> observations <> None) ->
  exists l w', ReplayBuffer._get_samples observations idx sno w = (Ok l, w')
    /\ exists shape items nxt, heap w' !! l = Some (Samples shape items nxt).
Proof.
  intros (HC & HE & Hpos & Htab) Hb Hidx Hkey. unfold table_ok in Htab.
  destruct (_buf (self w)) as [b|] eqn:Hbuf; [clear Hb|congruence].
  destruct Htab as (rows & Hrows & Hlen & Hwidth).
  unfold ReplayBuffer._get_samples, bind, get_self.
  rewrite randint_ok by (unfold Py.len; lia). rewrite Hbuf. simpl.
  set (envs := draws 0 (_n_envs (self w)) (rng w) (rng_next w) (Z.to_nat (Py.len idx))).
  assert (Henvs : Forall (fun e => 0 <= e < _n_envs (self w)) envs)
    by (apply draws_range; lia).
  assert (Hel : length idx = length envs).
  { unfold envs. rewrite draws_length. unfold Py.len. lia. }
  destruct (gather_total rows (_n_envs (self w)) idx envs) as (items & Hitems & _); auto.
  { rewrite Hlen. assumption. }
  unfold getitem_at, bind, load. simpl. rewrite Hrows, Hitems. simpl.
  destruct sno; simpl.
  - destruct observations as [obs|]; [|exfalso; now apply Hkey]. simpl.
    destruct (gather_total rows (_n_envs (self w))
                (map (fun i => (i + 1) mod _buffer_size (self w)) idx) envs)
      as (nxt & Hnxt & _); auto.
    { apply List.Forall_forall. intros j Hj. apply in_map_iff in Hj as (i & <- & _).
      rewrite Hlen. apply Z.mod_pos_bound. lia. }
    { now rewrite length_map. }
    rewrite lookup_app_l by (eapply lookup_lt_Some; eassumption).
    rewrite Hrows, Hnxt. simpl.
    unfold setkey_next_observations, bind, load, store. simpl.
    rewrite lookup_app_r by lia. rewrite Nat.sub_diag. simpl.
    eexists _, _. split; [reflexivity|]. simpl.
    rewrite insert_app_r_alt by lia. rewrite Nat.sub_diag. simpl.
    rewrite lookup_app_r by lia. rewrite Nat.sub_diag. simpl. eauto.
  - eexists _, _. split; [reflexivity|]. simpl.
    rewrite lookup_app_r by lia. rewrite Nat.sub_diag. simpl. eauto.
Qed.

(** Without the key ['observations'] the lookup of line 173 raises, after the
    records were gathered. *)
Lemma get_samples_no_key w (idx : list Z) :
  wf w -> _buf (self w) <> None ->
  Forall (fun i => 0 <= i < _buffer_size (self w)) idx ->
  observations = None ->
  fst (ReplayBuffer._get_samples observations idx true w) = Raise BackendError.
Proof.
  intros (HC & HE & Hpos & Htab) Hb Hidx Hkey. unfold table_ok in Htab.
  destruct (_buf (self w)) as [b|] eqn:Hbuf; [clear Hb|congruence].
  destruct Htab as (rows & Hrows & Hlen & Hwidth).
  unfold ReplayBuffer._get_samples, bind, get_self.
  rewrite randint_ok by (unfold Py.len; lia). rewrite Hbuf, Hkey. simpl.
  destruct (gather_total rows (_n_envs (self w)) idx
              (draws 0 (_n_envs (self w)) (rng w) (rng_next w) (Z.to_nat (Py.len idx))))
    as (items & Hitems & _); auto.
  { rewrite Hlen. assumption. }
  { apply draws_range. lia. }
  { rewrite draws_length. unfold Py.len. lia. }
  unfold getitem_at, bind, load. simpl. rewrite Hrows, Hitems. reflexivity.
Qed.

Lemma sample_after_draw_no_key w batch_size clone idx n :
  wf w -> _buf (self w) <> None ->
  ReplayBuffer.batch_idxes batch_size true w
    = (Ok idx, mkWorld (self w) (heap w) (rng w) n) ->
  Forall (fun i => 0 <= i < _buffer_size (self w)) idx ->
  observations = None ->
  fst (ReplayBuffer.sample observations batch_size true clone w) = Raise BackendError.
Proof.
  intros Hwf Hb Hdraw Hidx Hkey. unfold ReplayBuffer.sample.
  rewrite (bind_ok _ _ _ _ _ Hdraw).
  pose proof (get_samples_no_key (mkWorld (self w) (heap w) (rng w) n) idx Hwf Hb Hidx Hkey)
    as Hget.
  unfold bind.
  destruct (ReplayBuffer._get_samples observations idx true _) as [[l|e] w2];
    simpl in Hget; [discriminate|]. injection Hget as ->. reflexivity.
Qed.

Lemma sample_after_draw w batch_size sno clone idx n :
  wf w -> _buf (self w) <> None ->
  ReplayBuffer.batch_idxes batch_size sno w
    = (Ok idx, mkWorld (self w) (heap w) (rng w) n) ->
  Forall (fun i => 0 <= i < _buffer_size (self w)) idx ->
  (sno = true -> observations <> None) ->
  succeeds (fst (ReplayBuffer.sample observations batch_size sno clone w)).
Proof.
  intros Hwf Hb Hdraw Hidx Hkey. unfold ReplayBuffer.sample.
  rewrite (bind_ok _ _ _ _ _ Hdraw).
  destruct (get_samples_returns (mkWorld (self w) (heap w) (rng w) n) idx sno)
    as (l & w2 & Hget & shape & items & nxt & Hl); auto.
  rewrite (bind_ok _ _ _ _ _ Hget).
  unfold unsqueeze_last, bind, load. rewrite Hl. simpl.
  destruct clone; [|eexists; reflexivity].
  unfold clone_td, bind, load. simpl.
  rewrite lookup_app_r by lia. rewrite Nat.sub_diag. simpl. eexists; reflexivity.
Qed.

(** The cases of [sample]. *)
Lemma sample_classify w batch_size sno clone :
  wf w ->
  let r := fst (ReplayBuffer.sample observations batch_size sno clone w) in
  (batch_size <= 0 /\ r = Raise ValueError_batch_size)
  \/ (0 < batch_size /\ _full (self w) = false /\ _pos (self w) = 0
      /\ r = Raise ValueError_no_sample)
  \/ (0 < batch_size /\ _full (self w) = false /\ _pos (self w) = 1 /\ sno = true
      /\ r = Raise RuntimeError_one_sample)
  \/ (0 < batch_size /\ _full (self w) = true /\ sno = true /\ _buffer_size (self w) = 1
      /\ r = Raise BackendError)
  \/ (0 < batch_size /\ (_full (self w) = true \/ 0 < _pos (self w))
      /\ ~ (_full (self w) = false /\ sno = true /\ _pos (self w) = 1)
      /\ ~ (_full (self w) = true /\ sno = true /\ _buffer_size (self w) = 1)
      /\ ((sno = true -> observations <> None) -> succeeds r)
      /\ (sno = true -> observations = None -> r = Raise BackendError)).
Proof.
  intros Hwf r. pose proof Hwf as (HC & HE & Hpos & Htab).
  destruct (Z_le_gt_dec batch_size 0) as [Hbs|Hbs].
  { left. split; [assumption|]. unfold r, ReplayBuffer.sample.
    now rewrite (bind_raise _ _ _ _ _ (batch_idxes_batch_size w batch_size sno Hbs)). }
  right. destruct (_full (self w)) eqn:Hf.
  - right. right.
    destruct (bool_decide (sno = true /\ _buffer_size (self w) = 1)) eqn:Hd.
    + apply bool_decide_eq_true in Hd as [-> Hc1]. left.
      repeat split; try lia. unfold r, ReplayBuffer.sample.
      now rewrite (bind_raise _ _ _ _ _
                     (batch_idxes_no_valid w batch_size ltac:(lia) Hf Hc1 ltac:(lia))).
    + apply bool_decide_eq_false in Hd. right.
      split; [lia|]. split; [auto|]. split; [intros (? & _); discriminate|].
      split; [intros (_ & ? & ?); auto|].
      destruct (batch_idxes_full w batch_size sno) as (idx & Hdraw & _ & Hin); auto; try lia.
      { intros ->. destruct (Z.eq_dec (_buffer_size (self w)) 1); [tauto | lia]. }
      assert (Hb : _buf (self w) <> None).
      { unfold table_ok in Htab. destruct (_buf (self w)); [discriminate|].
        destruct Htab as (_ & _ & ?). congruence. }
      assert (Hidx : Forall (fun i => 0 <= i < _buffer_size (self w)) idx).
      { eapply Forall_impl; [exact Hin|]. intros i Hi. simpl in Hi.
        apply valid_idxes_In in Hi; [tauto | assumption | assumption]. }
      split.
      * intros Hkey. eapply sample_after_draw; eauto.
      * intros -> Hkey. unfold r. eapply sample_after_draw_no_key; eauto.
  - destruct (Z.eq_dec (_pos (self w)) 0) as [Hp0|Hp0].
    { left. repeat split; try lia. unfold r, ReplayBuffer.sample.
      now rewrite (bind_raise _ _ _ _ _
                     (batch_idxes_no_sample w batch_size sno ltac:(lia) Hf Hp0)). }
    right.
    destruct (bool_decide (sno = true /\ _pos (self w) = 1)) eqn:Hd.
    + apply bool_decide_eq_true in Hd as [-> Hp1]. left.
      repeat split; try lia. unfold r, ReplayBuffer.sample.
      now rewrite (bind_raise _ _ _ _ _
                     (batch_idxes_one_sample w batch_size ltac:(lia) Hf Hp1)).
    + apply bool_decide_eq_false in Hd. right. right.
      split; [lia|]. split; [right; lia|]. split; [intros (_ & ? & ?); auto|].
      split; [intros (? & _); discriminate|].
      destruct (batch_idxes_not_full w batch_size sno) as (idx & Hdraw & _ & Hin);
        auto; try lia.
      { intros ->. destruct (Z.eq_dec (_pos (self w)) 1); [tauto | lia]. }
      assert (Hb : _buf (self w) <> None).
      { unfold table_ok in Htab. destruct (_buf (self w)); [discriminate|].
        destruct Htab as (_ & ? & _). congruence. }
      assert (Hidx : Forall (fun i => 0 <= i < _buffer_size (self w)) idx).
      { eapply Forall_impl; [exact Hin|]. intros i Hi. simpl in Hi.
        destruct sno; lia. }
      split.
      * intros Hkey. eapply sample_after_draw; eauto.
      * intros -> Hkey. unfold r. eapply sample_after_draw_no_key; eauto.
Qed.

End UniformOutcome.

(** ** The sequential sampler: valid starts and windows *)

Section SequentialIndices.
Context {A Obs : Type}.
Local Abbreviation M := (M (A:=A) (Obs:=Obs)).
Local Abbreviation world := (world A Obs).
Implicit Types (w : world) (s : attrs).

Lemma mod_not_cursor (c p x : Z) :
  0 < c -> 0 <= p < c -> (0 <= x < p \/ p < x < p + c) -> x mod c <> p.
Proof.
  intros Hc Hp Hx Heq. pose proof (Z.div_mod x c ltac:(lia)) as Hdm.
  rewrite Heq in Hdm. set (q := x / c) in *.
  assert (Hq : q = 0 \/ q <= -1 \/ 1 <= q) by lia.
  destruct Hq as [Hq | [Hq | Hq]].
  - rewrite Hq in Hdm. lia.
  - assert (c * q <= - c) by nia. lia.
  - assert (c <= c * q) by nia. lia.
Qed.

Lemma mod_cursor_wrap (c p : Z) : 0 < c -> 0 <= p < c -> (c + p) mod c = p.
Proof.
  intros Hc Hp. replace (c + p) with (p + 1 * c) by lia.
  rewrite Z.mod_add by lia. apply Z.mod_small. lia.
Qed.

(** On a full buffer a start is valid exactly when the window that starts
    there meets the cursor slot at its first step or not at all. *)
Lemma seq_valid_idxes_In s (sequence_length st : Z) :
  0 < _buffer_size s -> 0 <= _pos s < _buffer_size s ->
  0 <= sequence_length <= _buffer_size s ->
  In st (SequentialReplayBuffer.valid_idxes s sequence_length) <->
  0 <= st < _buffer_size s
  /\ forall k, 1 <= k < sequence_length -> (st + k) mod _buffer_size s <> _pos s.
Proof.
  intros HC Hpos Hsl. unfold SequentialReplayBuffer.valid_idxes.
  rewrite in_app_iff, !range_In. split.
  - intros Hin.
    assert (Hst : 0 <= st < _buffer_size s) by (cmp; lia).
    split; [assumption|]. intros k Hk. apply mod_not_cursor; try assumption.
    cmp; lia.
  - intros [Hst Hk].
    destruct (Z_lt_ge_dec st (_pos s - sequence_length + 1)) as [?|Hge]; [left; lia|].
    destruct (Z_lt_ge_dec st (_pos s)) as [Hlt|Hge'].
    { exfalso. apply (Hk (_pos s - st)); [lia|].
      replace (st + (_pos s - st)) with (_pos s) by lia. apply Z.mod_small. lia. }
    right. cmp; [lia|].
    destruct (Z_lt_ge_dec st (_buffer_size s + (_pos s - sequence_length + 1))) as [?|Hge2];
      [lia|].
    exfalso. apply (Hk (_buffer_size s + _pos s - st)); [lia|].
    replace (st + (_buffer_size s + _pos s - st)) with (_buffer_size s + _pos s) by lia.
    apply mod_cursor_wrap; assumption.
Qed.

Lemma seq_valid_idxes_len s (sequence_length : Z) :
  0 < _buffer_size s -> 0 <= _pos s < _buffer_size s ->
  1 <= sequence_length <= _buffer_size s ->
  Py.len (SequentialReplayBuffer.valid_idxes s sequence_length)
  = _buffer_size s - sequence_length + 1.
Proof.
  intros HC Hpos Hsl. unfold SequentialReplayBuffer.valid_idxes, Py.len.
  rewrite length_app, !range_length. cmp; lia.
Qed.

Lemma shape0_wf w : wf w -> _buf (self w) <> None ->
  shape0 (_buf (self w)) w = (Ok (_buffer_size (self w)), w).
Proof.
  intros (_ & _ & _ & Htab) Hb. unfold table_ok in Htab.
  destruct (_buf (self w)) as [l|]; [|congruence].
  destruct Htab as (rows & Hrows & Hlen & _).
  unfold shape0, bind, load. rewrite Hrows. simpl. unfold ret. now rewrite Hlen.
Qed.

Lemma wf_allocated w : wf w -> _full (self w) = true \/ _pos (self w) <> 0 ->
  _buf (self w) <> None.
Proof.
  intros (_ & _ & _ & Htab) H Hb. unfold table_ok in Htab. rewrite Hb in Htab.
  destruct Htab as (_ & ? & ?). destruct H; congruence.
Qed.

(** What [start_idxes] returns on a full buffer. *)
Lemma start_idxes_full_sound w batch_size sequence_length n_samples starts w' :
  wf w -> _full (self w) = true ->
  SequentialReplayBuffer.start_idxes batch_size sequence_length n_samples w = (Ok starts, w') ->
  sequence_length <= _buffer_size (self w)
  /\ self w' = self w
  /\ Forall (fun st => In st (SequentialReplayBuffer.valid_idxes (self w) sequence_length))
       starts.
Proof.
  intros Hwf Hf. unfold SequentialReplayBuffer.start_idxes, bind, get_self.
  destruct (batch_size * n_samples <=? 0); [discriminate|].
  rewrite Hf. simpl. rewrite (shape0_wf w Hwf (wf_allocated w Hwf (or_introl Hf))).
  destruct (batch_size * n_samples >? _buffer_size (self w)); [discriminate|].
  destruct (sequence_length >? _buffer_size (self w)) eqn:Hsl; [discriminate|].
  destruct (_ <? _); [discriminate|].
  destruct (randint _ _ _ w) as [[r|e] w1] eqn:Hr; [|discriminate].
  destruct (Py.index_select _ r) as [sel|] eqn:Hsel; simpl; [|discriminate].
  intros H. injection H as <- <-. split; [|split].
  - rewrite Z.gtb_ltb in Hsl. apply Z.ltb_ge in Hsl. exact Hsl.
  - unfold randint in Hr. destruct (_ || _); [discriminate|]. now injection Hr as _ <-.
  - apply List.Forall_forall. intros i Hi. eapply index_select_In; eassumption.
Qed.

(** The windows of [window_idxes] on a full buffer. *)
Lemma window_idxes_full_sound w batch_size sequence_length n_samples idxes w' :
  wf w -> _full (self w) = true ->
  SequentialReplayBuffer.window_idxes batch_size sequence_length n_samples w = (Ok idxes, w') ->
  0 <= sequence_length <= _buffer_size (self w)
  /\ Forall (fun win => exists st,
        In st (SequentialReplayBuffer.valid_idxes (self w) sequence_length)
        /\ win = map (fun k => (st + k) mod _buffer_size (self w)) (Py.range 0 sequence_length))
       idxes.
Proof.
  intros Hwf Hf. unfold SequentialReplayBuffer.window_idxes. unfold bind at 1.
  destruct (SequentialReplayBuffer.start_idxes _ _ _ w) as [[starts|e] w1] eqn:Hst;
    [|discriminate].
  apply start_idxes_full_sound in Hst as (Hsl & Hself & Hin); try assumption.
  unfold arange, bind, get_self.
  destruct (sequence_length <? 0) eqn:Hneg; [discriminate|]. simpl.
  intros H. injection H as <- _. rewrite Hself. split.
  - apply Z.ltb_ge in Hneg. lia.
  - apply List.Forall_forall. intros win Hwin. apply in_map_iff in Hwin as (st & <- & Hs).
    exists st. split; [|reflexivity].
    rewrite List.Forall_forall in Hin. auto.
Qed.

End SequentialIndices.

(** ** The sequential sampler: gathering the windows *)

Section SequentialGather.
Context {A Obs : Type}.
Local Abbreviation M := (M (A:=A) (Obs:=Obs)).
Local Abbreviation world := (world A Obs).
Implicit Types (w : world) (rows : list (list A)).

Lemma gather_lookup rows : forall (bi ei : list Z) (items : list A),
  gather rows bi ei = Some items ->
  forall (j : nat) (i e : Z), bi !! j = Some i -> ei !! j = Some e ->
  exists row x, Py.getitem rows i = Some row /\ Py.getitem row e = Some x
    /\ items !! j = Some x.
Proof.
  induction bi as [|i0 bi IH]; intros [|e0 ei] items H j i e Hi He; simpl in H;
    try discriminate.
  destruct (Py.getitem rows i0) as [row|] eqn:Hrow; [|discriminate].
  destruct (Py.getitem row e0) as [x|] eqn:Hx; [|discriminate].
  destruct (gather rows bi ei) as [r|] eqn:Hr; [|discriminate].
  injection H as <-. destruct j as [|j]; simpl in *.
  - injection Hi as <-. injection He as <-. eauto.
  - eapply IH; eauto.
Qed.

Lemma gather_length rows : forall (bi ei : list Z) (items : list A),
  gather rows bi ei = Some items -> length items = length bi.
Proof.
  induction bi as [|i0 bi IH]; intros [|e0 ei] items H; simpl in H; try discriminate.
  - now injection H as <-.
  - destruct (Py.getitem rows i0) as [row|]; [|discriminate].
    destruct (Py.getitem row e0) as [x|]; [|discriminate].
    destruct (gather rows bi ei) as [r|] eqn:Hr; [|discriminate].
    injection H as <-. simpl. f_equal. eapply IH; eassumption.
Qed.

Lemma concat_length_uniform {X} (ls : list (list X)) (n : nat) :
  Forall (fun l => length l = n) ls -> length (concat ls) = (length ls * n)%nat.
Proof.
  induction 1 as [|l ls Hl _ IH]; simpl; [reflexivity|]. rewrite length_app, IH, Hl. lia.
Qed.

Lemma concat_lookup {X} (n : nat) : forall (ls : list (list X)) (j k : nat) (l : list X) (x : X),
  Forall (fun l => length l = n) ls ->
  ls !! j = Some l -> l !! k = Some x -> concat ls !! (j * n + k)%nat = Some x.
Proof.
  induction ls as [|l0 ls IH]; intros j k l x Hall Hj Hk;
    [rewrite lookup_nil in Hj; discriminate|].
  inversion Hall as [|? ? Hl0 Hall']; subst. destruct j as [|j]; simpl in *.
  - injection Hj as ->. rewrite lookup_app_l by (eapply lookup_lt_Some; eassumption).
    assumption.
  - rewrite lookup_app_r by lia.
    replace (length l0 + j * length l0 + k - length l0)%nat with (j * length l0 + k)%nat by lia.
    eapply IH; eassumption.
Qed.

Lemma repeat_lookup {X} (x : X) : forall n k : nat, (k < n)%nat -> repeat x n !! k = Some x.
Proof.
  induction n as [|n IH]; intros k Hk; [lia|]. destruct k as [|k]; simpl; [reflexivity|].
  apply IH. lia.
Qed.

Lemma repeat_along_lookup (n : nat) : forall (es : list Z) (j k : nat) (e : Z),
  es !! j = Some e -> (k < n)%nat ->
  flat_map (fun e => repeat e n) es !! (j * n + k)%nat = Some e.
Proof.
  induction es as [|e0 es IH]; intros j k e Hj Hk;
    [rewrite lookup_nil in Hj; discriminate|].
  destruct j as [|j]; simpl in *.
  - injection Hj as ->. rewrite lookup_app_l by (rewrite repeat_length; lia).
    apply repeat_lookup; assumption.
  - rewrite lookup_app_r by (rewrite repeat_length; lia). rewrite repeat_length.
    replace (n + j * n + k - n)%nat with (j * n + k)%nat by lia. auto.
Qed.

Lemma repeat_along_length (n : nat) (es : list Z) :
  length (flat_map (fun e => repeat e n) es) = (length es * n)%nat.
Proof.
  induction es as [|e es IH]; simpl; [reflexivity|]. rewrite length_app, repeat_length, IH. lia.
Qed.

Lemma repeat_along_range (n : nat) (es : list Z) (P : Z -> Prop) :
  Forall P es -> Forall P (flat_map (fun e => repeat e n) es).
Proof.
  intros H. apply List.Forall_forall. intros x Hx. apply in_flat_map in Hx as (e & He & Hr).
  apply repeat_spec in Hr. subst x. rewrite List.Forall_forall in H. auto.
Qed.


End SequentialGather.

(** ** Deciding well-formedness, and the calls of the interface *)

Section Calls.
Context {A Obs : Type} (zero : A) (observations : option (A -> Obs)).
Local Abbreviation world := (world A Obs).
Implicit Types (w : world).

Lemma wfb_wf w : wfb w = true -> wf w.
Proof.
  unfold wfb. rewrite !andb_true_iff. intros ((((H1 & H2) & H3) & H4) & H5).
  apply Z.ltb_lt in H1, H2, H4. apply Z.leb_le in H3.
  unfold wf. repeat split; try assumption.
  unfold table_okb in H5. unfold table_ok. destruct (_buf (self w)) as [l|].
  - destruct (heap w !! l) as [[rows|? ? ?]|]; try discriminate.
    apply andb_true_iff in H5 as [Hlen Hrows].
    exists rows. repeat split; [apply Z.eqb_eq; assumption|].
    apply List.Forall_forall. intros r Hr. rewrite forallb_forall in Hrows.
    apply Z.eqb_eq. auto.
  - rewrite !andb_true_iff in H5. destruct H5 as ((Hm & Hp) & Hf).
    repeat split; [assumption | now apply Z.eqb_eq | now destruct (_full (self w))].
Qed.

Lemma after_wf w (c : call A) : wf w -> wf (after zero observations w c).
Proof.
  intros Hwf. destruct c as [data | b n c | b n c l k]; simpl.
  - now apply add_wf.
  - eapply unchanged_wf; [|exact Hwf]. eapply frame_run. apply frame_sample.
  - eapply unchanged_wf; [|exact Hwf]. eapply frame_run. apply frame_seq_sample.
Qed.

Lemma after_full w (c : call A) :
  wf w -> _full (self w) = true -> _full (self (after zero observations w c)) = true.
Proof.
  intros Hwf Hf. destruct c as [data | b n c | b n c l k]; simpl.
  - now apply add_full_monotone.
  - pose proof (frame_run w _ _ (frame_sample observations w b n c)) as (Hs & _).
    rewrite Hs. exact Hf.
  - pose proof (frame_run w _ _ (frame_seq_sample (A:=A) (Obs:=Obs) w b n c l k)) as (Hs & _).
    rewrite Hs. exact Hf.
Qed.

Lemma after_all_wf (cs : list (call A)) : forall w,
  wf w -> wf (fold_left (after zero observations) cs w).
Proof. induction cs as [|c cs IH]; intros w Hwf; simpl; [assumption|]. apply IH, after_wf, Hwf. Qed.

Lemma after_all_full (cs : list (call A)) : forall w,
  wf w -> _full (self w) = true -> _full (self (fold_left (after zero observations) cs w)) = true.
Proof.
  induction cs as [|c cs IH]; intros w Hwf Hf; simpl; [assumption|].
  apply IH; [apply after_wf, Hwf | apply after_full; assumption].
Qed.

(** The constructor gives a well-formed world. *)
Lemma init_wf w buffer_size n_envs memmap :
  fst (ReplayBuffer.__init__ zero buffer_size n_envs memmap w) = Ok tt ->
  wf (snd (ReplayBuffer.__init__ zero buffer_size n_envs memmap w)).
Proof.
  unfold ReplayBuffer.__init__. destruct (Z.leb_spec buffer_size 0); [discriminate|].
  destruct (Z.leb_spec n_envs 0); [discriminate|]. intros _.
  destruct (empty_table_shape zero buffer_size n_envs) as [Hlen Hrows]; [lia | lia |].
  destruct memmap; unfold bind, ret, alloc, set_self, wf, table_ok; simpl.
  - repeat split; lia.
  - repeat split; try lia. eexists. rewrite lookup_app_r by lia. rewrite Nat.sub_diag.
    simpl. repeat split; [exact Hlen | exact Hrows].
Qed.

End Calls.

(** ** [add] of a batch longer than the buffer *)

Section AddOversized.
Context {A Obs : Type} (zero : A).
Local Abbreviation world := (world A Obs).
Implicit Types (w : world) (rows src data : list (list A)).

Lemma range_cons (a b : Z) : a < b -> Py.range a b = a :: Py.range (a + 1) b.
Proof.
  intros H. unfold Py.range.
  replace (Z.to_nat (b - a)) with (S (Z.to_nat (b - (a + 1)))) by lia.
  simpl. f_equal; [lia|]. rewrite <- seq_shift, map_map.
  apply map_ext. intros i. lia.
Qed.

Lemma slice_from_length {X} (start : Z) (xs : list X) :
  start < 0 -> Py.len (Py.slice_from start xs) = Z.min (Py.len xs) (- start).
Proof.
  intros H. unfold Py.slice_from, Py.len. decide_cmp. rewrite length_drop. unfold Py.len. lia.
Qed.

Lemma slice_from_drop {X} (start : Z) (xs : list X) :
  start < 0 -> - start <= Py.len xs ->
  Py.slice_from start xs = drop (Z.to_nat (Py.len xs + start)) xs.
Proof.
  intros H Hle. unfold Py.slice_from. decide_cmp. f_equal. lia.
Qed.

(** Rows written at consecutive slots. *)
Lemma put_rows_range src : forall rows (a : nat),
  (a + length src <= length rows)%nat ->
  put_rows rows (Py.range (Z.of_nat a) (Z.of_nat (a + length src))) src
  = Some (take a rows ++ src ++ drop (a + length src) rows).
Proof.
  induction src as [|r src IH]; intros rows a Hle; simpl in *.
  - rewrite Nat.add_0_r, range_empty by lia. simpl. now rewrite take_drop.
  - rewrite range_cons by lia. simpl.
    rewrite norm_index_small by (unfold Py.len; lia). rewrite Nat2Z.id.
    replace (Z.of_nat a + 1) with (Z.of_nat (S a)) by lia.
    replace (a + S (length src))%nat with (S a + length src)%nat by lia.
    rewrite IH by (rewrite length_insert; lia).
    f_equal. rewrite drop_insert_lt by lia.
    rewrite (take_S_r _ a r) by (apply list_lookup_insert_eq; lia).
    rewrite take_insert_ge by lia. now rewrite <- app_assoc.
Qed.

Lemma put_rows_app idx1 : forall rows src1 idx2 src2,
  length idx1 = length src1 ->
  put_rows rows (idx1 ++ idx2) (src1 ++ src2)
  = match put_rows rows idx1 src1 with
    | Some rows' => put_rows rows' idx2 src2
    | None => None
    end.
Proof.
  induction idx1 as [|i idx1 IH]; intros rows [|r src1] idx2 src2 Hlen; simpl in *;
    try discriminate; [reflexivity|].
  destruct (Py.norm_index (Py.len rows) i); [|reflexivity]. apply IH. lia.
Qed.

(** On a full buffer a batch longer than the buffer is never stored: the
    destination indices are fewer than the rows to store. *)
Lemma add_oversized_full_raises w data :
  wf w -> _full (self w) = true -> _buffer_size (self w) < Py.len data ->
  ReplayBuffer.add zero data w = (Raise BackendError, w).
Proof.
  intros Hwf Hf HL. pose proof Hwf as (HC & HE & Hpos & Htab).
  pose proof (wf_allocated w Hwf (or_introl Hf)) as Hb. unfold table_ok in Htab.
  destruct (_buf (self w)) as [l|] eqn:Hbuf; [|congruence].
  destruct Htab as (rows & Hl & Hlen & Hwidth).
  rewrite (add_allocated zero w data l rows Hbuf Hl).
  destruct (setitem_rows _ _ _ _) as [rows'|] eqn:Hset; [exfalso|reflexivity].
  apply setitem_rows_shape in Hset as (_ & _ & Hcount); [|assumption].
  assert (Hidx : Py.len (ReplayBuffer.add_idxes (self w) (Py.len data)) < _buffer_size (self w)).
  { unfold ReplayBuffer.add_idxes. rewrite Hf, andb_false_r, orb_false_r.
    pose proof (Z.mod_pos_bound (_pos (self w) + Py.len data) (_buffer_size (self w)) HC).
    destruct (_ <? _) eqn:Hlt; unfold Py.len in *.
    - apply Z.ltb_lt in Hlt. rewrite length_app, !range_length. lia.
    - apply Z.ltb_ge in Hlt. rewrite range_length. lia. }
  assert (Hsrc : _buffer_size (self w) <= Py.len (ReplayBuffer.add_data_to_store (self w) data)).
  { unfold ReplayBuffer.add_data_to_store.
    pose proof (Z.mod_pos_bound (_pos (self w) + Py.len data) (_buffer_size (self w)) HC).
    decide_cmp. rewrite slice_from_length by lia. lia. }
  unfold Py.len in *. lia.
Qed.

(** On a buffer that holds nothing yet a batch longer than the buffer is
    truncated: read from the cursor onwards, the table holds the last
    [buffer_size] rows of the batch, oldest first. *)
Lemma add_oversized_fresh w data rows :
  wf w -> _full (self w) = false -> _pos (self w) = 0 -> table_rows w = Some rows ->
  _buffer_size (self w) < Py.len data ->
  Forall (fun r => Py.len r = _n_envs (self w)) data ->
  exists w' rows',
    ReplayBuffer.add zero data w = (Ok tt, w')
    /\ table_rows w' = Some rows'
    /\ _pos (self w') = Py.len data mod _buffer_size (self w)
    /\ _full (self w') = true
    /\ drop (Z.to_nat (_pos (self w'))) rows' ++ take (Z.to_nat (_pos (self w'))) rows'
       = drop (Z.to_nat (Py.len data - _buffer_size (self w))) data.
Proof.
  intros Hwf Hf Hp Hrows HL Hdata. pose proof Hwf as (HC & HE & Hpos & Htab).
  unfold table_rows in Hrows. unfold table_ok in Htab.
  destruct (_buf (self w)) as [l|] eqn:Hbuf; [|discriminate].
  destruct Htab as (rows0 & Hl & Hlen & Hwidth). rewrite Hl in Hrows. injection Hrows as ->.
  set (C := _buffer_size (self w)) in *. set (L := Py.len data) in *.
  set (np := L mod C).
  assert (Hnp : 0 <= np < C) by (apply Z.mod_pos_bound; lia).
  assert (HLnp : C + np <= L).
  { pose proof (Z.div_mod L C ltac:(lia)) as Hdm. fold np in Hdm.
    assert (1 <= L / C) by (apply Z.div_le_lower_bound; lia). nia. }
  set (src := drop (Z.to_nat (L - C - np)) data).
  assert (Hsrc : ReplayBuffer.add_data_to_store (self w) data = src).
  { unfold ReplayBuffer.add_data_to_store. rewrite Hp, Z.add_0_l. fold L C np.
    decide_cmp. rewrite slice_from_drop by (fold L; lia). unfold src. f_equal. fold L. lia. }
  assert (Hidx : ReplayBuffer.add_idxes (self w) L = Py.range 0 C ++ Py.range 0 np).
  { unfold ReplayBuffer.add_idxes. rewrite Hp, Hf, Z.add_0_l. fold C np. decide_cmp.
    reflexivity. }
  assert (Hsl : length src = (Z.to_nat C + Z.to_nat np)%nat).
  { unfold src. rewrite length_drop. unfold L, Py.len in *. lia. }
  set (a := take (Z.to_nat C) src). set (b := drop (Z.to_nat C) src).
  assert (Hab : src = a ++ b) by (symmetry; apply take_drop).
  assert (Hla : length a = Z.to_nat C) by (unfold a; rewrite length_take; lia).
  assert (Hlb : length b = Z.to_nat np) by (unfold b; rewrite length_drop; lia).
  assert (Hput : put_rows rows (Py.range 0 C ++ Py.range 0 np) src = Some (b ++ drop (Z.to_nat np) a)).
  { rewrite Hab, put_rows_app by (rewrite range_length; lia).
    replace (Py.range 0 C) with (Py.range (Z.of_nat 0) (Z.of_nat (0 + length a)))
      by (f_equal; lia).
    rewrite put_rows_range by (unfold Py.len in Hlen; simpl; lia).
    simpl. rewrite drop_ge by (unfold Py.len in Hlen; lia). rewrite app_nil_r.
    replace (Py.range 0 np) with (Py.range (Z.of_nat 0) (Z.of_nat (0 + length b)))
      by (f_equal; lia).
    rewrite put_rows_range by (simpl; lia). simpl. now rewrite Hlb. }
  assert (Hwsrc : forallb (fun r => Py.len r =? _n_envs (self w)) src = true).
  { apply forallb_forall. intros r Hr. apply Z.eqb_eq.
    pose proof (Forall_drop _ (Z.to_nat (L - C - np)) _ Hdata) as Hd. fold src in Hd.
    rewrite List.Forall_forall in Hd. auto. }
  rewrite (add_allocated zero w data l rows Hbuf Hl). fold L. rewrite Hsrc, Hidx.
  rewrite setitem_rows_nonempty, Hput; [| |exact Hwsrc].
  2:{ intros Heq. apply (f_equal (@length Z)) in Heq.
      rewrite length_app, !range_length in Heq. simpl in Heq. lia. }
  eexists _, _. split; [reflexivity|]. unfold table_rows, added. simpl.
  rewrite list_lookup_insert_eq by (eapply lookup_lt_Some; eassumption).
  rewrite Hp, Z.add_0_l. fold C np. split; [reflexivity|]. split; [reflexivity|].
  split; [decide_cmp; reflexivity|].
  rewrite drop_app_length' by lia. rewrite take_app_length' by lia.
  replace (Z.to_nat (L - C)) with (Z.to_nat (L - C - np) + Z.to_nat np)%nat by lia.
  rewrite <- drop_drop. fold src. rewrite Hab at 1.
  rewrite drop_app_le by lia. reflexivity.
Qed.

End AddOversized.

(** ** The errors of the sequential sampler *)

Section SequentialErrors.
Context {A Obs : Type}.
Local Abbreviation M := (M (A:=A) (Obs:=Obs)).
Local Abbreviation world := (world A Obs).
Implicit Types (w : world) (S : exn -> Prop).

Lemma raises_bind {X Y} (m : M X) (f : X -> M Y) S :
  raises_only m S -> (forall x, raises_only (f x) S) -> raises_only (bind m f) S.
Proof.
  intros Hm Hf w. apply wp_bind. eapply wp_mono; [apply Hm | |]; simpl; auto.
  intros x w' _. apply Hf.
Qed.

Lemma raises_ret {X} (x : X) S : raises_only (ret x : M X) S.
Proof. intros w. exact I. Qed.

Lemma raises_raise {X} e S : S e -> raises_only (raise e : M X) S.
Proof. intros He w. exact He. Qed.

Lemma raises_get_self S : raises_only (get_self : M attrs) S.
Proof. intros w. exact I. Qed.

Lemma raises_of_option {X} (o : option X) e S : S e -> raises_only (of_option o e : M X) S.
Proof. intros He. destruct o; [apply raises_ret | now apply raises_raise]. Qed.

Lemma raises_randint low high size S :
  S BackendError -> raises_only (randint low high size : M (list Z)) S.
Proof. intros He w. apply wp_randint; auto. Qed.

Lemma raises_load l S : S BackendError -> raises_only (load l : M (tensordict A Obs)) S.
Proof. intros He w. apply wp_load; auto. Qed.

Lemma raises_alloc td S : raises_only (alloc td : M loc) S.
Proof. intros w. exact I. Qed.

Lemma raises_getitem_at l bi ei S :
  S BackendError -> raises_only (getitem_at l bi ei : M (list A)) S.
Proof.
  intros He. unfold getitem_at. apply raises_bind; [now apply raises_load|].
  intros [rows|? ? ?]; [now apply raises_of_option | now apply raises_raise].
Qed.

Lemma raises_shape0 b S : S BackendError -> raises_only (shape0 b : M Z) S.
Proof.
  intros He. unfold shape0. destruct b as [l|]; [|now apply raises_raise].
  apply raises_bind; [now apply raises_load|].
  intros [rows|? ? ?]; [apply raises_ret | now apply raises_of_option].
Qed.

Lemma raises_view l shape S : S BackendError -> raises_only (view l shape : M loc) S.
Proof.
  intros He. unfold view. apply raises_bind; [now apply raises_load|].
  intros [rows|? ? ?]; [now apply raises_raise|].
  destruct (_ && _); [apply raises_alloc | now apply raises_raise].
Qed.

Lemma raises_permute_0_2_1 l S : S BackendError -> raises_only (permute_0_2_1 l : M loc) S.
Proof.
  intros He. unfold permute_0_2_1. apply raises_bind; [now apply raises_load|].
  intros [rows|[|a [|b [|c [|d shape]]]] ? ?]; try now apply raises_raise. apply raises_alloc.
Qed.

Lemma raises_clone_td l S : S BackendError -> raises_only (clone_td l : M loc) S.
Proof.
  intros He. unfold clone_td. apply raises_bind; [now apply raises_load|].
  intros td. apply raises_alloc.
Qed.

Lemma raises_arange n S : S BackendError -> raises_only (arange n : M (list Z)) S.
Proof.
  intros He. unfold arange. destruct (n <? 0); [now apply raises_raise | apply raises_ret].
Qed.

Lemma raises_seq_get_samples idxes sno S :
  S BackendError -> raises_only (SequentialReplayBuffer._get_samples idxes sno : M loc) S.
Proof.
  intros He. unfold SequentialReplayBuffer._get_samples, SequentialReplayBuffer.env_idxes.
  apply raises_bind; [apply raises_get_self|]. intros s.
  apply raises_bind.
  { apply raises_bind; [apply raises_get_self|]. intros s'.
    apply raises_bind; [now apply raises_randint|]. intros envs. apply raises_ret. }
  intros envs. destruct (_buf s) as [b|]; [|now apply raises_raise].
  apply raises_bind; [now apply raises_getitem_at|]. intros items.
  apply raises_bind; [apply raises_alloc|]. intros smp. now apply raises_view.
Qed.

(** The exceptions of the sequential [sample]: the five [raise] of the
    source, each under its condition, and those of the backend. *)
Lemma seq_sample_raises w batch_size sno clone sequence_length n_samples S :
  S BackendError ->
  (batch_size * n_samples <= 0 -> S ValueError_batch_size) ->
  (_full (self w) = false -> S ValueError_no_sample) ->
  S ValueError_larger_than_buffer ->
  S ValueError_too_long_sequence ->
  (_full (self w) = true -> S ValueError_larger_than_sampleable) ->
  wp (SequentialReplayBuffer.sample (A:=A) (Obs:=Obs) batch_size sno clone sequence_length
        n_samples)
    (fun _ _ => True) (fun e _ => S e) w.
Proof.
  intros HB Hbs Hns Hlb Htl Hls.
  unfold SequentialReplayBuffer.sample. apply wp_bind.
  unfold SequentialReplayBuffer.window_idxes. apply wp_bind.
  unfold SequentialReplayBuffer.start_idxes. apply wp_bind. apply wp_get_self.
  assert (Hrest : forall start : list Z, forall w1,
            wp (bind (arange sequence_length) (fun chunk_length =>
                  bind get_self (fun s =>
                    ret (map (fun st => map (fun c => (st + c) mod _buffer_size s)
                                          chunk_length) start))))
              (fun idxes w2 =>
                 wp (bind (SequentialReplayBuffer._get_samples idxes false) (fun smp =>
                       bind (view smp [n_samples; batch_size; sequence_length]) (fun r =>
                         bind (permute_0_2_1 r) (fun p =>
                           if clone then clone_td p else ret p))))
                   (fun _ _ => True) (fun e _ => S e) w2)
              (fun e _ => S e) w1).
  { intros start w1. apply wp_bind.
    eapply wp_mono; [apply (raises_arange sequence_length S HB) | | auto].
    intros chunk w2 _. apply wp_bind, wp_get_self, wp_ret.
    apply raises_bind; [now apply raises_seq_get_samples|]. intros smp.
    apply raises_bind; [now apply raises_view|]. intros r.
    apply raises_bind; [now apply raises_permute_0_2_1|]. intros p.
    destruct clone; [now apply raises_clone_td | apply raises_ret]. }
  destruct (Z.leb_spec (batch_size * n_samples) 0); [apply wp_raise; auto|].
  destruct (_full (self w)) eqn:Hf; simpl.
  - apply wp_bind. eapply wp_mono; [apply (raises_shape0 (_buf (self w)) S HB) | | auto].
    intros size0 w1 _. simpl.
    destruct (batch_size * n_samples >? size0); [apply wp_raise; auto|].
    destruct (sequence_length >? size0); [apply wp_raise; auto|].
    destruct (_ <? _); [apply wp_raise; auto|].
    apply wp_bind. eapply wp_mono; [apply (raises_randint _ _ _ S HB) | | auto].
    intros r w2 _. simpl.
    eapply wp_mono; [apply (raises_of_option _ _ S HB) | | auto].
    intros start w3 _. apply Hrest.
  - destruct (_pos (self w) =? 0); [apply wp_raise; auto|].
    apply wp_bind. eapply wp_mono; [apply (raises_shape0 (_buf (self w)) S HB) | | auto].
    intros size0 w1 _. simpl.
    destruct (batch_size * n_samples >? size0); [apply wp_raise; auto|].
    destruct (_pos (self w) - sequence_length + 1 <? 1); [apply wp_raise; auto|].
    eapply wp_mono; [apply (raises_randint _ _ _ S HB) | | auto].
    intros start w2 _. apply Hrest.
Qed.

Lemma wp_fst {X} (m : M X) Q E w e :
  wp m Q (fun e' _ => E e') w -> fst (m w) = Raise e -> E e.
Proof. unfold wp. destruct (m w) as [[x|e'] w']; simpl; intros H Heq; congruence. Qed.

(** On a buffer that is not full the sequential [sample] never fails for the
    number of valid starts. *)
Lemma seq_sample_not_full_never_insufficient w batch_size sno clone sequence_length
  n_samples :
  _full (self w) = false ->
  ~ fails_with (fst (SequentialReplayBuffer.sample (A:=A) (Obs:=Obs) batch_size sno clone
                       sequence_length n_samples w)) InsufficientDataError.
Proof.
  intros Hf (e & He & Hk).
  refine (wp_fst _ _ (fun e => kind_of e <> InsufficientDataError) w e _ He Hk).
  apply seq_sample_raises; try discriminate. congruence.
Qed.

(** [start_idxes] once the batch is positive and a record was written. *)
Lemma start_idxes_checked w batch_size sequence_length n_samples :
  wf w -> 0 < batch_size * n_samples -> _full (self w) = true \/ _pos (self w) <> 0 ->
  SequentialReplayBuffer.start_idxes (A:=A) (Obs:=Obs) batch_size sequence_length n_samples w
  = if batch_size * n_samples >? _buffer_size (self w)
    then (Raise ValueError_larger_than_buffer, w)
    else if negb (_full (self w)) && (_pos (self w) - sequence_length + 1 <? 1)
    then (Raise ValueError_too_long_sequence, w)
    else if _full (self w) && (sequence_length >? _buffer_size (self w))
    then (Raise ValueError_too_long_sequence, w)
    else if _full (self w) then
      if Py.len (SequentialReplayBuffer.valid_idxes (self w) sequence_length)
         <? batch_size * n_samples
      then (Raise ValueError_larger_than_sampleable, w)
      else bind (randint 0 (Py.len (SequentialReplayBuffer.valid_idxes (self w) sequence_length))
                   (batch_size * n_samples))
             (fun r => of_option
                         (Py.index_select
                            (SequentialReplayBuffer.valid_idxes (self w) sequence_length) r)
                         BackendError) w
    else randint 0 (_pos (self w) - sequence_length + 1) (batch_size * n_samples) w.
Proof.
  intros Hwf Hn Hrec.
  pose proof (shape0_wf w Hwf (wf_allocated w Hwf Hrec)) as Hshape.
  unfold SequentialReplayBuffer.start_idxes. unfold bind at 1. unfold get_self.
  replace (batch_size * n_samples <=? 0) with false by (symmetry; apply Z.leb_gt; lia).
  replace (negb (_full (self w)) && (_pos (self w) =? 0)) with false.
  2:{ symmetry. destruct Hrec as [-> | Hp]; [reflexivity|].
      apply andb_false_iff. right. now apply Z.eqb_neq. }
  unfold bind at 1. rewrite Hshape.
  destruct (_ >? _); [reflexivity|]. destruct (negb _ && _); [reflexivity|].
  destruct (_full (self w) && _); [reflexivity|]. destruct (_full (self w)); [|reflexivity].
  destruct (_ <? _); reflexivity.
Qed.

(** The checks of the sequential [sample] that raise as documented. *)
Lemma seq_sample_errors w batch_size sno clone sequence_length n_samples :
  wf w ->
  let r := fst (SequentialReplayBuffer.sample (A:=A) (Obs:=Obs) batch_size sno clone
                  sequence_length n_samples w) in
  (fails_with r InvalidArgument <-> batch_size * n_samples <= 0)
  /\ (0 < batch_size * n_samples -> _full (self w) = true \/ _pos (self w) <> 0 ->
      (_buffer_size (self w) < batch_size * n_samples
       \/ _buffer_size (self w) < sequence_length
       \/ (_full (self w) = false /\ _pos (self w) - sequence_length + 1 < 1)) ->
      fails_with r CapacityError)
  /\ (0 < batch_size * n_samples <= _buffer_size (self w) -> _full (self w) = true ->
      sequence_length <= _buffer_size (self w) ->
      Py.len (SequentialReplayBuffer.valid_idxes (self w) sequence_length)
        < batch_size * n_samples ->
      fails_with r InsufficientDataError).
Proof.
  intros Hwf r. pose proof Hwf as (HC & HE & Hpos & Htab).
  assert (Hstart : forall e,
            fst (SequentialReplayBuffer.start_idxes (A:=A) (Obs:=Obs) batch_size sequence_length
                   n_samples w) = Raise e -> r = Raise e).
  { intros e He. unfold r, SequentialReplayBuffer.sample, SequentialReplayBuffer.window_idxes.
    destruct (SequentialReplayBuffer.start_idxes _ _ _ w) as [o w1] eqn:Hs. simpl in He.
    subst o. erewrite bind_raise; [reflexivity|]. erewrite bind_raise; [reflexivity|].
    exact Hs. }
  split; [|split].
  - split.
    + intros (e & He & Hk).
      refine (wp_fst _ _ (fun e => kind_of e = InvalidArgument -> batch_size * n_samples <= 0)
                w e _ He Hk).
      apply seq_sample_raises; try discriminate. auto.
    + intros Hn. exists ValueError_batch_size. split; [|reflexivity]. apply Hstart.
      unfold SequentialReplayBuffer.start_idxes, bind, get_self. decide_cmp. reflexivity.
  - intros Hn Hrec Hcap.
    assert (Hkind : forall e, e = ValueError_larger_than_buffer
                              \/ e = ValueError_too_long_sequence ->
                    r = Raise e -> fails_with r CapacityError).
    { intros e [-> | ->] Hr; eexists; split; try exact Hr; reflexivity. }
    rewrite (start_idxes_checked w _ _ _ Hwf Hn Hrec) in Hstart.
    destruct (Z.ltb_spec (_buffer_size (self w)) (batch_size * n_samples)) as [Hbig|Hsmall];
      rewrite Z.gtb_ltb in Hstart.
    + rewrite (proj2 (Z.ltb_lt _ _) Hbig) in Hstart. eapply Hkind; [left; reflexivity|].
      now apply Hstart.
    + rewrite (proj2 (Z.ltb_ge _ _) Hsmall) in Hstart.
      destruct (_full (self w)) eqn:Hf; simpl in Hstart.
      * assert (Hlong : _buffer_size (self w) < sequence_length).
        { destruct Hcap as [? | [? | (? & ?)]]; [lia | assumption | discriminate]. }
        rewrite Z.gtb_ltb, (proj2 (Z.ltb_lt _ _) Hlong) in Hstart.
        eapply Hkind; [right; reflexivity|]. now apply Hstart.
      * assert (Hlong : _pos (self w) - sequence_length + 1 < 1).
        { destruct Hcap as [? | [? | (? & ?)]]; lia. }
        rewrite (proj2 (Z.ltb_lt _ _) Hlong) in Hstart.
        eapply Hkind; [right; reflexivity|]. now apply Hstart.
  - intros Hn Hf Hsl Hfew.
    rewrite (start_idxes_checked w _ _ _ Hwf (proj1 Hn) (or_introl Hf)) in Hstart.
    rewrite Hf in Hstart. simpl in Hstart.
    rewrite !Z.gtb_ltb in Hstart.
    rewrite (proj2 (Z.ltb_ge _ _) (proj2 Hn)), (proj2 (Z.ltb_ge _ _) Hsl),
      (proj2 (Z.ltb_lt _ _) Hfew) in Hstart.
    exists ValueError_larger_than_sampleable. split; [|reflexivity]. now apply Hstart.
Qed.

End SequentialErrors.

(** * The properties of the buffers *)

(** ** [add] *)

Section AddProperties.
Context {A Obs : Type} (zero : A) (observations : option (A -> Obs)).
Local Abbreviation world := (world A Obs).
Implicit Types (w : world) (data : list (list A)).

(** X13.  A call of [add] with a batch of [L] rows that returns leaves the
    cursor at [(pos + L) mod capacity], and afterwards the buffer is full
    exactly when it was full before or [pos + L >= capacity].  After every
    call, returning or raising, and after every sequence of calls of the
    interface, the cursor is in [[0, capacity)] and a buffer that was full is
    still full. *)
Theorem add_advances_cursor w data :
  wf w ->
  (fst (ReplayBuffer.add zero data w) = Ok tt ->
   _pos (self (snd (ReplayBuffer.add zero data w)))
   = (_pos (self w) + Py.len data) mod _buffer_size (self w)
   /\ (_full (self (snd (ReplayBuffer.add zero data w))) = true <->
       _full (self w) = true \/ _buffer_size (self w) <= _pos (self w) + Py.len data))
  /\ 0 <= _pos (self (snd (ReplayBuffer.add zero data w)))
          < _buffer_size (self (snd (ReplayBuffer.add zero data w)))
  /\ (_full (self w) = true -> _full (self (snd (ReplayBuffer.add zero data w))) = true)
  /\ forall cs : list (call A),
       0 <= _pos (self (fold_left (after zero observations) cs w))
         < _buffer_size (self (fold_left (after zero observations) cs w))
       /\ (_full (self w) = true ->
           _full (self (fold_left (after zero observations) cs w)) = true).
Proof.
  intros Hwf. split; [|split; [|split]].
  - intros Hok.
    destruct (ReplayBuffer.add zero data w) as [r w'] eqn:Hadd. simpl in Hok. subst r.
    destruct (add_attrs zero w data w' Hwf Hadd) as (_ & _ & Hp & Hf). simpl.
    split; [exact Hp|]. rewrite Hf, orb_true_iff, Z.leb_le. reflexivity.
  - apply (add_wf zero w data Hwf).
  - apply add_full_monotone. exact Hwf.
  - intros cs. split.
    + apply (after_all_wf zero observations cs w Hwf).
    + apply after_all_full. exact Hwf.
Qed.

(** [add] of a batch of no rows: the destination range is empty, the index
    tensor made of it is a float32 tensor, and the write raises.  The cursor,
    the full flag and the rows of the table are as before. *)
Lemma add_empty_raises w :
  wf w ->
  fst (ReplayBuffer.add zero [] w) = Raise BackendError
  /\ _pos (self (snd (ReplayBuffer.add zero [] w))) = _pos (self w)
  /\ _full (self (snd (ReplayBuffer.add zero [] w))) = _full (self w)
  /\ (forall l td, heap w !! l = Some td -> heap (snd (ReplayBuffer.add zero [] w)) !! l = Some td)
  /\ (forall rows, table_rows w = Some rows ->
      table_rows (snd (ReplayBuffer.add zero [] w)) = Some rows).
Proof.
  intros (HC & HE & Hpos & Htab). unfold table_ok in Htab.
  assert (Hidx : ReplayBuffer.add_idxes (self w) (Py.len (@nil (list A))) = []).
  { unfold ReplayBuffer.add_idxes, Py.len. simpl. rewrite Z.add_0_r, Z.mod_small by lia.
    decide_cmp. apply range_empty. lia. }
  destruct (_buf (self w)) as [l|] eqn:Hb.
  - destruct Htab as (rows & Hl & _).
    rewrite (add_allocated zero w [] l rows Hb Hl), Hidx. simpl.
    repeat split; auto.
  - destruct Htab as (Hm & _).
    rewrite (add_unallocated zero w [] Hb Hm), Hidx. simpl.
    repeat split.
    + intros l td Hl. rewrite lookup_app_l by (eapply lookup_lt_Some; eassumption). exact Hl.
    + intros rows Hrows. unfold table_rows in Hrows. rewrite Hb in Hrows. discriminate.
Qed.

End AddProperties.

(** X13, on the first [add] of seven rows to a new buffer of capacity 5. *)
Lemma add_advances_cursor_witness :
  _pos (self (snd (ReplayBuffer.add 0 (Examples.numbered 0 7) Examples.fresh5))) = (0 + 7) mod 5
  /\ _full (self (snd (ReplayBuffer.add 0 (Examples.numbered 0 7) Examples.fresh5))) = true.
Proof.
  destruct (add_advances_cursor 0 (Some (@id Z)) Examples.fresh5 (Examples.numbered 0 7)) as (Hok & _).
  { apply wfb_wf. vm_compute. reflexivity. }
  destruct Hok as (Hp & Hf). { vm_compute. reflexivity. }
  split; [exact Hp|]. apply Hf. right. vm_compute. discriminate.
Defined.

(** C5.  The cursor is not advanced by every call of [add].  On the full
    buffer of capacity 5 with the cursor at slot 2, [add] of seven rows
    raises in the table write and the cursor stays at 2, where
    [(pos + L) mod capacity] is 4.  On the buffer of capacity 5 that holds
    three records, [add] of seven rows raises too: the cursor stays at 3 and
    the buffer stays not full, although [pos + L >= capacity]. *)
Theorem add_raising_leaves_cursor :
  _pos (self Examples.full5) = 2
  /\ (_pos (self Examples.full5) + Py.len (Examples.numbered 10 7)) mod 5 = 4
  /\ fst (ReplayBuffer.add 0 (Examples.numbered 10 7) Examples.full5) = Raise BackendError
  /\ _pos (self (snd (ReplayBuffer.add 0 (Examples.numbered 10 7) Examples.full5))) = 2
  /\ _pos (self Examples.part5) = 3
  /\ _full (self Examples.part5) = false
  /\ _buffer_size (self Examples.part5)
     <= _pos (self Examples.part5) + Py.len (Examples.numbered 10 7)
  /\ (_pos (self Examples.part5) + Py.len (Examples.numbered 10 7)) mod 5 = 0
  /\ ReplayBuffer.add_idxes (self Examples.part5) 7 = [3; 4]
  /\ Py.len (ReplayBuffer.add_data_to_store (self Examples.part5) (Examples.numbered 10 7)) = 5
  /\ fst (ReplayBuffer.add 0 (Examples.numbered 10 7) Examples.part5) = Raise BackendError
  /\ _pos (self (snd (ReplayBuffer.add 0 (Examples.numbered 10 7) Examples.part5))) = 3
  /\ _full (self (snd (ReplayBuffer.add 0 (Examples.numbered 10 7) Examples.part5))) = false.
Proof.
  repeat (split; [vm_compute; first [reflexivity | discriminate]|]).
  vm_compute. reflexivity.
Qed.

(** C10.  [add] of a batch of no rows raises.  On the full buffer of
    capacity 5, on the buffer that holds three records and on a new one, the
    destination range [range(pos, pos)] is empty, [torch.tensor] makes a
    float32 tensor of it, and the indexed write refuses it; the cursor, the
    full flag and the rows of the table stay as they were. *)
Theorem add_empty_batch_raises :
  ReplayBuffer.add_idxes (self Examples.full5) (Py.len (@nil (list Z))) = []
  /\ torch_tensor (ReplayBuffer.add_idxes (self Examples.full5) (Py.len (@nil (list Z))))
     = Float32_empty
  /\ fst (ReplayBuffer.add 0 [] Examples.full5) = Raise BackendError
  /\ fst (ReplayBuffer.add 0 [] Examples.part5) = Raise BackendError
  /\ fst (ReplayBuffer.add 0 [] Examples.fresh5) = Raise BackendError
  /\ _pos (self (snd (ReplayBuffer.add 0 [] Examples.full5))) = 2
  /\ _full (self (snd (ReplayBuffer.add 0 [] Examples.full5))) = true
  /\ table_rows (snd (ReplayBuffer.add 0 [] Examples.full5)) = Some [[5]; [6]; [2]; [3]; [4]].
Proof. repeat split; vm_compute; reflexivity. Qed.

(** C4.  Seven records numbered 0 to 6, added in one call to a new buffer of
    capacity 5 and one environment, leave the slots holding 5, 6, 2, 3, 4,
    the cursor at 2 and the buffer full. *)
Theorem add_wraparound :
  fst (ReplayBuffer.__init__ 0 5 1 false Examples.init) = Ok tt
  /\ fst (ReplayBuffer.add 0 (Examples.numbered 0 7) Examples.fresh5) = Ok tt
  /\ table_rows (snd (ReplayBuffer.add 0 (Examples.numbered 0 7) Examples.fresh5))
     = Some [[5]; [6]; [2]; [3]; [4]]
  /\ _pos (self (snd (ReplayBuffer.add 0 (Examples.numbered 0 7) Examples.fresh5))) = 2
  /\ _full (self (snd (ReplayBuffer.add 0 (Examples.numbered 0 7) Examples.fresh5))) = true.
Proof. repeat split; vm_compute; reflexivity. Qed.

(** C2.  On a full buffer of capacity 5 with the cursor at slot 2, [add] of
    seven rows computes two destination indices for seven rows to store, and
    the write raises: nothing is stored and the cursor does not move. *)
Theorem add_oversized_on_full_raises :
  _full (self Examples.full5) = true
  /\ _pos (self Examples.full5) = 2
  /\ ReplayBuffer.add_idxes (self Examples.full5) 7 = [2; 3]
  /\ ReplayBuffer.add_data_to_store (self Examples.full5) (Examples.numbered 10 7)
     = Examples.numbered 10 7
  /\ fst (ReplayBuffer.add 0 (Examples.numbered 10 7) Examples.full5) = Raise BackendError
  /\ table_rows (snd (ReplayBuffer.add 0 (Examples.numbered 10 7) Examples.full5))
     = Some [[5]; [6]; [2]; [3]; [4]]
  /\ _pos (self (snd (ReplayBuffer.add 0 (Examples.numbered 10 7) Examples.full5))) = 2.
Proof. repeat split; vm_compute; reflexivity. Qed.

(** ** [ReplayBuffer.sample] *)

Section SampleProperties.
Context {A Obs : Type} (observations : option (A -> Obs)).
Local Abbreviation world := (world A Obs).
Implicit Types (w : world).

(** C1, as amended.  On a full buffer every index drawn by [sample] is a slot
    in [[0, capacity)]; when the next observation is asked for, the slot
    [(pos - 1) mod capacity] is never drawn.  No other slot is excluded: each
    of them, the cursor slot [pos] included, is drawn from some tape. *)
Theorem sample_full_draws_valid w batch_size (sample_next_obs : bool) idx w' :
  wf w -> _full (self w) = true ->
  ReplayBuffer.batch_idxes batch_size sample_next_obs w = (Ok idx, w') ->
  (forall i, In i idx ->
     0 <= i < _buffer_size (self w)
     /\ (sample_next_obs = true -> i <> (_pos (self w) - 1) mod _buffer_size (self w)))
  /\ (forall i, 0 <= i < _buffer_size (self w) ->
        (sample_next_obs = true -> i <> (_pos (self w) - 1) mod _buffer_size (self w)) ->
        exists tape,
          fst (ReplayBuffer.batch_idxes 1 sample_next_obs (with_tape w tape)) = Ok [i]).
Proof.
  intros (HC & _ & Hpos & _) Hf Hdraw. split.
  - intros i Hi. pose proof (batch_idxes_sound w _ _ _ _ Hf Hdraw) as Hall.
    rewrite List.Forall_forall in Hall. apply valid_idxes_In; auto.
  - intros i Hi Hne. apply batch_idxes_complete; [assumption|].
    apply valid_idxes_In; auto.
Qed.

(** C6, as amended.  [sample] fails with [InvalidArgument] iff
    [batch_size <= 0]; for a positive [batch_size] it fails with
    [EmptyBufferError] iff nothing was written; with records present and the
    buffer not full it fails with [InsufficientDataError] iff the next
    observation is asked for and [pos = 1].  In the other cases it returns,
    given that the records carry the key [observations] when the next
    observation is asked for, except on a full buffer of capacity 1 with the
    next observation asked for, where it does not return.  Without the key a
    call that asks for the next observation never returns. *)
Theorem sample_outcome w batch_size (sample_next_obs clone : bool) :
  wf w ->
  (fails_with (fst (ReplayBuffer.sample observations batch_size sample_next_obs clone w))
     InvalidArgument <-> batch_size <= 0)
  /\ (0 < batch_size ->
      (fails_with (fst (ReplayBuffer.sample observations batch_size sample_next_obs clone w))
         EmptyBufferError <-> _full (self w) = false /\ _pos (self w) = 0))
  /\ (0 < batch_size -> _full (self w) = false -> 0 < _pos (self w) ->
      (fails_with (fst (ReplayBuffer.sample observations batch_size sample_next_obs clone w))
         InsufficientDataError <-> sample_next_obs = true /\ _pos (self w) = 1)
      /\ ((sample_next_obs = true -> observations <> None) ->
          (succeeds (fst (ReplayBuffer.sample observations batch_size sample_next_obs clone w))
           <-> ~ (sample_next_obs = true /\ _pos (self w) = 1))))
  /\ (0 < batch_size -> _full (self w) = true ->
      (sample_next_obs = true -> observations <> None) ->
      (succeeds (fst (ReplayBuffer.sample observations batch_size sample_next_obs clone w))
       <-> ~ (sample_next_obs = true /\ _buffer_size (self w) = 1)))
  /\ (sample_next_obs = true -> observations = None ->
      ~ succeeds (fst (ReplayBuffer.sample observations batch_size sample_next_obs clone w))).
Proof.
  intros Hwf.
  pose proof (sample_classify observations w batch_size sample_next_obs clone Hwf) as Hc.
  simpl in Hc. unfold fails_with, succeeds in *.
  set (r := fst (ReplayBuffer.sample observations batch_size sample_next_obs clone w)) in *.
  assert (Hraise : forall e k, r = Raise e ->
            ((exists e', r = Raise e' /\ kind_of e' = k) <-> kind_of e = k)
            /\ ~ (exists x, r = Ok x)).
  { intros e k Hr. rewrite Hr. split; [split|].
    - intros (e' & He & Hk). injection He as <-. exact Hk.
    - intros Hk. eauto.
    - intros (x & Hx). discriminate. }
  destruct Hc as [(Hbs & Hr) | [(Hbs & Hf & Hp & Hr) | [(Hbs & Hf & Hp & Hn & Hr)
                 | [(Hbs & Hf & Hn & Hc1 & Hr) | (Hbs & Hrec & Hn1 & Hn2 & Hok & Hnk)]]]].
  - split; [|split; [|split; [|split]]]; try (intros; lia).
    + rewrite (proj1 (Hraise _ InvalidArgument Hr)). simpl. tauto.
    + intros _ _. exact (proj2 (Hraise _ InvalidArgument Hr)).
  - split; [|split; [|split; [|split]]]; try (intros; lia).
    + rewrite (proj1 (Hraise _ InvalidArgument Hr)). simpl. split; [discriminate | lia].
    + intros _. rewrite (proj1 (Hraise _ EmptyBufferError Hr)). simpl. tauto.
    + intros _ Hf'. congruence.
    + intros _ _. exact (proj2 (Hraise _ InvalidArgument Hr)).
  - split; [|split; [|split; [|split]]].
    + rewrite (proj1 (Hraise _ InvalidArgument Hr)). simpl. split; [discriminate | lia].
    + intros _. rewrite (proj1 (Hraise _ EmptyBufferError Hr)). simpl.
      split; [discriminate | lia].
    + intros _ _ _. split.
      * rewrite (proj1 (Hraise _ InsufficientDataError Hr)). simpl. tauto.
      * intros _. pose proof (proj2 (Hraise _ InvalidArgument Hr)). tauto.
    + intros _ Hf'. congruence.
    + intros _ _. exact (proj2 (Hraise _ InvalidArgument Hr)).
  - split; [|split; [|split; [|split]]].
    + rewrite (proj1 (Hraise _ InvalidArgument Hr)). simpl. split; [discriminate | lia].
    + intros _. rewrite (proj1 (Hraise _ EmptyBufferError Hr)). simpl.
      split; [discriminate | intros (? & _); congruence].
    + intros _ Hf'. congruence.
    + intros _ _ _. pose proof (proj2 (Hraise _ InvalidArgument Hr)). tauto.
    + intros _ _. exact (proj2 (Hraise _ InvalidArgument Hr)).
  - assert (Hr : (exists x, r = Ok x) \/ r = Raise BackendError).
    { destruct sample_next_obs.
      - destruct observations as [obs|]; [left; apply Hok; discriminate | right; now apply Hnk].
      - left. apply Hok. discriminate. }
    assert (Hnot : forall k, k <> BackendFailure -> ~ (exists e, r = Raise e /\ kind_of e = k)).
    { intros k Hk (e & He & Hke). destruct Hr as [(x & Hx) | Hr]; [congruence|].
      rewrite Hr in He. injection He as <-. simpl in Hke. congruence. }
    split; [|split; [|split; [|split]]].
    + split; [intros H; exfalso; revert H; apply Hnot; discriminate | lia].
    + intros _. split; [intros H; exfalso; revert H; apply Hnot; discriminate|].
      intros (Hf & Hp). destruct Hrec; [congruence | lia].
    + intros _ Hf _. split.
      * split; [intros H; exfalso; revert H; apply Hnot; discriminate|].
        intros (? & ?). exfalso. apply Hn1. auto.
      * intros Hkey. split; [intros _ (? & ?); apply Hn1; auto | intros _; now apply Hok].
    + intros _ Hf Hkey.
      split; [intros _ (? & ?); apply Hn2; auto | intros _; now apply Hok].
    + intros Hs Hkey (x & Hx). rewrite (Hnk Hs Hkey) in Hx. discriminate.
Qed.

(** C9.  [sample] and the sequential [sample], whether they return or raise,
    leave the cursor, the full flag and the table as they were, and change no
    object that existed before the call; the companion [next_observations] is
    set on the newly gathered sample. *)
Theorem samplers_read_only w :
  wf w ->
  (forall batch_size sample_next_obs clone,
     _pos (self (snd (ReplayBuffer.sample observations batch_size sample_next_obs clone w)))
     = _pos (self w)
     /\ _full (self (snd (ReplayBuffer.sample observations batch_size sample_next_obs clone w)))
        = _full (self w)
     /\ table_rows (snd (ReplayBuffer.sample observations batch_size sample_next_obs clone w))
        = table_rows w
     /\ unchanged w (snd (ReplayBuffer.sample observations batch_size sample_next_obs clone w)))
  /\ (forall batch_size sample_next_obs clone sequence_length n_samples,
        _pos (self (snd (SequentialReplayBuffer.sample batch_size sample_next_obs clone
                           sequence_length n_samples w)))
        = _pos (self w)
        /\ _full (self (snd (SequentialReplayBuffer.sample batch_size sample_next_obs clone
                               sequence_length n_samples w)))
           = _full (self w)
        /\ table_rows (snd (SequentialReplayBuffer.sample batch_size sample_next_obs clone
                              sequence_length n_samples w))
           = table_rows w
        /\ unchanged w (snd (SequentialReplayBuffer.sample batch_size sample_next_obs clone
                               sequence_length n_samples w))).
Proof.
  intros Hwf. split.
  - intros batch_size sno clone.
    pose proof (frame_run w _ _ (frame_sample observations w batch_size sno clone)) as Hu.
    pose proof Hu as (Hs & _). rewrite Hs.
    repeat split; try apply Hu. now apply unchanged_table_rows.
  - intros batch_size sno clone sl ns.
    pose proof (frame_run w _ _ (frame_seq_sample (A:=A) (Obs:=Obs) w batch_size sno clone sl ns))
      as Hu.
    pose proof Hu as (Hs & _). rewrite Hs.
    repeat split; try apply Hu. now apply unchanged_table_rows.
Qed.

End SampleProperties.

(** C1, on a full buffer of capacity 5 with the cursor at slot 2, the next
    observation being asked for: slot 1 is not drawn. *)
Lemma sample_full_draws_valid_witness :
  Forall (fun i => 0 <= i < 5 /\ (true = true -> i <> (2 - 1) mod 5)) [4; 3; 2; 0].
Proof.
  apply List.Forall_forall.
  refine (proj1 (sample_full_draws_valid Examples.full5 4 true [4; 3; 2; 0]
                   (snd (ReplayBuffer.batch_idxes 4 true Examples.full5)) _ _ _)).
  - apply wfb_wf. vm_compute. reflexivity.
  - vm_compute. reflexivity.
  - vm_compute. reflexivity.
Defined.

(** C1 as stated fails: on the same buffer, [sample] without the next
    observation draws the cursor slot 2. *)
Lemma sample_full_draws_cursor_slot :
  wf Examples.full5
  /\ _full (self Examples.full5) = true
  /\ _pos (self Examples.full5) = 2
  /\ fst (ReplayBuffer.batch_idxes 4 false Examples.full5) = Ok [3; 0; 2; 4]
  /\ In (_pos (self Examples.full5)) [3; 0; 2; 4]
  /\ succeeds (fst (ReplayBuffer.sample (Some (@id Z)) 4 false false Examples.full5)).
Proof.
  split; [apply wfb_wf; vm_compute; reflexivity|].
  split; [vm_compute; reflexivity|]. split; [vm_compute; reflexivity|].
  split; [vm_compute; reflexivity|]. split; [vm_compute; tauto|].
  eexists. vm_compute. reflexivity.
Qed.

(** C6, on a buffer of capacity 10 holding three records. *)
Lemma sample_outcome_witness :
  succeeds (fst (ReplayBuffer.sample (Some (@id Z)) 4 true false Examples.part10)).
Proof.
  destruct (sample_outcome (Some (@id Z)) Examples.part10 4 true false) as (_ & _ & Hnf & _).
  { apply wfb_wf. vm_compute. reflexivity. }
  destruct Hnf as (_ & Hs); [lia | vm_compute; reflexivity | vm_compute; reflexivity |].
  apply (proj2 (Hs ltac:(intros _; discriminate))).
  intros (_ & H). vm_compute in H. discriminate H.
Defined.

(** C6 as stated fails: a full buffer of capacity 1 holds a record, yet
    [sample] with the next observation has no valid index and does not
    return. *)
Lemma sample_full_capacity_one_raises :
  wf Examples.full1
  /\ _full (self Examples.full1) = true
  /\ ReplayBuffer.valid_idxes (self Examples.full1) true = []
  /\ fst (ReplayBuffer.sample (Some (@id Z)) 1 true false Examples.full1) = Raise BackendError
  /\ ~ succeeds (fst (ReplayBuffer.sample (Some (@id Z)) 1 true false Examples.full1))
  /\ ~ fails_with (fst (ReplayBuffer.sample (Some (@id Z)) 1 true false Examples.full1))
         InsufficientDataError.
Proof.
  split; [apply wfb_wf; vm_compute; reflexivity|].
  split; [vm_compute; reflexivity|]. split; [vm_compute; reflexivity|].
  split; [vm_compute; reflexivity|]. split.
  - intros (l & H). vm_compute in H. discriminate H.
  - intros (e & H & Hk). vm_compute in H. injection H as <-. discriminate Hk.
Qed.

(** C9, on a full buffer, with the next observation and a clone. *)
Lemma samplers_read_only_witness :
  _pos (self (snd (ReplayBuffer.sample (Some (@id Z)) 4 true true Examples.full5))) = 2
  /\ _full (self (snd (ReplayBuffer.sample (Some (@id Z)) 4 true true Examples.full5))) = true
  /\ table_rows (snd (ReplayBuffer.sample (Some (@id Z)) 4 true true Examples.full5))
     = Some [[5]; [6]; [2]; [3]; [4]].
Proof.
  destruct (samplers_read_only (Some (@id Z)) Examples.full5) as (Hs & _).
  { apply wfb_wf. vm_compute. reflexivity. }
  destruct (Hs 4 true true) as (Hp & Hf & Ht & _).
  split; [exact Hp|]. split; [exact Hf|]. exact Ht.
Defined.

(** ** The outcomes of a draw, counted *)

Section Outcomes.






End Outcomes.

(** ** [SequentialReplayBuffer.sample] *)

Section SequenceProperties.
Context {A Obs : Type}.
Local Abbreviation world := (world A Obs).
Implicit Types (w : world).

(** X14.  On a full buffer every window drawn by the sequential sampler is
    [sequence_length] consecutive slots modulo the capacity from a start in
    [[0, capacity)], and the cursor slot [pos] occurs in it at its first step
    or not at all: no start lies in [[pos - sequence_length + 1, pos - 1]]
    modulo the capacity.  The list of valid starts holds every other start,
    [pos] itself included. *)
Theorem sequence_window_meets_cursor_first w batch_size sequence_length n_samples idxes w' :
  wf w -> _full (self w) = true ->
  SequentialReplayBuffer.window_idxes batch_size sequence_length n_samples w = (Ok idxes, w') ->
  (forall win, In win idxes ->
     exists st,
       0 <= st < _buffer_size (self w)
       /\ win = map (fun k => (st + k) mod _buffer_size (self w)) (Py.range 0 sequence_length)
       /\ (forall k, 1 <= k < sequence_length ->
             (st + k) mod _buffer_size (self w) <> _pos (self w))
       /\ (forall t, _pos (self w) - sequence_length + 1 <= t <= _pos (self w) - 1 ->
             st <> t mod _buffer_size (self w))
       /\ (forall k : nat, (1 <= k)%nat -> win !! k <> Some (_pos (self w))))
  /\ (forall st, 0 <= st < _buffer_size (self w) ->
        (forall k, 1 <= k < sequence_length ->
           (st + k) mod _buffer_size (self w) <> _pos (self w)) ->
        In st (SequentialReplayBuffer.valid_idxes (self w) sequence_length)).
Proof.
  intros Hwf Hf Hwin. pose proof Hwf as (HC & _ & Hpos & _).
  destruct (window_idxes_full_sound w _ _ _ _ _ Hwf Hf Hwin) as (Hsl & Hall).
  split.
  - intros win Hin. rewrite List.Forall_forall in Hall.
    destruct (Hall win Hin) as (st & Hst & ->).
    apply seq_valid_idxes_In in Hst as (Hrange & Hk); try assumption.
    exists st. split; [assumption|]. split; [reflexivity|]. split; [assumption|]. split.
    + intros t Ht Heq. apply (Hk (_pos (self w) - t)); [lia|].
      rewrite Heq, Zplus_mod_idemp_l.
      replace (t + (_pos (self w) - t)) with (_pos (self w)) by lia.
      apply Z.mod_small. assumption.
    + intros k Hk1 Hlook. rewrite list_lookup_fmap in Hlook.
      destruct (Py.range 0 sequence_length !! k) as [c|] eqn:Hc; [|discriminate].
      simpl in Hlook. injection Hlook as Hlook.
      assert (Hin' : In c (Py.range 0 sequence_length)).
      { apply list_elem_of_In. eapply list_elem_of_lookup_2; eassumption. }
      apply range_In in Hin'.
      rewrite range_lookup in Hc by (eapply lookup_lt_Some in Hc; rewrite range_length in Hc;
                                     exact Hc).
      injection Hc as <-. apply (Hk (0 + Z.of_nat k)); [lia | exact Hlook].
  - intros st Hst Hk. apply seq_valid_idxes_In; auto.
Qed.


End SequenceProperties.

(** X14, on a full buffer of capacity 5 with the cursor at slot 2 and windows
    of two slots. *)
Lemma sequence_window_meets_cursor_first_witness :
  Forall (fun win : list Z => forall k : nat, (1 <= k)%nat -> win !! k <> Some 2)
    [[4; 0]; [3; 4]; [2; 3]; [0; 1]].
Proof.
  apply List.Forall_forall. intros win Hin.
  destruct (sequence_window_meets_cursor_first Examples.full5 2 2 2
              [[4; 0]; [3; 4]; [2; 3]; [0; 1]]
              (snd (SequentialReplayBuffer.window_idxes 2 2 2 Examples.full5))) as (Hw & _).
  - apply wfb_wf. vm_compute. reflexivity.
  - vm_compute. reflexivity.
  - vm_compute. reflexivity.
  - destruct (Hw win Hin) as (st & _ & _ & _ & _ & Hk). exact Hk.
Defined.

(** C3.  On the full buffer of capacity 5 with the cursor at slot 2, the
    sequential sampler draws the window of two slots that starts at the
    cursor slot: the window [[2, 3]] holds the slot [pos], and its start 2
    lies in the range [[pos - 2 + 1, pos]]; the list of valid starts is
    [[0, 2, 3, 4]]. *)
Theorem sequence_window_starts_at_cursor :
  wf Examples.full5
  /\ _full (self Examples.full5) = true
  /\ _pos (self Examples.full5) = 2
  /\ SequentialReplayBuffer.valid_idxes (self Examples.full5) 2 = [0; 2; 3; 4]
  /\ fst (SequentialReplayBuffer.window_idxes 1 2 1
            (with_tape Examples.full5 (fun _ : nat => 1))) = Ok [[2; 3]]
  /\ In (_pos (self Examples.full5)) [2; 3]
  /\ _pos (self Examples.full5) - 2 + 1 <= 2 <= _pos (self Examples.full5)
  /\ succeeds (fst (SequentialReplayBuffer.sample 1 false false 2 1
                      (with_tape Examples.full5 (fun _ : nat => 1)))).
Proof.
  split; [apply wfb_wf; vm_compute; reflexivity|].
  split; [vm_compute; reflexivity|]. split; [vm_compute; reflexivity|].
  split; [vm_compute; reflexivity|].
  split; [vm_compute; reflexivity|]. split; [vm_compute; tauto|].
  split; [vm_compute; split; discriminate|].
  eexists. vm_compute. reflexivity.
Qed.

(** C7.  On a buffer of capacity 10 that is not full and holds three
    records, windows of two slots have two valid starts, 0 and 1; the
    sequential [sample] of five windows draws the starts with replacement and
    returns. *)
Theorem sequence_not_full_draws_more_than_valid_starts :
  wf Examples.part10
  /\ _full (self Examples.part10) = false
  /\ _pos (self Examples.part10) = 3
  /\ _pos (self Examples.part10) - 2 + 1 < 5 * 1
  /\ fst (SequentialReplayBuffer.start_idxes 5 2 1 Examples.part10) = Ok [1; 0; 1; 0; 1]
  /\ succeeds (fst (SequentialReplayBuffer.sample 5 false false 2 1 Examples.part10))
  /\ ~ fails_with (fst (SequentialReplayBuffer.sample 5 false false 2 1 Examples.part10))
         InsufficientDataError.
Proof.
  split; [apply wfb_wf; vm_compute; reflexivity|].
  split; [vm_compute; reflexivity|]. split; [vm_compute; reflexivity|].
  split; [vm_compute; reflexivity|]. split; [vm_compute; reflexivity|]. split.
  - eexists. vm_compute. reflexivity.
  - intros (e & H & _). vm_compute in H. discriminate H.
Qed.


(** * Further properties *)

(** ** The constructor, the capacity and the shape *)

Section Lifecycle.
Context {A Obs : Type} (zero : A) (observations : option (A -> Obs)).
Local Abbreviation world := (world A Obs).
Implicit Types (w : world) (data : list (list A)).

(** Whatever [add] does, it keeps the sizes and the kind of the buffer, and a
    table once allocated stays the table. *)
Lemma add_keeps_sizes w data :
  _buffer_size (self (snd (ReplayBuffer.add zero data w))) = _buffer_size (self w)
  /\ _n_envs (self (snd (ReplayBuffer.add zero data w))) = _n_envs (self w)
  /\ _memmap (self (snd (ReplayBuffer.add zero data w))) = _memmap (self w)
  /\ (forall l, _buf (self w) = Some l ->
      _buf (self (snd (ReplayBuffer.add zero data w))) = Some l).
Proof.
  unfold ReplayBuffer.add, bind, get_self.
  destruct (_buf (self w)) as [l|] eqn:Hb; [|destruct (_memmap (self w)) eqn:Hm]; simpl.
  - unfold load, bind. destruct (heap w !! l) as [[rows|? ? ?]|]; simpl;
      try (rewrite Hb; repeat split; auto; fail).
    destruct (setitem_rows _ _ _ _); simpl; [|rewrite Hb; repeat split; auto].
    destruct (_ >=? _); simpl; rewrite Hb; repeat split; auto.
  - unfold load, bind. simpl. rewrite lookup_app_r by lia. rewrite Nat.sub_diag. simpl.
    destruct (setitem_rows _ _ _ _); simpl; [|repeat split; auto; discriminate].
    destruct (_ >=? _); simpl; repeat split; auto; discriminate.
  - rewrite Hb, Hm. repeat split; auto; discriminate.
Qed.

Lemma after_keeps_sizes w (c : call A) :
  _buffer_size (self (after zero observations w c)) = _buffer_size (self w)
  /\ _n_envs (self (after zero observations w c)) = _n_envs (self w)
  /\ (forall l, _buf (self w) = Some l -> _buf (self (after zero observations w c)) = Some l).
Proof.
  destruct c as [data | b n c | b n c l k]; simpl.
  - destruct (add_keeps_sizes w data) as (? & ? & _ & ?). auto.
  - pose proof (frame_run w _ _ (frame_sample observations w b n c)) as (Hs & _).
    rewrite Hs. auto.
  - pose proof (frame_run w _ _ (frame_seq_sample (A:=A) (Obs:=Obs) w b n c l k)) as (Hs & _).
    rewrite Hs. auto.
Qed.

Lemma after_all_keeps_sizes (cs : list (call A)) : forall w,
  _buffer_size (self (fold_left (after zero observations) cs w)) = _buffer_size (self w)
  /\ _n_envs (self (fold_left (after zero observations) cs w)) = _n_envs (self w)
  /\ (forall l, _buf (self w) = Some l ->
      _buf (self (fold_left (after zero observations) cs w)) = Some l).
Proof.
  induction cs as [|c cs IH]; intros w; simpl; [auto|].
  destruct (after_keeps_sizes w c) as (H1 & H2 & H3).
  destruct (IH (after zero observations w c)) as (H4 & H5 & H6).
  repeat split; [congruence | congruence | auto].
Qed.

(** X1.  The constructor raises for a buffer size that is not positive, then
    for a number of environments that is not positive, and returns otherwise.
    The buffer it returns is well formed and empty: the cursor is 0, the
    buffer is not full, the table (allocated unless memory-mapped) holds
    zero records, and both samplers raise the no-sample error on it. *)
Theorem init_outcome w (buffer_size n_envs : Z) (memmap : bool) :
  (fst (ReplayBuffer.__init__ zero buffer_size n_envs memmap w) = Raise ValueError_buffer_size
   <-> buffer_size <= 0)
  /\ (fst (ReplayBuffer.__init__ zero buffer_size n_envs memmap w) = Raise ValueError_n_envs
      <-> 0 < buffer_size /\ n_envs <= 0)
  /\ (fst (ReplayBuffer.__init__ zero buffer_size n_envs memmap w) = Ok tt
      <-> 0 < buffer_size /\ 0 < n_envs)
  /\ (0 < buffer_size -> 0 < n_envs ->
      wf (snd (ReplayBuffer.__init__ zero buffer_size n_envs memmap w))
      /\ self (snd (ReplayBuffer.__init__ zero buffer_size n_envs memmap w))
         = mkAttrs buffer_size n_envs memmap
             (if memmap then None else Some (length (heap w))) 0 false
      /\ (memmap = false ->
          table_rows (snd (ReplayBuffer.__init__ zero buffer_size n_envs memmap w))
          = Some (repeat (repeat zero (Z.to_nat n_envs)) (Z.to_nat buffer_size)))
      /\ (forall batch_size sno clone, 0 < batch_size ->
          fst (ReplayBuffer.sample observations batch_size sno clone
                 (snd (ReplayBuffer.__init__ zero buffer_size n_envs memmap w)))
          = Raise ValueError_no_sample)
      /\ (forall batch_size sno clone sequence_length n_samples,
          0 < batch_size * n_samples ->
          fst (SequentialReplayBuffer.sample batch_size sno clone sequence_length n_samples
                 (snd (ReplayBuffer.__init__ zero buffer_size n_envs memmap w)))
          = Raise ValueError_no_sample)).
Proof.
  assert (Hself : 0 < buffer_size -> 0 < n_envs ->
            self (snd (ReplayBuffer.__init__ zero buffer_size n_envs memmap w))
            = mkAttrs buffer_size n_envs memmap
                (if memmap then None else Some (length (heap w))) 0 false).
  { intros H1 H2. unfold ReplayBuffer.__init__. decide_cmp. now destruct memmap. }
  split; [|split; [|split]].
  - unfold ReplayBuffer.__init__. destruct (Z.leb_spec buffer_size 0); simpl.
    + tauto.
    + split; [|lia]. destruct (n_envs <=? 0); [discriminate|]. destruct memmap; discriminate.
  - unfold ReplayBuffer.__init__. destruct (Z.leb_spec buffer_size 0); simpl.
    + split; [discriminate | lia].
    + destruct (Z.leb_spec n_envs 0); simpl; [tauto|].
      split; [destruct memmap; discriminate | lia].
  - unfold ReplayBuffer.__init__. destruct (Z.leb_spec buffer_size 0); simpl.
    + split; [discriminate | lia].
    + destruct (Z.leb_spec n_envs 0); simpl; [split; [discriminate | lia]|].
      split; [lia | now destruct memmap].
  - intros H1 H2. specialize (Hself H1 H2).
    assert (Hok : fst (ReplayBuffer.__init__ zero buffer_size n_envs memmap w) = Ok tt).
    { unfold ReplayBuffer.__init__. decide_cmp. now destruct memmap. }
    split; [now apply init_wf|]. split; [exact Hself|]. split; [|split].
    + intros ->. unfold table_rows. rewrite Hself. simpl.
      unfold ReplayBuffer.__init__. decide_cmp. unfold bind, alloc, ret, set_self. simpl.
      rewrite lookup_app_r by lia. rewrite Nat.sub_diag. reflexivity.
    + intros batch_size sno clone Hbs. unfold ReplayBuffer.sample.
      erewrite bind_raise; [reflexivity|].
      apply batch_idxes_no_sample; [assumption | now rewrite Hself | now rewrite Hself].
    + intros batch_size sno clone sl ns Hn.
      unfold SequentialReplayBuffer.sample, SequentialReplayBuffer.window_idxes.
      erewrite bind_raise; [reflexivity|]. erewrite bind_raise; [reflexivity|].
      unfold SequentialReplayBuffer.start_idxes, bind, get_self. rewrite Hself. simpl.
      decide_cmp. reflexivity.
Qed.

(** X2.  No call of the interface changes the capacity or the number of
    environments: after every sequence of calls, returning or raising,
    [__len__] returns the capacity the buffer started with, and on a buffer
    whose table is allocated [shape] returns [[buffer_size, n_envs]]. *)
Theorem capacity_never_changes w (cs : list (call A)) :
  _buffer_size (self (fold_left (after zero observations) cs w)) = _buffer_size (self w)
  /\ _n_envs (self (fold_left (after zero observations) cs w)) = _n_envs (self w)
  /\ fst (ReplayBuffer.__len__ (fold_left (after zero observations) cs w))
     = Ok (_buffer_size (self w))
  /\ fst (ReplayBuffer.buffer_size (fold_left (after zero observations) cs w))
     = Ok (_buffer_size (self w))
  /\ fst (ReplayBuffer.n_envs (fold_left (after zero observations) cs w))
     = Ok (_n_envs (self w))
  /\ (wf w -> _buf (self w) <> None ->
      fst (ReplayBuffer.shape (fold_left (after zero observations) cs w))
      = Ok [_buffer_size (self w); _n_envs (self w)]).
Proof.
  destruct (after_all_keeps_sizes cs w) as (HC & HE & Hb).
  split; [exact HC|]. split; [exact HE|].
  split; [unfold ReplayBuffer.__len__, bind, get_self, ret; simpl; now rewrite HC|].
  split; [unfold ReplayBuffer.buffer_size, bind, get_self, ret; simpl; now rewrite HC|].
  split; [unfold ReplayBuffer.n_envs, bind, get_self, ret; simpl; now rewrite HE|].
  intros Hwf Hne. destruct (_buf (self w)) as [l|] eqn:Hl; [|congruence].
  specialize (Hb l eq_refl).
  pose proof (after_all_wf zero observations cs w Hwf) as (HC' & HE' & _ & Htab).
  unfold table_ok in Htab. rewrite Hb in Htab. destruct Htab as (rows & Hrows & Hlen & Hw).
  unfold ReplayBuffer.shape, ReplayBuffer.buffer, bind, get_self, ret, load. simpl.
  rewrite Hb, Hrows. simpl. rewrite Hlen, HC. do 3 f_equal.
  destruct rows as [|row rows]; [unfold Py.len in Hlen; simpl in Hlen; lia|].
  inversion Hw; subst. simpl. congruence.
Qed.

End Lifecycle.

(** X2, on a buffer of capacity 5 after an [add] that returns, a sample and
    an [add] that raises. *)
Lemma capacity_never_changes_witness :
  fst (ReplayBuffer.shape
         (fold_left (after 0 (Some (@id Z)))
            [Call_add (Examples.numbered 0 7); Call_sample 2 true false;
             Call_add (Examples.numbered 0 7)] Examples.fresh5))
  = Ok [5; 1].
Proof.
  refine (proj2 (proj2 (proj2 (proj2 (proj2
    (capacity_never_changes 0 (Some (@id Z)) Examples.fresh5
       [Call_add (Examples.numbered 0 7); Call_sample 2 true false;
        Call_add (Examples.numbered 0 7)]))))) _ _).
  - apply wfb_wf. vm_compute. reflexivity.
  - vm_compute. discriminate.
Defined.

(** ** [add]: which calls return and what they store *)

Section AddWrites.
Context {A Obs : Type} (zero : A).
Local Abbreviation world := (world A Obs).
Implicit Types (w : world) (rows src data : list (list A)) (s : attrs).

Lemma put_rows_total idxes : forall rows src,
  length idxes = length src ->
  Forall (fun i => 0 <= i < Py.len rows) idxes ->
  exists rows', put_rows rows idxes src = Some rows'.
Proof.
  induction idxes as [|i idxes IH]; intros rows [|r src] Hlen Hall; simpl in *;
    try discriminate; [eauto|].
  inversion Hall as [|? ? Hi Hall']; subst. rewrite norm_index_small by assumption.
  apply IH; [lia|]. unfold Py.len in *. rewrite length_insert. assumption.
Qed.

(** A slot that no index addresses keeps its row. *)
Lemma put_rows_untouched idxes : forall rows src rows' (i : nat),
  put_rows rows idxes src = Some rows' ->
  Forall (fun j => 0 <= j < Py.len rows) idxes ->
  ~ In (Z.of_nat i) idxes ->
  rows' !! i = rows !! i.
Proof.
  induction idxes as [|j idxes IH]; intros rows [|r src] rows' i H Hall Hnot; simpl in *;
    try discriminate; [now injection H as <-|].
  inversion Hall as [|? ? Hj Hall']; subst. rewrite norm_index_small in H by assumption.
  erewrite IH; [| exact H | |].
  - apply list_lookup_insert_ne. intros Heq. apply Hnot. left. lia.
  - unfold Py.len in *. rewrite length_insert. assumption.
  - intros Hin. apply Hnot. now right.
Qed.

(** A slot holds the row of the last index that addresses it. *)
Lemma put_rows_last idxes : forall rows src rows' (i k : nat),
  put_rows rows idxes src = Some rows' ->
  Forall (fun j => 0 <= j < Py.len rows) idxes ->
  idxes !! k = Some (Z.of_nat i) ->
  ~ In (Z.of_nat i) (drop (S k) idxes) ->
  rows' !! i = src !! k.
Proof.
  induction idxes as [|j idxes IH]; intros rows [|r src] rows' i k H Hall Hk Hlast;
    simpl in *; try discriminate.
  inversion Hall as [|? ? Hj Hall']; subst. rewrite norm_index_small in H by assumption.
  assert (Hall'' : Forall (fun j0 => 0 <= j0 < Py.len (<[Z.to_nat j:=r]> rows)) idxes).
  { unfold Py.len in *. rewrite length_insert. assumption. }
  destruct k as [|k]; simpl in *.
  - injection Hk as ->. rewrite drop_0 in Hlast.
    rewrite (put_rows_untouched _ _ _ _ i H Hall'' Hlast).
    rewrite Nat2Z.id. apply list_lookup_insert_eq. unfold Py.len in Hj. lia.
  - eapply IH; eassumption.
Qed.

(** The numbers of destination indices and of rows to store. *)
Lemma add_idxes_length s (L : Z) :
  0 < _buffer_size s -> 0 <= _pos s < _buffer_size s ->
  Py.len (ReplayBuffer.add_idxes s L)
  = if ((_pos s + L) mod _buffer_size s <? _pos s)
       || ((L >=? _buffer_size s) && negb (_full s))
    then _buffer_size s - _pos s + (_pos s + L) mod _buffer_size s
    else (_pos s + L) mod _buffer_size s - _pos s.
Proof.
  intros HC Hpos. unfold ReplayBuffer.add_idxes.
  pose proof (Z.mod_pos_bound (_pos s + L) (_buffer_size s) HC) as Hnp.
  destruct (Z.ltb_spec ((_pos s + L) mod _buffer_size s) (_pos s)); simpl;
    [|destruct ((L >=? _buffer_size s) && negb (_full s))];
    unfold Py.len; rewrite ?length_app, ?range_length; lia.
Qed.

Lemma add_idxes_range s (L : Z) :
  0 < _buffer_size s -> 0 <= _pos s < _buffer_size s ->
  Forall (fun i => 0 <= i < _buffer_size s) (ReplayBuffer.add_idxes s L).
Proof.
  intros HC Hpos. unfold ReplayBuffer.add_idxes.
  pose proof (Z.mod_pos_bound (_pos s + L) (_buffer_size s) HC) as Hnp.
  apply List.Forall_forall. intros i Hi.
  destruct (_ || _); rewrite ?in_app_iff, !range_In in Hi; lia.
Qed.

Lemma add_data_to_store_length s data :
  0 < _buffer_size s -> 0 <= _pos s < _buffer_size s ->
  Py.len (ReplayBuffer.add_data_to_store s data)
  = if Py.len data >? _buffer_size s
    then Z.min (Py.len data) (_buffer_size s + (_pos s + Py.len data) mod _buffer_size s)
    else Py.len data.
Proof.
  intros HC Hpos. unfold ReplayBuffer.add_data_to_store.
  pose proof (Z.mod_pos_bound (_pos s + Py.len data) (_buffer_size s) HC) as Hnp.
  destruct (_ >? _); [|reflexivity]. rewrite slice_from_length by lia. f_equal. lia.
Qed.

Lemma add_data_to_store_widths s data (n : Z) :
  Forall (fun r => Py.len r = n) data ->
  forallb (fun r => Py.len r =? n) (ReplayBuffer.add_data_to_store s data) = true.
Proof.
  intros Hdata. apply forallb_forall. intros r Hr. apply Z.eqb_eq.
  assert (Hall : Forall (fun r => Py.len r = n) (ReplayBuffer.add_data_to_store s data)).
  { unfold ReplayBuffer.add_data_to_store, Py.slice_from.
    destruct (_ >? _); [apply Forall_drop|]; assumption. }
  rewrite List.Forall_forall in Hall. auto.
Qed.

(** [add] returns exactly when the batch has a row and it computes as many
    indices as rows. *)
Lemma add_returns_counts w data :
  wf w -> Forall (fun r => Py.len r = _n_envs (self w)) data ->
  (fst (ReplayBuffer.add zero data w) = Ok tt <->
   data <> []
   /\ Py.len (ReplayBuffer.add_idxes (self w) (Py.len data))
      = Py.len (ReplayBuffer.add_data_to_store (self w) data)).
Proof.
  intros Hwf Hdata. pose proof Hwf as (HC & HE & Hpos & Htab). unfold table_ok in Htab.
  assert (Hstore : Py.len (ReplayBuffer.add_data_to_store (self w) data) = 0 <-> data = []).
  { rewrite add_data_to_store_length by assumption.
    pose proof (Z.mod_pos_bound (_pos (self w) + Py.len data) (_buffer_size (self w)) HC).
    destruct (Z.ltb_spec (_buffer_size (self w)) (Py.len data)) as [Hbig|Hsmall];
      rewrite Z.gtb_ltb.
    - rewrite (proj2 (Z.ltb_lt _ _) Hbig).
      split; [lia | intros ->; unfold Py.len in Hbig; simpl in Hbig; lia].
    - rewrite (proj2 (Z.ltb_ge _ _) Hsmall). unfold Py.len.
      split; [intros Hz; destruct data; [reflexivity | simpl in Hz; lia] | now intros ->]. }
  assert (Hput : forall rows, Py.len rows = _buffer_size (self w) ->
            Forall (fun r => Py.len r = _n_envs (self w)) rows ->
            ((exists rows', setitem_rows (_n_envs (self w)) rows
                              (torch_tensor (ReplayBuffer.add_idxes (self w) (Py.len data)))
                              (ReplayBuffer.add_data_to_store (self w) data) = Some rows')
             <-> data <> []
                 /\ Py.len (ReplayBuffer.add_idxes (self w) (Py.len data))
                    = Py.len (ReplayBuffer.add_data_to_store (self w) data))).
  { intros rows Hlen Hrows. split.
    - intros (rows' & Hset). pose proof Hset as Hset'.
      apply setitem_rows_put in Hset' as (Hne & _ & _).
      apply setitem_rows_shape in Hset as (_ & _ & Hc); [|assumption].
      assert (Hc' : Py.len (ReplayBuffer.add_idxes (self w) (Py.len data))
                    = Py.len (ReplayBuffer.add_data_to_store (self w) data))
        by (unfold Py.len in *; now rewrite Hc).
      split; [|exact Hc']. intros Hnil. apply Hstore in Hnil.
      rewrite Hnil in Hc'. apply Hne.
      destruct (ReplayBuffer.add_idxes (self w) (Py.len data)); [reflexivity|].
      unfold Py.len in Hc'. simpl in Hc'. lia.
    - intros (Hne & Hc). rewrite setitem_rows_nonempty.
      + apply put_rows_total; [apply Nat2Z.inj; exact Hc|].
        rewrite Hlen. now apply add_idxes_range.
      + intros Hnil. rewrite Hnil in Hc. apply Hne, Hstore. unfold Py.len in *.
        simpl in Hc. lia.
      + apply (add_data_to_store_widths _ _ _ Hdata). }
  destruct (_buf (self w)) as [l|] eqn:Hb.
  - destruct Htab as (rows & Hl & Hlen & Hrows).
    rewrite (add_allocated zero w data l rows Hb Hl), <- (Hput rows Hlen Hrows).
    destruct (setitem_rows _ _ _ _) as [rows'|]; simpl.
    + split; eauto.
    + split; [discriminate | intros (? & ?); discriminate].
  - destruct Htab as (Hm & _).
    destruct (empty_table_shape zero (_buffer_size (self w)) (_n_envs (self w)))
      as [Hlen Hrows]; [lia | lia |].
    rewrite (add_unallocated zero w data Hb Hm), <- (Hput _ Hlen Hrows).
    destruct (setitem_rows _ _ _ _) as [rows'|]; simpl.
    + split; eauto.
    + split; [discriminate | intros (? & ?); discriminate].
Qed.

(** The counts agree on a full buffer for fewer rows than the capacity, and
    on a buffer that is not full when the write starts at slot 0 or passes
    the end of the table at most once. *)
Lemma add_counts_agree s data :
  0 < _buffer_size s -> 0 <= _pos s < _buffer_size s ->
  (Py.len (ReplayBuffer.add_idxes s (Py.len data))
   = Py.len (ReplayBuffer.add_data_to_store s data)
   <-> if _full s then Py.len data < _buffer_size s
       else _pos s = 0 \/ _pos s + Py.len data < 2 * _buffer_size s).
Proof.
  intros HC Hpos. rewrite add_idxes_length, add_data_to_store_length by assumption.
  set (L := Py.len data). assert (HL : 0 <= L) by (unfold L, Py.len; lia).
  set (C := _buffer_size s) in *. set (p := _pos s) in *.
  pose proof (Z.mod_pos_bound (p + L) C HC) as Hnp.
  pose proof (Z.div_mod (p + L) C ltac:(lia)) as Hdm.
  assert (Hq0 : 0 <= (p + L) / C) by (apply Z.div_pos; lia).
  set (q := (p + L) / C) in *. set (np := (p + L) mod C) in *.
  assert (Hq : q = 0 \/ q = 1 \/ 2 <= q) by lia.
  rewrite Z.geb_leb, Z.gtb_ltb.
  destruct (_full s); simpl; rewrite ?andb_false_r, ?andb_true_r, ?orb_false_r;
    destruct (Z.ltb_spec np p); destruct (Z.leb_spec C L); destruct (Z.ltb_spec C L);
    simpl; try lia;
    destruct Hq as [Hq | [Hq | Hq]]; try (rewrite Hq in Hdm); try lia;
    assert (2 * C <= C * q) by nia; lia.
Qed.

End AddWrites.

Section AddOrder.
Context {A Obs : Type} (zero : A).
Local Abbreviation world := (world A Obs).
Implicit Types (w : world) (rows src data : list (list A)) (s : attrs).

Lemma range_map (a b c : Z) (g : Z -> Z) :
  (forall t, c <= t < c + (b - a) -> g t = a + (t - c)) ->
  map g (Py.range c (c + (b - a))) = Py.range a b.
Proof.
  intros Hg. unfold Py.range. rewrite map_map.
  replace (c + (b - a) - c) with (b - a) by lia.
  apply map_ext_in. intros i Hi. apply in_seq in Hi. rewrite Hg by lia. lia.
Qed.

Lemma range_map_eq (a b c d : Z) (g : Z -> Z) :
  d - c = b - a -> (forall t, c <= t < d -> g t = a + (t - c)) ->
  map g (Py.range c d) = Py.range a b.
Proof.
  intros Hlen Hg. replace d with (c + (b - a)) by lia. apply range_map.
  intros t Ht. apply Hg. lia.
Qed.

Lemma range_app (a b c : Z) : a <= b <= c -> Py.range a c = Py.range a b ++ Py.range b c.
Proof.
  intros H. unfold Py.range.
  replace (Z.to_nat (c - a)) with (Z.to_nat (b - a) + Z.to_nat (c - b))%nat by lia.
  rewrite seq_app, map_app. f_equal. simpl.
  rewrite <- (Nat.add_0_r (Z.to_nat (b - a))) at 1.
  rewrite <- (fmap_add_seq (Z.to_nat (b - a)) 0). unfold fmap, list_fmap.
  change (map (fun i : nat => a + Z.of_nat i)
            (map (Nat.add (Z.to_nat (b - a))) (seq 0 (Z.to_nat (c - b))))
          = map (fun i : nat => b + Z.of_nat i) (seq 0 (Z.to_nat (c - b)))).
  rewrite map_map. apply map_ext. intros i. lia.
Qed.

Lemma range_lookup_inv (a b : Z) (k : nat) (x : Z) :
  Py.range a b !! k = Some x -> x = a + Z.of_nat k /\ a + Z.of_nat k < b.
Proof.
  intros H. pose proof (lookup_lt_Some _ _ _ H) as Hlt. rewrite range_length in Hlt.
  rewrite range_lookup in H by assumption. injection H as <-. lia.
Qed.

Lemma mod_apart (c a b : Z) : 0 < c -> 0 < b - a < c -> a mod c <> b mod c.
Proof.
  intros Hc Hab Heq.
  assert (H0 : (b - a) mod c = 0) by (rewrite Zminus_mod, Heq, Z.sub_diag; apply Zmod_0_l).
  rewrite Z.mod_small in H0 by lia. lia.
Qed.

Lemma mod_wrap (c x : Z) : 0 < c -> c <= x < 2 * c -> x mod c = x - c.
Proof.
  intros Hc Hx. rewrite <- (Z.mod_small (x - c) c) by lia.
  rewrite <- (Z.mod_add (x - c) 1 c) by lia. f_equal. lia.
Qed.

(** While the write passes the end of the table at most once, the destination
    indices are the slots after the cursor, in order. *)
Lemma add_idxes_in_order s (L : Z) :
  0 < _buffer_size s -> 0 <= _pos s < _buffer_size s -> 0 <= L ->
  _pos s + L < 2 * _buffer_size s -> (_full s = true -> L < _buffer_size s) ->
  ReplayBuffer.add_idxes s L
  = map (fun t => (_pos s + t) mod _buffer_size s) (Py.range 0 L).
Proof.
  intros HC Hpos HL H2 Hfull. unfold ReplayBuffer.add_idxes.
  set (C := _buffer_size s) in *. set (p := _pos s) in *.
  destruct (Z_lt_ge_dec (p + L) C) as [Hlt|Hge].
  - rewrite (Z.mod_small (p + L)) by lia.
    replace ((p + L <? p) || ((L >=? C) && negb (_full s))) with false.
    2:{ symmetry. apply orb_false_iff. split; [apply Z.ltb_ge; lia|].
        apply andb_false_iff. left. rewrite Z.geb_leb. apply Z.leb_gt. lia. }
    symmetry. apply range_map_eq; [lia|].
    intros t Ht. rewrite Z.mod_small by lia. lia.
  - assert (Hnp : (p + L) mod C = p + L - C) by (apply mod_wrap; lia).
    rewrite Hnp.
    replace ((p + L - C <? p) || ((L >=? C) && negb (_full s))) with true.
    2:{ symmetry. apply orb_true_iff. destruct (Z_lt_ge_dec L C) as [?|HLC].
        - left. apply Z.ltb_lt. lia.
        - right. apply andb_true_iff. split; [rewrite Z.geb_leb; apply Z.leb_le; lia|].
          destruct (_full s); [specialize (Hfull eq_refl); lia | reflexivity]. }
    rewrite (range_app 0 (C - p) L) by lia. rewrite map_app. f_equal; symmetry.
    + apply range_map_eq; [lia|].
      intros t Ht. rewrite Z.mod_small by lia. lia.
    + apply range_map_eq; [lia|].
      intros t Ht. rewrite mod_wrap by lia. lia.
Qed.

(** The writes of a call of [add] that returns: from some row [t0] of the
    batch on (row 0 unless the batch is truncated), row [t] goes to slot
    [(pos + t) mod buffer_size], in order. *)
Lemma add_writes_in_order s data :
  0 < _buffer_size s -> 0 <= _pos s < _buffer_size s ->
  (if _full s then Py.len data < _buffer_size s
   else _pos s = 0 \/ _pos s + Py.len data < 2 * _buffer_size s) ->
  exists t0 : Z,
    0 <= t0 <= Py.len data
    /\ t0 <= Z.max 0 (Py.len data - _buffer_size s)
    /\ ReplayBuffer.add_idxes s (Py.len data)
       = map (fun t => (_pos s + t) mod _buffer_size s) (Py.range t0 (Py.len data))
    /\ ReplayBuffer.add_data_to_store s data = drop (Z.to_nat t0) data.
Proof.
  intros HC Hpos Hcond. set (L := Py.len data) in *.
  assert (HL : 0 <= L) by (unfold L, Py.len; lia).
  set (C := _buffer_size s) in *. set (p := _pos s) in *.
  assert (Hcases : (p + L < 2 * C /\ (_full s = true -> L < C))
                   \/ (_full s = false /\ p = 0 /\ 2 * C <= L)).
  { destruct (_full s); [left; split; [lia | auto]|].
    destruct (Z_lt_ge_dec (p + L) (2 * C)); [left; split; [lia | discriminate]|].
    right. destruct Hcond; [split; [reflexivity | lia] | lia]. }
  destruct Hcases as [(H2 & Hfull) | (Hf & Hp & H2)].
  - exists 0. split; [lia|]. split; [lia|].
    split; [apply add_idxes_in_order; assumption|].
    unfold ReplayBuffer.add_data_to_store. fold L C p.
    destruct (Z.ltb_spec C L) as [Hbig|Hsmall]; rewrite Z.gtb_ltb.
    + rewrite (proj2 (Z.ltb_lt _ _) Hbig).
      assert (Hnp : (p + L) mod C = p + L - C) by (apply mod_wrap; lia).
      rewrite Hnp. unfold Py.slice_from. fold L. decide_cmp.
      replace (Z.max 0 (L + (- C - (p + L - C)))) with 0 by lia. reflexivity.
    + rewrite (proj2 (Z.ltb_ge _ _) Hsmall). reflexivity.
  - pose proof (Z.mod_pos_bound L C HC) as Hnp.
    pose proof (Z.div_mod L C ltac:(lia)) as Hdm.
    assert (Hq : 2 <= L / C) by (apply Z.div_le_lower_bound; lia).
    set (q := L / C) in *. set (np := L mod C) in *.
    assert (HCq : 2 * C <= C * q) by nia.
    exists (L - C - np). split; [lia|]. split; [lia|]. split.
    + unfold ReplayBuffer.add_idxes. fold L C p. rewrite Hp, Hf, Z.add_0_l. fold np.
      replace ((np <? 0) || ((L >=? C) && negb false)) with true.
      2:{ symmetry. apply orb_true_iff. right. rewrite andb_true_r, Z.geb_leb.
          apply Z.leb_le. lia. }
      rewrite (range_app (L - C - np) (L - np) L) by lia. rewrite map_app.
      assert (Hmul : L - C - np = C * (q - 1)) by lia.
      f_equal; symmetry.
      * apply range_map_eq; [lia|].
        intros t Ht. replace (0 + t) with (t - (L - C - np) + (q - 1) * C) by lia.
        rewrite Z.mod_add by lia. rewrite Z.mod_small by lia. lia.
      * apply range_map_eq; [lia|].
        intros t Ht. replace (0 + t) with (t - (L - np) + q * C) by lia.
        rewrite Z.mod_add by lia. rewrite Z.mod_small by lia. lia.
    + unfold ReplayBuffer.add_data_to_store. fold L C p. rewrite Hp, Z.add_0_l. fold np.
      decide_cmp. rewrite slice_from_drop by (fold L; lia). f_equal. fold L. lia.
Qed.

(** What a call of [add] that returns did to the table. *)
Lemma add_effect w data w' :
  wf w -> ReplayBuffer.add zero data w = (Ok tt, w') ->
  exists rows rows' b,
    (table_rows w = Some rows
     \/ (table_rows w = None /\ _pos (self w) = 0 /\ _full (self w) = false
         /\ rows = repeat (repeat zero (Z.to_nat (_n_envs (self w))))
                     (Z.to_nat (_buffer_size (self w)))))
    /\ Py.len rows = _buffer_size (self w)
    /\ put_rows rows (ReplayBuffer.add_idxes (self w) (Py.len data))
         (ReplayBuffer.add_data_to_store (self w) data) = Some rows'
    /\ table_rows w' = Some rows'
    /\ self w' = added (self w) b (Py.len data).
Proof.
  intros (HC & HE & Hpos & Htab) Hadd. unfold table_ok in Htab.
  destruct (_buf (self w)) as [l|] eqn:Hb.
  - destruct Htab as (rows & Hl & Hlen & Hrows).
    rewrite (add_allocated zero w data l rows Hb Hl) in Hadd.
    destruct (setitem_rows _ _ _ _) as [rows'|] eqn:Hset; [|discriminate].
    injection Hadd as <-. exists rows, rows', (Some l).
    split; [left; unfold table_rows; now rewrite Hb, Hl|]. split; [assumption|].
    split; [apply setitem_rows_put in Hset as (_ & _ & Hset); exact Hset|].
    split; [|reflexivity]. unfold table_rows. simpl.
    rewrite list_lookup_insert_eq by (eapply lookup_lt_Some; eassumption). reflexivity.
  - destruct Htab as (Hm & Hp0 & Hf).
    rewrite (add_unallocated zero w data Hb Hm) in Hadd.
    destruct (setitem_rows _ _ _ _) as [rows'|] eqn:Hset; [|discriminate].
    injection Hadd as <-.
    destruct (empty_table_shape zero (_buffer_size (self w)) (_n_envs (self w)))
      as [Hlen Hrows]; [lia | lia |].
    eexists _, rows', _. split.
    { right. split; [unfold table_rows; now rewrite Hb|]. repeat split; assumption. }
    split; [exact Hlen|].
    split; [apply setitem_rows_put in Hset as (_ & _ & Hset); exact Hset|].
    split; [|reflexivity]. unfold table_rows. simpl.
    rewrite lookup_app_r by lia. rewrite Nat.sub_diag. reflexivity.
Qed.

End AddOrder.

Section AddStores.
Context {A Obs : Type} (zero : A) (observations : option (A -> Obs)).
Local Abbreviation world := (world A Obs).
Implicit Types (w : world) (rows src data : list (list A)) (s : attrs).

(** X3.  For a batch of rows of [n_envs] records, [add] returns exactly in
    these cases: the batch has at least one row and, on a full buffer, fewer
    rows than the capacity, or, on a buffer that is not full, the cursor is
    at slot 0 or [pos + L < 2 * capacity].  In every other case (a batch of
    no rows, a full buffer and a batch of the capacity or more, a batch that
    passes the end of the table twice) the table write raises, and the
    cursor, the full flag and the rows of the table are as before. *)
Theorem add_returns_iff w data :
  wf w -> Forall (fun r => Py.len r = _n_envs (self w)) data ->
  (fst (ReplayBuffer.add zero data w) = Ok tt <->
   data <> []
   /\ if _full (self w) then Py.len data < _buffer_size (self w)
      else _pos (self w) = 0 \/ _pos (self w) + Py.len data < 2 * _buffer_size (self w))
  /\ (fst (ReplayBuffer.add zero data w) <> Ok tt ->
      fst (ReplayBuffer.add zero data w) = Raise BackendError
      /\ _pos (self (snd (ReplayBuffer.add zero data w))) = _pos (self w)
      /\ _full (self (snd (ReplayBuffer.add zero data w))) = _full (self w)
      /\ forall rows, table_rows w = Some rows ->
           table_rows (snd (ReplayBuffer.add zero data w)) = Some rows).
Proof.
  intros Hwf Hdata. pose proof Hwf as (HC & HE & Hpos & Htab). split.
  - rewrite (add_returns_counts zero w data Hwf Hdata).
    pose proof (add_counts_agree (self w) data HC Hpos) as Hagree.
    split; intros (Hne & Hc); (split; [exact Hne | now apply Hagree]).
  - unfold table_ok in Htab. destruct (_buf (self w)) as [l|] eqn:Hb.
    + destruct Htab as (rows & Hl & _).
      rewrite (add_allocated zero w data l rows Hb Hl).
      destruct (setitem_rows _ _ _ _); simpl; [congruence|]. auto.
    + destruct Htab as (Hm & _).
      rewrite (add_unallocated zero w data Hb Hm).
      destruct (setitem_rows _ _ _ _); simpl; [congruence|].
      intros _. repeat split. intros rows Hrows. unfold table_rows in Hrows.
      rewrite Hb in Hrows. discriminate.
Qed.

(** X4.  After a call of [add] that returns, the rows of the batch sit in
    the slots before the new cursor, latest first: for [j] below the batch
    length and the capacity, slot [(pos' - 1 - j) mod capacity] holds the row
    [L - 1 - j] of the batch.  A slot that is not one of
    [(pos + t) mod capacity], [t < L], keeps the row it had. *)
Theorem add_stores_latest w data w' rows' :
  wf w -> ReplayBuffer.add zero data w = (Ok tt, w') -> table_rows w' = Some rows' ->
  (forall j : Z, 0 <= j < Py.len data -> j < _buffer_size (self w) ->
     rows' !! Z.to_nat ((_pos (self w') - 1 - j) mod _buffer_size (self w))
     = data !! Z.to_nat (Py.len data - 1 - j))
  /\ (forall rows (i : Z), table_rows w = Some rows -> 0 <= i < _buffer_size (self w) ->
        (forall t, 0 <= t < Py.len data -> (_pos (self w) + t) mod _buffer_size (self w) <> i) ->
        rows' !! Z.to_nat i = rows !! Z.to_nat i).
Proof.
  intros Hwf Hadd Htab'. pose proof Hwf as (HC & HE & Hpos & _).
  destruct (add_effect zero w data w' Hwf Hadd)
    as (rows & rows1 & b & Hrows & Hlen & Hput & Htab1 & Hself).
  rewrite Htab' in Htab1. injection Htab1 as <-.
  assert (Hcount : Py.len (ReplayBuffer.add_idxes (self w) (Py.len data))
                   = Py.len (ReplayBuffer.add_data_to_store (self w) data)).
  { unfold Py.len at 1 3. f_equal. eapply put_rows_length. exact Hput. }
  apply add_counts_agree in Hcount; try assumption.
  destruct (add_writes_in_order (self w) data HC Hpos Hcount) as (t0 & Ht0 & Ht0' & Hidx & Hsrc).
  assert (Hrange : Forall (fun i => 0 <= i < Py.len rows)
                     (ReplayBuffer.add_idxes (self w) (Py.len data))).
  { rewrite Hlen. now apply add_idxes_range. }
  set (C := _buffer_size (self w)) in *. set (p := _pos (self w)) in *.
  set (L := Py.len data) in *. split.
  - intros j Hj HjC. rewrite Hself. unfold added. simpl. fold C p L.
    set (t := L - 1 - j).
    assert (Hslot : ((p + L) mod C - 1 - j) mod C = (p + t) mod C).
    { unfold t. rewrite <- Z.sub_add_distr, Zminus_mod_idemp_l. f_equal. lia. }
    rewrite Hslot.
    assert (Hslot_range : 0 <= (p + t) mod C < C) by (apply Z.mod_pos_bound; lia).
    assert (Hk : ReplayBuffer.add_idxes (self w) L !! Z.to_nat (t - t0)
                 = Some (Z.of_nat (Z.to_nat ((p + t) mod C)))).
    { assert (Htt : t0 <= t) by (unfold t; lia).
      rewrite Hidx, list_lookup_fmap, range_lookup by lia. simpl. f_equal.
      rewrite !Z2Nat.id by lia. f_equal. lia. }
    rewrite (put_rows_last _ _ _ _ _ _ Hput Hrange Hk).
    + rewrite Hsrc, lookup_drop. f_equal. lia.
    + intros Hin. apply list_elem_of_In, list_elem_of_lookup_1 in Hin as [k' Hk'].
      rewrite lookup_drop, Hidx, list_lookup_fmap in Hk'.
      destruct (Py.range t0 L !! (S (Z.to_nat (t - t0)) + k')%nat) as [t'|] eqn:Ht';
        [|discriminate].
      apply range_lookup_inv in Ht' as [-> Hlt]. simpl in Hk'. injection Hk' as Hk'.
      rewrite Z2Nat.id in Hk' by lia. symmetry in Hk'. revert Hk'.
      apply mod_apart; lia.
  - intros rows0 i Hrows0 Hi Hnot.
    destruct Hrows as [Hrows | (Hnone & _)]; [|congruence].
    rewrite Hrows in Hrows0. injection Hrows0 as <-.
    apply (put_rows_untouched _ _ _ _ _ Hput Hrange).
    rewrite Hidx, in_map_iff. intros (t & Heq & Ht). apply range_In in Ht.
    apply (Hnot t); [lia|]. lia.
Qed.

End AddStores.

(** X3, on a full buffer of capacity 5 and a batch of four rows. *)
Lemma add_returns_iff_witness :
  fst (ReplayBuffer.add 0 (Examples.numbered 10 4) Examples.full5) = Ok tt.
Proof.
  apply (proj1 (add_returns_iff 0 Examples.full5 (Examples.numbered 10 4)
                  ltac:(apply wfb_wf; vm_compute; reflexivity)
                  ltac:(repeat constructor))).
  split; [discriminate | vm_compute; reflexivity].
Defined.

(** X4, on a buffer of capacity 5 holding three records and a batch of four
    rows, which wraps: the last row of the batch is in slot 1. *)
Lemma add_stores_latest_witness :
  [[12]; [13]; [2]; [10]; [11]] !! Z.to_nat ((2 - 1 - 0) mod 5)
  = Examples.numbered 10 4 !! Z.to_nat (4 - 1 - 0).
Proof.
  refine (proj1 (add_stores_latest 0 Examples.part5 (Examples.numbered 10 4)
                   (snd (ReplayBuffer.add 0 (Examples.numbered 10 4) Examples.part5))
                   [[12]; [13]; [2]; [10]; [11]] _ _ _) 0 _ _).
  - apply wfb_wf. vm_compute. reflexivity.
  - vm_compute. reflexivity.
  - vm_compute. reflexivity.
  - vm_compute. split; [discriminate | reflexivity].
  - vm_compute. reflexivity.
Defined.

(** ** [add] after [add] *)

Section AddCompose.
Context {A Obs : Type} (zero : A) (observations : option (A -> Obs)).
Local Abbreviation world := (world A Obs).
Implicit Types (w : world) (rows src data : list (list A)) (s : attrs).

Lemma range_shift (a b c : Z) : Py.range (a + c) (b + c) = map (fun t => t + c) (Py.range a b).
Proof.
  symmetry. apply range_map_eq; [lia|]. intros t Ht. lia.
Qed.

Lemma added_added s b (L1 L2 : Z) :
  0 < _buffer_size s -> 0 <= _pos s < _buffer_size s -> 0 <= L1 -> 0 <= L2 ->
  added (added s b L1) b L2 = added s b (L1 + L2).
Proof.
  intros HC Hpos H1 H2. unfold added. simpl. f_equal.
  - rewrite Zplus_mod_idemp_l. f_equal. lia.
  - pose proof (Z.mod_pos_bound (_pos s + L1) (_buffer_size s) HC) as Hnp.
    rewrite !Z.geb_leb.
    destruct (Z.leb_spec (_buffer_size s) (_pos s + L1)).
    + destruct (_ <=? _); decide_cmp; reflexivity.
    + rewrite (Z.mod_small (_pos s + L1)) by lia.
      replace (_pos s + L1 + L2) with (_pos s + (L1 + L2)) by lia. reflexivity.
Qed.

Lemma idxes_nonempty data (g : Z -> Z) :
  data <> [] -> map g (Py.range 0 (Py.len data)) <> [].
Proof.
  intros Hne Heq. apply (f_equal (@length Z)) in Heq.
  rewrite length_map, range_length in Heq. unfold Py.len in Heq.
  destruct data; [congruence | simpl in Heq; lia].
Qed.

(** [add] of fewer rows than the capacity, on an allocated table. *)
Lemma add_small_allocated w data l rows :
  wf w -> _buf (self w) = Some l -> heap w !! l = Some (Storage rows) ->
  Forall (fun r => Py.len r = _n_envs (self w)) data ->
  data <> [] -> Py.len data < _buffer_size (self w) ->
  exists rows',
    put_rows rows
      (map (fun t => (_pos (self w) + t) mod _buffer_size (self w)) (Py.range 0 (Py.len data)))
      data = Some rows'
    /\ ReplayBuffer.add zero data w
       = (Ok tt, mkWorld (added (self w) (Some l) (Py.len data))
                   (<[l := Storage rows']> (heap w)) (rng w) (rng_next w)).
Proof.
  intros Hwf Hb Hl Hdata Hne HL. pose proof Hwf as (HC & HE & Hpos & Htab).
  assert (H0 : 0 <= Py.len data) by (unfold Py.len; lia).
  rewrite (add_allocated zero w data l rows Hb Hl).
  rewrite add_idxes_in_order by (auto; lia).
  assert (Hsrc : ReplayBuffer.add_data_to_store (self w) data = data).
  { unfold ReplayBuffer.add_data_to_store. decide_cmp. reflexivity. }
  rewrite Hsrc. rewrite setitem_rows_nonempty.
  2:{ now apply idxes_nonempty. }
  2:{ apply forallb_forall. intros r Hr. apply Z.eqb_eq.
      rewrite List.Forall_forall in Hdata. auto. }
  unfold table_ok in Htab. rewrite Hb in Htab. destruct Htab as (rows0 & Hl0 & Hlen & _).
  rewrite Hl in Hl0. injection Hl0 as <-.
  destruct (put_rows_total
              (map (fun t => (_pos (self w) + t) mod _buffer_size (self w))
                 (Py.range 0 (Py.len data))) rows data) as [rows' Hput].
  - rewrite length_map, range_length. unfold Py.len. lia.
  - apply List.Forall_forall. intros i Hi. apply in_map_iff in Hi as (t & <- & _).
    rewrite Hlen. apply Z.mod_pos_bound. lia.
  - rewrite Hput. eauto.
Qed.

Lemma add_small_unallocated w data :
  wf w -> _buf (self w) = None ->
  Forall (fun r => Py.len r = _n_envs (self w)) data ->
  data <> [] -> Py.len data < _buffer_size (self w) ->
  exists rows',
    put_rows (repeat (repeat zero (Z.to_nat (_n_envs (self w))))
                (Z.to_nat (_buffer_size (self w))))
      (map (fun t => (_pos (self w) + t) mod _buffer_size (self w)) (Py.range 0 (Py.len data)))
      data = Some rows'
    /\ ReplayBuffer.add zero data w
       = (Ok tt, mkWorld (added (self w) (Some (length (heap w))) (Py.len data))
                   (heap w ++ [Storage rows']) (rng w) (rng_next w)).
Proof.
  intros Hwf Hb Hdata Hne HL. pose proof Hwf as (HC & HE & Hpos & Htab).
  assert (H0 : 0 <= Py.len data) by (unfold Py.len; lia).
  unfold table_ok in Htab. rewrite Hb in Htab. destruct Htab as (Hm & Hp & Hf).
  rewrite (add_unallocated zero w data Hb Hm).
  rewrite add_idxes_in_order by (auto; lia).
  assert (Hsrc : ReplayBuffer.add_data_to_store (self w) data = data).
  { unfold ReplayBuffer.add_data_to_store. decide_cmp. reflexivity. }
  rewrite Hsrc. rewrite setitem_rows_nonempty.
  2:{ now apply idxes_nonempty. }
  2:{ apply forallb_forall. intros r Hr. apply Z.eqb_eq.
      rewrite List.Forall_forall in Hdata. auto. }
  destruct (empty_table_shape zero (_buffer_size (self w)) (_n_envs (self w)))
    as [Hlen Hrows]; [lia | lia |].
  destruct (put_rows_total
              (map (fun t => (_pos (self w) + t) mod _buffer_size (self w))
                 (Py.range 0 (Py.len data)))
              (repeat (repeat zero (Z.to_nat (_n_envs (self w))))
                 (Z.to_nat (_buffer_size (self w)))) data) as [rows' Hput].
  - rewrite length_map, range_length. unfold Py.len. lia.
  - apply List.Forall_forall. intros i Hi. apply in_map_iff in Hi as (t & <- & _).
    rewrite Hlen. apply Z.mod_pos_bound. lia.
  - rewrite Hput. eauto.
Qed.

(** The destination indices of a batch [d1 ++ d2] are those of [d1] and then
    those of [d2] from the cursor that [d1] leaves. *)
Lemma idxes_concat (C p L1 L2 : Z) :
  0 < C -> 0 <= L1 -> 0 <= L2 ->
  map (fun t => (p + t) mod C) (Py.range 0 (L1 + L2))
  = map (fun t => (p + t) mod C) (Py.range 0 L1)
    ++ map (fun t => ((p + L1) mod C + t) mod C) (Py.range 0 L2).
Proof.
  intros HC H1 H2. rewrite (range_app 0 L1 (L1 + L2)) by lia. rewrite map_app. f_equal.
  replace (Py.range L1 (L1 + L2)) with (Py.range (0 + L1) (L2 + L1)) by (f_equal; lia).
  rewrite range_shift, map_map. apply map_ext. intros t.
  rewrite Zplus_mod_idemp_l. f_equal. lia.
Qed.

(** X5.  Two batches of at least one row each that together have fewer rows
    than the capacity can be added in one call or in two: [add (d1 ++ d2)]
    returns and leaves the same world (table, cursor and full flag) as
    [add d1] followed by [add d2]. *)
Theorem add_concat w (d1 d2 : list (list A)) :
  wf w ->
  Forall (fun r => Py.len r = _n_envs (self w)) d1 ->
  Forall (fun r => Py.len r = _n_envs (self w)) d2 ->
  d1 <> [] -> d2 <> [] ->
  Py.len d1 + Py.len d2 < _buffer_size (self w) ->
  ReplayBuffer.add zero (d1 ++ d2) w
  = bind (ReplayBuffer.add zero d1) (fun _ => ReplayBuffer.add zero d2) w
  /\ fst (ReplayBuffer.add zero (d1 ++ d2) w) = Ok tt.
Proof.
  intros Hwf Hd1 Hd2 Hn1 Hn2 HL. pose proof Hwf as (HC & HE & Hpos & Htab).
  assert (H1 : 0 <= Py.len d1) by (unfold Py.len; lia).
  assert (H2 : 0 <= Py.len d2) by (unfold Py.len; lia).
  assert (Hn12 : d1 ++ d2 <> []) by (destruct d1; [congruence | discriminate]).
  assert (HL1 : Py.len d1 < _buffer_size (self w)) by lia.
  assert (HL2 : Py.len d2 < _buffer_size (self w)) by lia.
  assert (Hlen12 : Py.len (d1 ++ d2) = Py.len d1 + Py.len d2).
  { unfold Py.len. rewrite length_app. lia. }
  assert (Hd12 : Forall (fun r => Py.len r = _n_envs (self w)) (d1 ++ d2))
    by (apply Forall_app; split; assumption).
  assert (Hcount : length (map (fun t => (_pos (self w) + t) mod _buffer_size (self w))
                             (Py.range 0 (Py.len d1))) = length d1).
  { rewrite length_map, range_length. unfold Py.len. lia. }
  unfold table_ok in Htab. destruct (_buf (self w)) as [l|] eqn:Hb.
  - destruct Htab as (rows & Hl & Hlen & Hrows).
    destruct (add_small_allocated w (d1 ++ d2) l rows Hwf Hb Hl Hd12 Hn12 ltac:(lia))
      as (rows12 & Hput12 & Hadd12).
    destruct (add_small_allocated w d1 l rows Hwf Hb Hl Hd1 Hn1 HL1)
      as (rows1 & Hput1 & Hadd1).
    set (w1 := mkWorld (added (self w) (Some l) (Py.len d1))
                 (<[l := Storage rows1]> (heap w)) (rng w) (rng_next w)) in *.
    assert (Hwf1 : wf w1).
    { pose proof (add_wf zero w d1 Hwf) as Hw. rewrite Hadd1 in Hw. exact Hw. }
    assert (Hl1 : heap w1 !! l = Some (Storage rows1)).
    { simpl. apply list_lookup_insert_eq. eapply lookup_lt_Some; eassumption. }
    destruct (add_small_allocated w1 d2 l rows1 Hwf1 eq_refl Hl1 Hd2 Hn2 HL2)
      as (rows2 & Hput2 & Hadd2).
    simpl in Hput2.
    rewrite Hlen12, idxes_concat, put_rows_app, Hput1, Hput2 in Hput12 by assumption.
    injection Hput12 as <-.
    rewrite Hadd12. split; [|reflexivity].
    rewrite (bind_ok _ _ _ _ _ Hadd1), Hadd2. simpl.
    rewrite added_added, list_insert_insert_eq, Hlen12 by assumption. reflexivity.
  - destruct (add_small_unallocated w (d1 ++ d2) Hwf Hb Hd12 Hn12 ltac:(lia))
      as (rows12 & Hput12 & Hadd12).
    destruct (add_small_unallocated w d1 Hwf Hb Hd1 Hn1 HL1) as (rows1 & Hput1 & Hadd1).
    set (w1 := mkWorld (added (self w) (Some (length (heap w))) (Py.len d1))
                 (heap w ++ [Storage rows1]) (rng w) (rng_next w)) in *.
    assert (Hwf1 : wf w1).
    { pose proof (add_wf zero w d1 Hwf) as Hw. rewrite Hadd1 in Hw. exact Hw. }
    assert (Hl1 : heap w1 !! length (heap w) = Some (Storage rows1)).
    { simpl. rewrite lookup_app_r by lia. now rewrite Nat.sub_diag. }
    destruct (add_small_allocated w1 d2 (length (heap w)) rows1 Hwf1 eq_refl Hl1 Hd2
                Hn2 HL2) as (rows2 & Hput2 & Hadd2).
    simpl in Hput2.
    rewrite Hlen12, idxes_concat, put_rows_app, Hput1, Hput2 in Hput12 by assumption.
    injection Hput12 as <-.
    rewrite Hadd12. split; [|reflexivity].
    rewrite (bind_ok _ _ _ _ _ Hadd1), Hadd2. simpl.
    rewrite added_added, Hlen12 by assumption.
    rewrite insert_app_r_alt by lia. rewrite Nat.sub_diag. reflexivity.
Qed.

End AddCompose.

(** X5, on a buffer of capacity 10 holding three records and two batches of
    two and three rows. *)
Lemma add_concat_witness :
  ReplayBuffer.add 0 (Examples.numbered 10 2 ++ Examples.numbered 20 3) Examples.part10
  = bind (ReplayBuffer.add 0 (Examples.numbered 10 2))
      (fun _ => ReplayBuffer.add 0 (Examples.numbered 20 3)) Examples.part10.
Proof.
  refine (proj1 (add_concat 0 Examples.part10 (Examples.numbered 10 2) (Examples.numbered 20 3)
                   _ _ _ _ _ _)).
  - apply wfb_wf. vm_compute. reflexivity.
  - repeat constructor.
  - repeat constructor.
  - discriminate.
  - discriminate.
  - vm_compute. reflexivity.
Defined.

(** ** Slots that were never written *)

Section Unwritten.
Context {A Obs : Type} (zero : A) (observations : option (A -> Obs)).
Local Abbreviation world := (world A Obs).
Implicit Types (w : world) (rows src data : list (list A)) (s : attrs).

Lemma zero_table_lookup (C E i : Z) :
  0 <= i < C ->
  repeat (repeat zero (Z.to_nat E)) (Z.to_nat C) !! Z.to_nat i = Some (repeat zero (Z.to_nat E)).
Proof. intros Hi. apply repeat_lookup. lia. Qed.

Lemma add_keeps_unwritten w data :
  wf w -> unwritten_zero zero w -> unwritten_zero zero (snd (ReplayBuffer.add zero data w)).
Proof.
  intros Hwf Hinv. pose proof Hwf as (HC & HE & Hpos & Htab).
  destruct (ReplayBuffer.add zero data w) as [[[]|e] w'] eqn:Hadd; simpl.
  - destruct (add_effect zero w data w' Hwf Hadd)
      as (rows & rows' & b & Hrows & Hlen & Hput & Htab' & Hself).
    intros Hf' rows1 i Hrows1 Hi. rewrite Htab' in Hrows1. injection Hrows1 as <-.
    rewrite Hself in Hf', Hi |- *. unfold added in Hf', Hi |- *. simpl in *.
    assert (HL : 0 <= Py.len data) by (unfold Py.len; lia).
    destruct (Z.leb_spec (_buffer_size (self w)) (_pos (self w) + Py.len data)) as [?|Hlt];
      rewrite Z.geb_leb in Hf'.
    { rewrite (proj2 (Z.leb_le _ _) H) in Hf'. discriminate. }
    rewrite (proj2 (Z.leb_gt _ _) Hlt) in Hf'.
    rewrite Z.mod_small in Hi by lia.
    assert (Hrange : Forall (fun i => 0 <= i < Py.len rows)
                       (ReplayBuffer.add_idxes (self w) (Py.len data))).
    { rewrite Hlen. now apply add_idxes_range. }
    rewrite (put_rows_untouched _ _ _ _ _ Hput Hrange).
    + destruct Hrows as [Hrows | (_ & _ & _ & ->)].
      * apply (Hinv Hf' rows i Hrows). lia.
      * apply zero_table_lookup. lia.
    + rewrite add_idxes_in_order by (try assumption; try lia; congruence).
      rewrite in_map_iff. intros (t & Heq & Ht). apply range_In in Ht.
      rewrite Z.mod_small in Heq by lia. lia.
  - unfold table_ok in Htab. destruct (_buf (self w)) as [l|] eqn:Hb.
    + destruct Htab as (rows & Hl & _).
      rewrite (add_allocated zero w data l rows Hb Hl) in Hadd.
      destruct (setitem_rows _ _ _ _); [discriminate|]. injection Hadd as _ <-. exact Hinv.
    + destruct Htab as (Hm & Hp & Hf).
      rewrite (add_unallocated zero w data Hb Hm) in Hadd.
      destruct (setitem_rows _ _ _ _); [discriminate|]. injection Hadd as _ <-.
      intros _ rows i Hrows Hi. unfold table_rows in Hrows. simpl in *.
      rewrite lookup_app_r in Hrows by lia. rewrite Nat.sub_diag in Hrows. simpl in Hrows.
      injection Hrows as <-. apply zero_table_lookup. lia.
Qed.

Lemma after_keeps_unwritten w (c : call A) :
  wf w -> unwritten_zero zero w -> unwritten_zero zero (after zero observations w c).
Proof.
  intros Hwf Hinv.
  assert (Hsame : forall w', unchanged w w' -> unwritten_zero zero w').
  { intros w' Hu. pose proof (unchanged_table_rows w w' Hu Hwf) as Ht.
    destruct Hu as (Hs & _). unfold unwritten_zero. rewrite Hs, Ht. exact Hinv. }
  destruct c as [data | b n c | b n c l k]; simpl.
  - now apply add_keeps_unwritten.
  - apply Hsame. eapply frame_run. apply frame_sample.
  - apply Hsame. eapply frame_run. apply frame_seq_sample.
Qed.

Lemma after_all_keeps_unwritten (cs : list (call A)) : forall w,
  wf w -> unwritten_zero zero w ->
  unwritten_zero zero (fold_left (after zero observations) cs w).
Proof.
  induction cs as [|c cs IH]; intros w Hwf Hinv; simpl; [assumption|].
  apply IH; [now apply after_wf | now apply after_keeps_unwritten].
Qed.

(** X6.  A buffer built by the constructor and used through [add] and the
    samplers, as long as it is not full, holds in the slots from the cursor
    on the zero rows of the new table: only the slots below [pos] were
    written. *)
Theorem unwritten_slots_hold_zero w (buffer_size n_envs : Z) (memmap : bool)
  (cs : list (call A)) (rows : list (list A)) (i : Z) :
  0 < buffer_size -> 0 < n_envs ->
  _full (self (fold_left (after zero observations) cs
                 (snd (ReplayBuffer.__init__ zero buffer_size n_envs memmap w)))) = false ->
  table_rows (fold_left (after zero observations) cs
                (snd (ReplayBuffer.__init__ zero buffer_size n_envs memmap w))) = Some rows ->
  _pos (self (fold_left (after zero observations) cs
                (snd (ReplayBuffer.__init__ zero buffer_size n_envs memmap w)))) <= i
    < buffer_size ->
  rows !! Z.to_nat i = Some (repeat zero (Z.to_nat n_envs)).
Proof.
  intros HC HE Hf Hrows Hi.
  set (w1 := snd (ReplayBuffer.__init__ zero buffer_size n_envs memmap w)) in *.
  assert (Hok : fst (ReplayBuffer.__init__ zero buffer_size n_envs memmap w) = Ok tt).
  { unfold ReplayBuffer.__init__. decide_cmp. now destruct memmap. }
  assert (Hwf1 : wf w1) by now apply init_wf.
  assert (Hself : self w1 = mkAttrs buffer_size n_envs memmap
                              (if memmap then None else Some (length (heap w))) 0 false).
  { unfold w1, ReplayBuffer.__init__. decide_cmp. now destruct memmap. }
  assert (Hinv1 : unwritten_zero zero w1).
  { intros _ rows1 j Hrows1 Hj. rewrite Hself in Hj |- *. simpl in *.
    unfold table_rows in Hrows1. rewrite Hself in Hrows1. simpl in Hrows1.
    destruct memmap; [discriminate|].
    unfold w1, ReplayBuffer.__init__ in Hrows1. revert Hrows1. decide_cmp.
    unfold bind, alloc, ret, set_self. simpl.
    rewrite lookup_app_r by lia. rewrite Nat.sub_diag. simpl.
    intros Hrows1. injection Hrows1 as <-. apply zero_table_lookup. lia. }
  pose proof (after_all_keeps_unwritten cs w1 Hwf1 Hinv1) as Hinv.
  destruct (after_all_keeps_sizes zero observations cs w1) as (HC' & HE' & _).
  rewrite Hself in HC', HE'. simpl in HC', HE'.
  specialize (Hinv Hf rows i Hrows). rewrite HC', HE' in Hinv. auto.
Qed.

End Unwritten.

(** X6, on a buffer of capacity 5 after an [add] of three rows and a
    sample: slot 4 was never written. *)
Lemma unwritten_slots_hold_zero_witness :
  [[0]; [1]; [2]; [0]; [0]] !! Z.to_nat 4 = Some (repeat 0 (Z.to_nat 1)).
Proof.
  refine (unwritten_slots_hold_zero 0 (Some (@id Z)) Examples.init 5 1 false
            [Call_add (Examples.numbered 0 3); Call_sample 2 false false]
            [[0]; [1]; [2]; [0]; [0]] 4 _ _ _ _ _).
  - reflexivity.
  - reflexivity.
  - vm_compute. reflexivity.
  - vm_compute. reflexivity.
  - vm_compute. split; [discriminate | reflexivity].
Defined.

(** ** The slots read by [ReplayBuffer.sample] *)

Section SampleReads.
Context {A Obs : Type} (observations : option (A -> Obs)).
Local Abbreviation world := (world A Obs).
Implicit Types (w : world) (rows : list (list A)) (s : attrs).

Lemma mod_succ_cursor (c p i : Z) :
  0 < c -> 0 <= p < c -> 0 <= i < c -> (i + 1) mod c = p -> i = (p - 1) mod c.
Proof.
  intros Hc Hp Hi Heq. rewrite mod_pred by assumption.
  destruct (Z.eq_dec (i + 1) c) as [He|He].
  - rewrite He, Z.mod_same in Heq by lia. subst p. simpl. lia.
  - rewrite Z.mod_small in Heq by lia. subst p.
    destruct (Z.eqb_spec (i + 1) 0); lia.
Qed.

Lemma batch_idxes_returned w batch_size sno (idx : list Z) w' :
  wf w ->
  ReplayBuffer.batch_idxes batch_size sno w = (Ok idx, w') ->
  0 < batch_size
  /\ w' = mkWorld (self w) (heap w) (rng w) (rng_next w + Z.to_nat batch_size)%nat
  /\ Py.len idx = batch_size
  /\ (_full (self w) = true \/ 0 < _pos (self w))
  /\ Forall (fun i => 0 <= i < _buffer_size (self w)) idx.
Proof.
  intros (HC & HE & Hpos & Htab) Hrun.
  destruct (Z_le_gt_dec batch_size 0) as [Hbs|Hbs].
  { rewrite batch_idxes_batch_size in Hrun by assumption. discriminate. }
  split; [lia|]. destruct (_full (self w)) eqn:Hf.
  - pose proof (batch_idxes_sound w batch_size sno idx w' Hf Hrun) as Hin.
    assert (Hne : sno = true -> 1 < _buffer_size (self w)).
    { intros ->. destruct (Z.eq_dec (_buffer_size (self w)) 1) as [H1|H1]; [|lia].
      rewrite batch_idxes_no_valid in Hrun by (auto; lia). discriminate. }
    destruct (batch_idxes_full w batch_size sno HC Hpos ltac:(lia) Hf Hne)
      as (idx' & Hrun' & Hlen & _).
    rewrite Hrun in Hrun'. injection Hrun' as -> ->.
    split; [reflexivity|]. split; [assumption|]. split; [now left|].
    eapply Forall_impl; [exact Hin|]. intros i Hi. simpl in Hi.
    apply valid_idxes_In in Hi; tauto.
  - destruct (Z.eq_dec (_pos (self w)) 0) as [Hp0|Hp0].
    { rewrite batch_idxes_no_sample in Hrun by (auto; lia). discriminate. }
    assert (Hne : sno = true -> 1 < _pos (self w)).
    { intros ->. destruct (Z.eq_dec (_pos (self w)) 1) as [H1|H1]; [|lia].
      rewrite batch_idxes_one_sample in Hrun by (auto; lia). discriminate. }
    destruct (batch_idxes_not_full w batch_size sno ltac:(lia) Hf ltac:(lia) Hne)
      as (idx' & Hrun' & Hlen & Hin).
    rewrite Hrun in Hrun'. injection Hrun' as -> ->.
    split; [reflexivity|]. split; [assumption|]. split; [right; lia|].
    eapply Forall_impl; [exact Hin|]. intros i Hi. simpl in Hi. destruct sno; lia.
Qed.

(** X7.  The indices drawn by [sample] address records that were written,
    and with [sample_next_obs] the slot read for the next observation,
    [(i + 1) mod buffer_size], holds the successor of record [i]: on a buffer
    that is not full both [i] and [i + 1] are below the cursor, and on a full
    buffer the successor slot is never the cursor slot, which holds the
    oldest record. *)
Theorem sample_reads_written_slots w batch_size sample_next_obs (idx : list Z) w' (i : Z) :
  wf w ->
  ReplayBuffer.batch_idxes batch_size sample_next_obs w = (Ok idx, w') ->
  In i idx ->
  0 <= i < _buffer_size (self w)
  /\ (_full (self w) = false ->
      i < _pos (self w) /\ (sample_next_obs = true -> i + 1 < _pos (self w)))
  /\ (sample_next_obs = true -> (i + 1) mod _buffer_size (self w) <> _pos (self w)).
Proof.
  intros Hwf Hrun Hi. pose proof Hwf as (HC & HE & Hpos & Htab).
  destruct (batch_idxes_returned w batch_size sample_next_obs idx w' Hwf Hrun)
    as (Hbs & _ & _ & Hany & Hrange).
  rewrite List.Forall_forall in Hrange. specialize (Hrange i Hi).
  split; [assumption|].
  destruct (_full (self w)) eqn:Hf.
  - split; [discriminate|]. intros -> Heq.
    pose proof (batch_idxes_sound w batch_size true idx w' Hf Hrun) as Hin.
    rewrite List.Forall_forall in Hin. specialize (Hin i Hi).
    apply valid_idxes_In in Hin as (_ & Hneq); try assumption.
    apply (Hneq eq_refl). now apply mod_succ_cursor.
  - assert (Hlt : i < _pos (self w) /\ (sample_next_obs = true -> i + 1 < _pos (self w))).
    { destruct Hany as [?|Hp]; [discriminate|].
      assert (Hne : sample_next_obs = true -> 1 < _pos (self w)).
      { intros ->. destruct (Z.eq_dec (_pos (self w)) 1) as [H1|H1]; [|lia].
        rewrite batch_idxes_one_sample in Hrun by (auto; lia). discriminate. }
      destruct (batch_idxes_not_full w batch_size sample_next_obs ltac:(lia) Hf Hp Hne)
        as (idx' & Hrun' & _ & Hin).
      rewrite Hrun in Hrun'. injection Hrun' as -> _.
      rewrite List.Forall_forall in Hin. specialize (Hin i Hi). simpl in Hin.
      destruct sample_next_obs; split; try lia; try discriminate; intros _; lia. }
    split; [intros _; exact Hlt|]. intros Hs.
    rewrite Z.mod_small by (destruct Hlt as [_ Hlt]; specialize (Hlt Hs); lia).
    destruct Hlt as [_ Hlt]. specialize (Hlt Hs). lia.
Qed.

End SampleReads.

(** X7, on a buffer of capacity 10 holding three records: with the next
    observation only the slots 0 and 1 are drawn. *)
Lemma sample_reads_written_slots_witness :
  Forall (fun i => 0 <= i < 10
                   /\ (false = false -> i < 3 /\ (true = true -> i + 1 < 3))
                   /\ (true = true -> (i + 1) mod 10 <> 3)) [1; 0; 1; 0].
Proof.
  apply List.Forall_forall. intros i Hi.
  refine (sample_reads_written_slots (A:=Z) (Obs:=Z) Examples.part10 4 true [1; 0; 1; 0]
            (snd (ReplayBuffer.batch_idxes 4 true Examples.part10)) i _ _ Hi).
  - apply wfb_wf. vm_compute. reflexivity.
  - vm_compute. reflexivity.
Defined.

(** ** The records returned by [ReplayBuffer.sample] *)

Section SampleContent.
Context {A Obs : Type} (observations : option (A -> Obs)).
Local Abbreviation world := (world A Obs).
Implicit Types (w : world) (rows : list (list A)) (s : attrs).

Lemma gather_read rows (n_envs : Z) (bi ei : list Z) (items : list A) :
  Forall (fun r => Py.len r = n_envs) rows ->
  Forall (fun i => 0 <= i < Py.len rows) bi ->
  Forall (fun e => 0 <= e < n_envs) ei ->
  gather rows bi ei = Some items ->
  forall (j : nat) (i e : Z), bi !! j = Some i -> ei !! j = Some e ->
  exists row x, rows !! Z.to_nat i = Some row /\ row !! Z.to_nat e = Some x
    /\ items !! j = Some x.
Proof.
  intros Hwidth Hbi Hei Hg j i e Hi He.
  destruct (gather_lookup rows bi ei items Hg j i e Hi He) as (row & x & Hrow & Hx & Hit).
  pose proof (Forall_lookup_1 _ _ _ _ Hbi Hi) as Hir. simpl in Hir.
  pose proof (Forall_lookup_1 _ _ _ _ Hei He) as Her. simpl in Her.
  rewrite getitem_small in Hrow by assumption.
  pose proof (Forall_lookup_1 _ _ _ _ Hwidth Hrow) as Hw. simpl in Hw.
  rewrite getitem_small in Hx by lia.
  exists row, x. auto.
Qed.

(** [_get_samples] allocates one object: the records gathered at the pairs
    of [batch_idxes] and of the environments drawn, and under
    [sample_next_obs] the observations gathered one slot further. *)
Lemma get_samples_spec w (idx : list Z) (sno : bool) rows :
  wf w -> table_rows w = Some rows ->
  Forall (fun i => 0 <= i < _buffer_size (self w)) idx ->
  (sno = true -> observations <> None) ->
  let envs := draws 0 (_n_envs (self w)) (rng w) (rng_next w) (length idx) in
  exists items nxt,
    ReplayBuffer._get_samples observations idx sno w
    = (Ok (length (heap w)),
       mkWorld (self w)
         (heap w ++ [Samples [Py.len idx] items
                       (if sno then option_map (fun obs => map obs nxt) observations
                        else None)])
         (rng w) (rng_next w + length idx)%nat)
    /\ gather rows idx envs = Some items
    /\ gather rows (map (fun i => (i + 1) mod _buffer_size (self w)) idx) envs = Some nxt.
Proof.
  intros Hwf Hrows Hidx Hkey envs. pose proof Hwf as (HC & HE & Hpos & Htab).
  unfold table_rows in Hrows. unfold table_ok in Htab.
  destruct (_buf (self w)) as [b|] eqn:Hb; [|discriminate].
  destruct Htab as (rows' & Hl & Hlen & Hwidth). rewrite Hl in Hrows. injection Hrows as ->.
  assert (Henvs : Forall (fun e => 0 <= e < _n_envs (self w)) envs)
    by (apply draws_range; lia).
  assert (Hel : length idx = length envs) by (unfold envs; now rewrite draws_length).
  destruct (gather_total rows (_n_envs (self w)) idx envs) as (items & Hitems & _); auto.
  { rewrite Hlen. assumption. }
  destruct (gather_total rows (_n_envs (self w))
              (map (fun i => (i + 1) mod _buffer_size (self w)) idx) envs)
    as (nxt & Hnxt & _); auto.
  { apply List.Forall_forall. intros j Hj. apply in_map_iff in Hj as (i & <- & _).
    rewrite Hlen. apply Z.mod_pos_bound. lia. }
  { now rewrite length_map. }
  exists items, nxt. split; [|split; assumption].
  unfold ReplayBuffer._get_samples, bind, get_self.
  assert (Hn : Z.to_nat (Py.len idx) = length idx) by (unfold Py.len; lia).
  rewrite randint_ok by (unfold Py.len; lia). rewrite Hn, Hb. subst envs. simpl.
  unfold getitem_at, bind, load. simpl. rewrite Hl, Hitems. simpl.
  destruct sno; simpl; [|reflexivity].
  destruct observations as [obs|]; [|exfalso; now apply Hkey]. simpl.
  rewrite lookup_app_l by (eapply lookup_lt_Some; eassumption).
  rewrite Hl, Hnxt. simpl.
  unfold setkey_next_observations, bind, load, store. simpl.
  rewrite lookup_app_r by lia. rewrite Nat.sub_diag. simpl.
  rewrite insert_app_r_alt by lia. rewrite Nat.sub_diag. simpl. reflexivity.
Qed.

(** X8.  What a returning [sample] hands out: a new object of batch shape
    [[batch_size, 1]] whose record [j] is the record of the table at the
    [j]-th drawn index, in the [j]-th drawn environment; under
    [sample_next_obs] the records carry the key [observations] and the key
    [next_observations] of the result holds, at [j], the observation of the
    record one slot further (modulo the capacity) in the same environment,
    and without it the key is not set. *)
Theorem sample_returns_records w batch_size sample_next_obs clone (l : loc) w' rows :
  wf w -> table_rows w = Some rows ->
  ReplayBuffer.sample observations batch_size sample_next_obs clone w = (Ok l, w') ->
  exists (idx : list Z) (items nxt : list A),
    fst (ReplayBuffer.batch_idxes batch_size sample_next_obs w) = Ok idx
    /\ Py.len idx = batch_size
    /\ fresh_in w l
    /\ (sample_next_obs = true -> observations <> None)
    /\ heap w' !! l
       = Some (Samples [batch_size; 1] items
                 (if sample_next_obs then option_map (fun obs => map obs nxt) observations
                  else None))
    /\ forall (j : nat) (i e : Z),
         idx !! j = Some i ->
         draws 0 (_n_envs (self w)) (rng w) (rng_next w + Z.to_nat batch_size)
           (Z.to_nat batch_size) !! j = Some e ->
         exists row x row' y,
           rows !! Z.to_nat i = Some row /\ row !! Z.to_nat e = Some x
           /\ items !! j = Some x
           /\ rows !! Z.to_nat ((i + 1) mod _buffer_size (self w)) = Some row'
           /\ row' !! Z.to_nat e = Some y
           /\ nxt !! j = Some y.
Proof.
  intros Hwf Hrows Hrun. pose proof Hwf as (HC & HE & Hpos & Htab).
  unfold ReplayBuffer.sample in Hrun.
  destruct (ReplayBuffer.batch_idxes batch_size sample_next_obs w) as [[idx|e] w1] eqn:Hdraw;
    [|unfold bind in Hrun; rewrite Hdraw in Hrun; discriminate].
  rewrite (bind_ok _ _ _ _ _ Hdraw) in Hrun.
  destruct (batch_idxes_returned w batch_size sample_next_obs idx w1 Hwf Hdraw)
    as (Hbs & -> & Hlen & _ & Hrange).
  set (w1 := mkWorld (self w) (heap w) (rng w) (rng_next w + Z.to_nat batch_size)%nat) in *.
  assert (Hn : length idx = Z.to_nat batch_size) by (unfold Py.len in Hlen; lia).
  assert (Hkey : sample_next_obs = true -> observations <> None).
  { intros Hs Hnone. subst sample_next_obs.
    assert (Hb : _buf (self w1) <> None).
    { unfold table_rows in Hrows. simpl. destruct (_buf (self w)); [discriminate|].
      discriminate. }
    pose proof (get_samples_no_key observations w1 idx Hwf Hb Hrange Hnone) as Hraise.
    unfold bind in Hrun.
    destruct (ReplayBuffer._get_samples observations idx true w1) as [[?|?] ?];
      simpl in Hraise; discriminate. }
  destruct (get_samples_spec w1 idx sample_next_obs rows Hwf Hrows Hrange Hkey)
    as (items & nxt & Hget & Hitems & Hnxt).
  rewrite (bind_ok _ _ _ _ _ Hget) in Hrun. simpl in Hitems, Hnxt. rewrite Hn in Hitems, Hnxt.
  assert (Hwidth : Py.len rows = _buffer_size (self w)
                   /\ Forall (fun r => Py.len r = _n_envs (self w)) rows).
  { unfold table_rows in Hrows. unfold table_ok in Htab.
    destruct (_buf (self w)); [|discriminate].
    destruct Htab as (rows' & Hl & ? & ?). rewrite Hl in Hrows. injection Hrows as ->. auto. }
  destruct Hwidth as (Hrl & Hwidth).
  exists idx, items, nxt. split; [reflexivity|]. split; [assumption|].
  assert (Hres : fresh_in w l
                 /\ heap w' !! l
                    = Some (Samples [batch_size; 1] items
                              (if sample_next_obs
                               then option_map (fun obs => map obs nxt) observations
                               else None))).
  { revert Hrun. unfold unsqueeze_last, bind, load. simpl.
    rewrite lookup_app_r by lia. rewrite Nat.sub_diag. simpl. rewrite Hlen.
    unfold alloc, fresh_in. simpl.
    destruct clone.
    - unfold clone_td, bind, load, alloc. simpl.
      rewrite lookup_app_r by (rewrite length_app; simpl; lia).
      rewrite length_app. simpl.
      replace (length (heap w) + 1 - (length (heap w) + 1))%nat with 0%nat by lia. simpl.
      intros H. injection H as <- <-. simpl. split; [rewrite !length_app; simpl; lia|].
      rewrite lookup_app_r by (rewrite !length_app; simpl; lia).
      rewrite !length_app. simpl.
      replace (length (heap w) + 1 + 1 - (length (heap w) + 1 + 1))%nat with 0%nat by lia.
      reflexivity.
    - unfold ret. intros H. injection H as <- <-. simpl.
      split; [rewrite length_app; simpl; lia|].
      rewrite lookup_app_r by (rewrite length_app; simpl; lia).
      rewrite length_app. simpl.
      replace (length (heap w) + 1 - (length (heap w) + 1))%nat with 0%nat by lia.
      reflexivity. }
  destruct Hres as (Hfresh & Hheap). split; [assumption|]. split; [assumption|].
  split; [assumption|].
  intros j i e Hi He.
  assert (Henvs : Forall (fun e => 0 <= e < _n_envs (self w))
                    (draws 0 (_n_envs (self w)) (rng w) (rng_next w + Z.to_nat batch_size)
                       (Z.to_nat batch_size))) by (apply draws_range; lia).
  assert (Hr1 : Forall (fun i => 0 <= i < Py.len rows) idx) by (rewrite Hrl; exact Hrange).
  destruct (gather_read rows _ _ _ items Hwidth Hr1 Henvs Hitems j i e Hi He)
    as (row & x & Hrow & Hx & Hit).
  assert (Hr2 : Forall (fun i => 0 <= i < Py.len rows)
                  (map (fun i => (i + 1) mod _buffer_size (self w)) idx)).
  { apply List.Forall_forall. intros k Hk. apply in_map_iff in Hk as (i0 & <- & _).
    rewrite Hrl. apply Z.mod_pos_bound. lia. }
  destruct (gather_read rows _ _ _ nxt Hwidth Hr2 Henvs Hnxt j
              ((i + 1) mod _buffer_size (self w)) e) as (row' & y & Hrow' & Hy & Hnt).
  { rewrite list_lookup_fmap, Hi. reflexivity. }
  { exact He. }
  exists row, x, row', y. auto 10.
Qed.

End SampleContent.

(** X8, on the full buffer of capacity 5 holding 5, 6, 2, 3, 4 with the
    cursor at slot 2: the draw of index 4 is handed out with the observation
    of slot 0. *)
Lemma sample_returns_records_witness :
  exists (items nxt : list Z),
    heap (snd (ReplayBuffer.sample (Some (@id Z)) 4 true false Examples.full5)) !! 2%nat
    = Some (Samples [4; 1] items (Some (map id nxt)))
    /\ items !! 0%nat = Some 4 /\ nxt !! 0%nat = Some 5.
Proof.
  destruct (sample_returns_records (Some (@id Z)) Examples.full5 4 true false 2%nat
              (snd (ReplayBuffer.sample (Some (@id Z)) 4 true false Examples.full5))
              [[5]; [6]; [2]; [3]; [4]])
    as (idx & items & nxt & Hidx & _ & _ & _ & Hheap & Hread).
  - apply wfb_wf. vm_compute. reflexivity.
  - vm_compute. reflexivity.
  - vm_compute. reflexivity.
  - exists items, nxt. split; [exact Hheap|].
    assert (H0 : idx !! 0%nat = Some 4).
    { vm_compute in Hidx. injection Hidx as <-. reflexivity. }
    destruct (Hread 0%nat 4 0 H0) as (row & x & row' & y & Hrow & Hx & Hit & Hrow' & Hy & Hn).
    { vm_compute. reflexivity. }
    vm_compute in Hrow. injection Hrow as <-. vm_compute in Hx. injection Hx as <-.
    vm_compute in Hrow'. injection Hrow' as <-. vm_compute in Hy. injection Hy as <-.
    split; assumption.
Defined.

(** ** The windows and the records of [SequentialReplayBuffer.sample] *)

Section SequentialContent.
Context {A Obs : Type}.
Local Abbreviation world := (world A Obs).
Implicit Types (w : world) (rows : list (list A)) (s : attrs).

(** The condition under which the sequential [sample] returns, for a
    positive batch, a positive number of samples and a window of at least one
    step. *)
Lemma start_idxes_run w batch_size sequence_length n_samples :
  wf w -> 0 < batch_size * n_samples -> 1 <= sequence_length ->
  batch_size * n_samples <= _buffer_size (self w) ->
  (if _full (self w)
   then batch_size * n_samples <= _buffer_size (self w) - sequence_length + 1
   else sequence_length <= _pos (self w)) ->
  exists starts : list Z,
    SequentialReplayBuffer.start_idxes (A:=A) (Obs:=Obs) batch_size sequence_length n_samples w
    = (Ok starts,
       mkWorld (self w) (heap w) (rng w) (rng_next w + Z.to_nat (batch_size * n_samples))%nat)
    /\ length starts = Z.to_nat (batch_size * n_samples)
    /\ Forall (fun st => 0 <= st < _buffer_size (self w)
                         /\ (_full (self w) = false ->
                             st + sequence_length <= _pos (self w))) starts.
Proof.
  intros Hwf Hn Hsl Hcap Hcond. pose proof Hwf as (HC & HE & Hpos & Htab).
  assert (Hrec : _full (self w) = true \/ _pos (self w) <> 0).
  { destruct (_full (self w)); [now left | right; lia]. }
  rewrite (start_idxes_checked w _ _ _ Hwf Hn Hrec).
  rewrite Z.gtb_ltb, (proj2 (Z.ltb_ge _ _) Hcap).
  destruct (_full (self w)) eqn:Hf; simpl.
  - rewrite Z.gtb_ltb. rewrite (proj2 (Z.ltb_ge _ _)) by lia.
    assert (Hlen : Py.len (SequentialReplayBuffer.valid_idxes (self w) sequence_length)
                   = _buffer_size (self w) - sequence_length + 1)
      by (apply seq_valid_idxes_len; lia).
    rewrite (proj2 (Z.ltb_ge _ _)) by lia.
    unfold bind. rewrite randint_ok by lia.
    destruct (index_select_draws (SequentialReplayBuffer.valid_idxes (self w) sequence_length)
                (draws 0 (Py.len (SequentialReplayBuffer.valid_idxes (self w) sequence_length))
                   (rng w) (rng_next w) (Z.to_nat (batch_size * n_samples))))
      as (starts & Hsel & Hl & Hin).
    { apply draws_range. lia. }
    rewrite Hsel. simpl. exists starts. split; [reflexivity|].
    split; [now rewrite Hl, draws_length|].
    eapply Forall_impl; [exact Hin|]. intros st Hst. simpl in Hst.
    apply seq_valid_idxes_In in Hst; [|assumption|assumption|lia].
    split; [tauto | discriminate].
  - rewrite (proj2 (Z.ltb_ge _ _)) by lia. rewrite randint_ok by lia.
    eexists. split; [reflexivity|]. split; [apply draws_length|].
    eapply Forall_impl; [apply draws_range; lia|]. intros st Hst. simpl in Hst.
    split; [lia | intros _; lia].
Qed.

Lemma window_idxes_run w batch_size sequence_length n_samples (starts : list Z) w' :
  0 <= sequence_length ->
  SequentialReplayBuffer.start_idxes (A:=A) (Obs:=Obs) batch_size sequence_length n_samples w
  = (Ok starts, w') ->
  SequentialReplayBuffer.window_idxes batch_size sequence_length n_samples w
  = (Ok (map (fun st => map (fun c => (st + c) mod _buffer_size (self w'))
                          (Py.range 0 sequence_length)) starts), w').
Proof.
  intros Hsl Hrun. unfold SequentialReplayBuffer.window_idxes.
  rewrite (bind_ok _ _ _ _ _ Hrun). unfold arange, bind, get_self, ret.
  rewrite (proj2 (Z.ltb_ge _ _) Hsl). reflexivity.
Qed.

Lemma flat_map_seq_length {X} (f : nat -> list X) (m n : nat) :
  (forall j : nat, (j < n)%nat -> length (f j) = m) ->
  length (flat_map f (seq 0 n)) = (n * m)%nat.
Proof.
  intros Hf. rewrite flat_map_concat_map.
  rewrite (concat_length_uniform _ m); [now rewrite length_map, length_seq|].
  apply List.Forall_forall. intros l Hl. apply in_map_iff in Hl as (j & <- & Hj).
  apply in_seq in Hj. apply Hf. lia.
Qed.

Lemma flat_map_seq_lookup {X} (f : nat -> list X) (m n i k : nat) (x : X) :
  (forall j : nat, (j < n)%nat -> length (f j) = m) -> (i < n)%nat ->
  f i !! k = Some x -> flat_map f (seq 0 n) !! (i * m + k)%nat = Some x.
Proof.
  intros Hf Hi Hk. rewrite flat_map_concat_map.
  apply (concat_lookup m _ i k (f i) x).
  - apply List.Forall_forall. intros l Hl. apply in_map_iff in Hl as (j & <- & Hj).
    apply in_seq in Hj. apply Hf. lia.
  - rewrite list_lookup_fmap, lookup_seq_lt by assumption. reflexivity.
  - assumption.
Qed.

Lemma flat_map_singletons_lookup {X} (f : nat -> list X) (n i : nat) (x : X) :
  (forall j : nat, (j < n)%nat -> length (f j) = 1%nat) -> (i < n)%nat ->
  f i !! 0%nat = Some x -> flat_map f (seq 0 n) !! i = Some x.
Proof.
  intros Hf Hi Hx. pose proof (flat_map_seq_lookup f 1 n i 0 x Hf Hi Hx) as H.
  replace (i * 1 + 0)%nat with i in H by lia. exact H.
Qed.

(** The records of [permute(0, -1, -2)]: entry [(i, k, j)] of the result is
    entry [(i, j, k)] of the argument. *)
Lemma permute_items_lookup (items : list A) (a b c i j k : nat) (x : A) :
  (i < a)%nat -> (j < b)%nat -> (k < c)%nat -> length items = (a * b * c)%nat ->
  items !! ((i * b + j) * c + k)%nat = Some x ->
  flat_map (fun i : nat =>
    flat_map (fun k : nat =>
      flat_map (fun j : nat =>
        match items !! ((i * b + j) * c + k)%nat with Some x => [x] | None => [] end)
        (seq 0 b))
      (seq 0 c))
    (seq 0 a) !! ((i * c + k) * b + j)%nat = Some x.
Proof.
  intros Hi Hj Hk Hlen Hx.
  assert (Hin : forall i' j' k' : nat, (i' < a)%nat -> (j' < b)%nat -> (k' < c)%nat ->
            length (match items !! ((i' * b + j') * c + k')%nat with
                    | Some x => [x] | None => [] end) = 1%nat).
  { intros i' j' k' Hi' Hj' Hk'.
    destruct (lookup_lt_is_Some_2 items ((i' * b + j') * c + k')%nat) as [y ->];
      [|reflexivity].
    rewrite Hlen.
    assert ((i' * b + j' + 1) * c <= a * b * c)%nat; [|lia].
    apply Nat.mul_le_mono_r.
    assert ((i' + 1) * b <= a * b)%nat by (apply Nat.mul_le_mono_r; lia). lia. }
  assert (Hrow : forall i' k' : nat, (i' < a)%nat -> (k' < c)%nat ->
            length (flat_map (fun j : nat =>
                      match items !! ((i' * b + j) * c + k')%nat with
                      | Some x => [x] | None => [] end) (seq 0 b)) = b).
  { intros i' k' Hi' Hk'. rewrite (flat_map_seq_length _ 1%nat); [lia|].
    intros j' Hj'. now apply Hin. }
  replace ((i * c + k) * b + j)%nat with (i * (c * b) + (k * b + j))%nat by lia.
  apply flat_map_seq_lookup; [|assumption|].
  { intros i' Hi'. rewrite (flat_map_seq_length _ b); [reflexivity|].
    intros k' Hk'. now apply Hrow. }
  apply flat_map_seq_lookup; [intros k' Hk'; now apply Hrow | assumption |].
  apply flat_map_singletons_lookup; [intros j' Hj'; now apply Hin | assumption |].
  rewrite Hx. reflexivity.
Qed.

Lemma lookup_last {X} (h : list X) (x : X) : (h ++ [x]) !! length h = Some x.
Proof. now apply list_lookup_middle. Qed.

Lemma view_run (l : loc) (shape sh : list Z) (items : list A) (nxt : option (list Obs)) w :
  heap w !! l = Some (Samples sh items nxt) ->
  Forall (fun d => 0 < d) shape -> product shape = Py.len items ->
  view l shape w
  = (Ok (length (heap w)),
     mkWorld (self w) (heap w ++ [Samples shape items nxt]) (rng w) (rng_next w)).
Proof.
  intros Hl Hnn Hprod. unfold view, bind, load. rewrite Hl.
  replace (forallb (fun d => 0 <? d) shape) with true.
  2:{ symmetry. apply forallb_forall. intros d Hd. rewrite List.Forall_forall in Hnn.
      apply Z.ltb_lt. auto. }
  rewrite (proj2 (Z.eqb_eq _ _) Hprod). reflexivity.
Qed.

Lemma permute_0_2_1_run (l : loc) (a b c : Z) (items : list A) (nxt : option (list Obs)) w :
  heap w !! l = Some (Samples [a; b; c] items nxt) ->
  exists items',
    permute_0_2_1 l w
    = (Ok (length (heap w)),
       mkWorld (self w) (heap w ++ [Samples [a; c; b] items' nxt]) (rng w) (rng_next w))
    /\ forall (i j k : nat) (x : A),
         (i < Z.to_nat a)%nat -> (j < Z.to_nat b)%nat -> (k < Z.to_nat c)%nat ->
         length items = (Z.to_nat a * Z.to_nat b * Z.to_nat c)%nat ->
         items !! ((i * Z.to_nat b + j) * Z.to_nat c + k)%nat = Some x ->
         items' !! ((i * Z.to_nat c + k) * Z.to_nat b + j)%nat = Some x.
Proof.
  intros Hl. unfold permute_0_2_1, bind, load. rewrite Hl. eexists. split; [reflexivity|].
  intros i j k x. apply permute_items_lookup.
Qed.

(** [_get_samples] of the sequential buffer allocates the flat gather and
    its view of shape [[batch_dim, sequence_length]]. *)
Lemma seq_get_samples_run w (idxes : list (list Z)) (sno : bool) (window_length : Z) rows :
  wf w -> table_rows w = Some rows -> idxes <> [] -> 1 <= window_length ->
  Forall (fun win => Py.len win = window_length
                     /\ Forall (fun i => 0 <= i < _buffer_size (self w)) win) idxes ->
  exists items,
    SequentialReplayBuffer._get_samples idxes sno w
    = (Ok (length (heap w) + 1)%nat,
       mkWorld (self w)
         (heap w ++ [Samples [Py.len (concat idxes)] items None;
                     Samples [Py.len idxes; window_length] items None])
         (rng w) (rng_next w + length idxes)%nat)
    /\ gather rows (concat idxes)
         (flat_map (fun e => repeat e (Z.to_nat window_length))
            (draws 0 (_n_envs (self w)) (rng w) (rng_next w) (length idxes))) = Some items
    /\ length items = (length idxes * Z.to_nat window_length)%nat.
Proof.
  intros Hwf Hrows Hne Hwl Hall. pose proof Hwf as (HC & HE & Hpos & Htab).
  unfold table_rows in Hrows. unfold table_ok in Htab.
  destruct (_buf (self w)) as [b|] eqn:Hb; [|discriminate].
  destruct Htab as (rows' & Hl & Hlen & Hwidth). rewrite Hl in Hrows. injection Hrows as ->.
  assert (Hhd : Py.len (hd [] idxes) = window_length).
  { destruct idxes as [|win ?]; [congruence|]. inversion Hall; subst. simpl. tauto. }
  assert (Hpos_len : 0 < Py.len idxes).
  { destruct idxes; [congruence|]. unfold Py.len. simpl. lia. }
  assert (Huni : Forall (fun win : list Z => length win = Z.to_nat window_length) idxes).
  { eapply Forall_impl; [exact Hall|]. intros win [Hw _]. unfold Py.len in Hw. lia. }
  assert (Hin : Forall (fun i => 0 <= i < Py.len rows) (concat idxes)).
  { apply List.Forall_forall. intros i Hi. apply in_concat in Hi as (win & Hwin & Hi).
    rewrite List.Forall_forall in Hall. destruct (Hall win Hwin) as [_ Hr].
    rewrite List.Forall_forall in Hr. rewrite Hlen. auto. }
  assert (Henvs : Forall (fun e => 0 <= e < _n_envs (self w))
                    (draws 0 (_n_envs (self w)) (rng w) (rng_next w) (length idxes)))
    by (apply draws_range; lia).
  destruct (gather_total rows (_n_envs (self w)) (concat idxes)
              (flat_map (fun e => repeat e (Z.to_nat window_length))
                 (draws 0 (_n_envs (self w)) (rng w) (rng_next w) (length idxes))))
    as (items & Hitems & Hil); auto.
  { apply repeat_along_range. exact Henvs. }
  { rewrite repeat_along_length, (concat_length_uniform _ _ Huni). now rewrite draws_length. }
  rewrite (concat_length_uniform _ _ Huni) in Hil.
  exists items. split; [|split; assumption].
  assert (Hn : Z.to_nat (Py.len idxes) = length idxes) by (unfold Py.len; lia).
  unfold SequentialReplayBuffer._get_samples, SequentialReplayBuffer.env_idxes, bind, get_self.
  rewrite randint_ok by (unfold Py.len; lia). simpl. rewrite Hb, Hhd, Hn.
  unfold getitem_at, bind, load. simpl. rewrite Hl, Hitems. simpl.
  rewrite view_run with (sh := [Py.len (concat idxes)]) (items := items) (nxt := None).
  - simpl. rewrite length_app, <- app_assoc. reflexivity.
  - simpl. apply lookup_last.
  - repeat constructor; lia.
  - unfold product, Py.len in *. simpl. rewrite Hil. lia.
Qed.

(** The sequential [sample] run to its end under the condition of
    [start_idxes_run]. *)
Lemma seq_sample_run w batch_size sno clone sequence_length n_samples rows :
  wf w -> table_rows w = Some rows ->
  0 < batch_size -> 0 < n_samples -> 1 <= sequence_length ->
  batch_size * n_samples <= _buffer_size (self w) ->
  (if _full (self w)
   then batch_size * n_samples <= _buffer_size (self w) - sequence_length + 1
   else sequence_length <= _pos (self w)) ->
  exists (starts : list Z) (l : loc) w' (items : list A),
    fst (SequentialReplayBuffer.start_idxes (A:=A) (Obs:=Obs) batch_size sequence_length
           n_samples w) = Ok starts
    /\ SequentialReplayBuffer.sample batch_size sno clone sequence_length n_samples w
       = (Ok l, w')
    /\ fresh_in w l
    /\ heap w' !! l = Some (Samples [n_samples; sequence_length; batch_size] items None)
    /\ forall (a b k : nat) (st e : Z),
         (a < Z.to_nat n_samples)%nat -> (b < Z.to_nat batch_size)%nat ->
         (k < Z.to_nat sequence_length)%nat ->
         starts !! (a * Z.to_nat batch_size + b)%nat = Some st ->
         draws 0 (_n_envs (self w)) (rng w)
           (rng_next w + Z.to_nat (batch_size * n_samples))
           (Z.to_nat (batch_size * n_samples)) !! (a * Z.to_nat batch_size + b)%nat = Some e ->
         exists row x,
           rows !! Z.to_nat ((st + Z.of_nat k) mod _buffer_size (self w)) = Some row
           /\ row !! Z.to_nat e = Some x
           /\ items !! ((a * Z.to_nat sequence_length + k) * Z.to_nat batch_size + b)%nat
              = Some x.
Proof.
  intros Hwf Hrows Hbs Hns Hsl Hcap Hcond. pose proof Hwf as (HC & HE & Hpos & Htab).
  assert (HN : 0 < batch_size * n_samples) by lia.
  destruct (start_idxes_run w batch_size sequence_length n_samples Hwf HN Hsl Hcap Hcond)
    as (starts & Hstart & Hlen & Hall).
  assert (Hsl0 : 0 <= sequence_length) by lia.
  pose proof (window_idxes_run w _ _ _ _ _ Hsl0 Hstart) as Hwin. simpl in Hwin.
  set (w1 := mkWorld (self w) (heap w) (rng w)
               (rng_next w + Z.to_nat (batch_size * n_samples))%nat) in *.
  set (idxes := map (fun st => map (fun c => (st + c) mod _buffer_size (self w))
                                 (Py.range 0 sequence_length)) starts) in *.
  assert (Hil : length idxes = Z.to_nat (batch_size * n_samples))
    by (unfold idxes; now rewrite length_map).
  assert (Hne : idxes <> []) by (intros Heq; rewrite Heq in Hil; simpl in Hil; lia).
  assert (Hwins : Forall (fun win => Py.len win = sequence_length
                            /\ Forall (fun i => 0 <= i < _buffer_size (self w1)) win) idxes).
  { apply List.Forall_forall. intros win Hw. apply in_map_iff in Hw as (st & <- & _). split.
    - unfold Py.len. rewrite length_map, range_length. lia.
    - apply List.Forall_forall. intros i Hi. apply in_map_iff in Hi as (c & <- & _).
      apply Z.mod_pos_bound. exact HC. }
  destruct (seq_get_samples_run w1 idxes false sequence_length rows Hwf Hrows Hne Hsl Hwins)
    as (items & Hget & Hitems & Hlitems).
  assert (Hwidth : Py.len rows = _buffer_size (self w)
                   /\ Forall (fun r => Py.len r = _n_envs (self w)) rows).
  { unfold table_rows in Hrows. unfold table_ok in Htab.
    destruct (_buf (self w)); [|discriminate].
    destruct Htab as (rows' & Hl & ? & ?). rewrite Hl in Hrows. injection Hrows as ->. auto. }
  destruct Hwidth as (Hrl & Hwidth).
  assert (Hprod : (Z.to_nat (batch_size * n_samples)
                   = Z.to_nat n_samples * Z.to_nat batch_size)%nat) by nia.
  set (h2 := heap w ++ [Samples [Py.len (concat idxes)] items None;
                        Samples [Py.len idxes; sequence_length] items None]) in *.
  set (w2 := mkWorld (self w1) h2 (rng w1) (rng_next w1 + length idxes)%nat) in *.
  assert (Hview : view (length (heap w1) + 1)%nat [n_samples; batch_size; sequence_length] w2
                  = (Ok (length h2),
                     mkWorld (self w2)
                       (h2 ++ [Samples [n_samples; batch_size; sequence_length] items None])
                       (rng w2) (rng_next w2))).
  { apply view_run with (sh := [Py.len idxes; sequence_length]).
    - simpl. unfold h2. rewrite lookup_app_r by lia.
      replace (length (heap w) + 1 - length (heap w))%nat with 1%nat by lia. reflexivity.
    - repeat constructor; lia.
    - unfold product, Py.len. simpl. rewrite Hlitems, Hil. nia. }
  destruct (permute_0_2_1_run (length h2) n_samples batch_size sequence_length items None
              (mkWorld (self w2)
                 (h2 ++ [Samples [n_samples; batch_size; sequence_length] items None])
                 (rng w2) (rng_next w2)))
    as (items' & Hperm & Hlook).
  { simpl. apply lookup_last. }
  simpl in Hperm.
  set (h4 := (h2 ++ [Samples [n_samples; batch_size; sequence_length] items None])
               ++ [Samples [n_samples; sequence_length; batch_size] items' None]) in *.
  assert (Hh4 : h4 !! (length h2 + 1)%nat
                = Some (Samples [n_samples; sequence_length; batch_size] items' None)).
  { unfold h4. replace (length h2 + 1)%nat
      with (length (h2 ++ [Samples [n_samples; batch_size; sequence_length] items None]))
      by (rewrite length_app; reflexivity).
    apply lookup_last. }
  assert (Hh2 : (length (heap w) <= length h2)%nat)
    by (unfold h2; rewrite length_app; lia).
  exists starts.
  assert (Hres : exists (l : loc) w',
            SequentialReplayBuffer.sample batch_size sno clone sequence_length n_samples w
            = (Ok l, w')
            /\ fresh_in w l
            /\ heap w' !! l
               = Some (Samples [n_samples; sequence_length; batch_size] items' None)).
  { unfold SequentialReplayBuffer.sample.
    rewrite (bind_ok _ _ _ _ _ Hwin), (bind_ok _ _ _ _ _ Hget), (bind_ok _ _ _ _ _ Hview).
    rewrite length_app in Hperm. simpl in Hperm.
    rewrite (bind_ok _ _ _ _ _ Hperm). fold h4. destruct clone.
    - unfold clone_td, bind, load, alloc. simpl. rewrite Hh4.
      eexists _, _. split; [reflexivity|]. simpl. unfold fresh_in.
      split; [unfold h4; rewrite !length_app; simpl; lia | apply lookup_last].
    - eexists _, _. split; [reflexivity|]. simpl. unfold fresh_in.
      split; [lia | exact Hh4]. }
  destruct Hres as (l & w' & Hrun & Hfresh & Hheap).
  exists l, w', items'. rewrite Hstart. split; [reflexivity|]. split; [assumption|].
  split; [assumption|]. split; [assumption|].
  intros a b k st e Ha Hb Hk Hst He.
  set (n := (a * Z.to_nat batch_size + b)%nat) in *.
  assert (Hwn : idxes !! n
                = Some (map (fun c => (st + c) mod _buffer_size (self w))
                          (Py.range 0 sequence_length))).
  { unfold idxes. rewrite list_lookup_fmap, Hst. reflexivity. }
  assert (Hwk : map (fun c => (st + c) mod _buffer_size (self w))
                  (Py.range 0 sequence_length) !! k
                = Some ((st + Z.of_nat k) mod _buffer_size (self w))).
  { rewrite list_lookup_fmap, range_lookup by lia. reflexivity. }
  assert (Huni : Forall (fun win : list Z => length win = Z.to_nat sequence_length) idxes).
  { eapply Forall_impl; [exact Hwins|]. intros win [Hw _]. unfold Py.len in Hw. lia. }
  pose proof (concat_lookup _ _ _ _ _ _ Huni Hwn Hwk) as Hci.
  assert (He' : draws 0 (_n_envs (self w)) (rng w1) (rng_next w1) (length idxes) !! n
                = Some e) by (rewrite Hil; exact He).
  pose proof (repeat_along_lookup (Z.to_nat sequence_length) _ n k e He' Hk) as Hei.
  assert (Hr1 : Forall (fun i => 0 <= i < Py.len rows) (concat idxes)).
  { apply List.Forall_forall. intros i Hi. apply in_concat in Hi as (win & Hw & Hi).
    rewrite List.Forall_forall in Hwins. destruct (Hwins win Hw) as [_ Hr].
    rewrite List.Forall_forall in Hr. rewrite Hrl. apply Hr. exact Hi. }
  assert (Henvs : Forall (fun e => 0 <= e < _n_envs (self w))
                    (flat_map (fun e => repeat e (Z.to_nat sequence_length))
                       (draws 0 (_n_envs (self w)) (rng w1) (rng_next w1) (length idxes)))).
  { apply repeat_along_range. apply draws_range. lia. }
  destruct (gather_read rows _ _ _ items Hwidth Hr1 Henvs Hitems _ _ _ Hci Hei)
    as (row & x & Hrow & Hx & Hit).
  exists row, x. split; [assumption|]. split; [assumption|].
  apply Hlook; try assumption. rewrite Hlitems, Hil. nia.
Qed.

(** X9.  What the sequential [sample] hands out, for a positive batch size,
    a positive number of samples and windows of at least one step that fit:
    a new object of batch shape [[n_samples, sequence_length, batch_size]]
    whose entry [(a, k, b)] is step [k] of window [a * batch_size + b], read
    at slot [(start + k) mod buffer_size] in the environment drawn for that
    window.  On a buffer that is not full every window ends at or before the
    cursor, so that it reads written slots only. *)
Theorem sequence_sample_layout w batch_size sample_next_obs clone sequence_length n_samples
  rows :
  wf w -> table_rows w = Some rows ->
  0 < batch_size -> 0 < n_samples -> 1 <= sequence_length ->
  batch_size * n_samples <= _buffer_size (self w) ->
  (if _full (self w)
   then batch_size * n_samples <= _buffer_size (self w) - sequence_length + 1
   else sequence_length <= _pos (self w)) ->
  exists (starts : list Z) (l : loc) w' (items : list A),
    fst (SequentialReplayBuffer.start_idxes (A:=A) (Obs:=Obs) batch_size sequence_length
           n_samples w) = Ok starts
    /\ Py.len starts = batch_size * n_samples
    /\ Forall (fun st => 0 <= st < _buffer_size (self w)
                          /\ (_full (self w) = false ->
                              st + sequence_length <= _pos (self w))) starts
    /\ SequentialReplayBuffer.sample batch_size sample_next_obs clone sequence_length
         n_samples w = (Ok l, w')
    /\ fresh_in w l
    /\ heap w' !! l = Some (Samples [n_samples; sequence_length; batch_size] items None)
    /\ forall (a b k : nat) (st e : Z),
         (a < Z.to_nat n_samples)%nat -> (b < Z.to_nat batch_size)%nat ->
         (k < Z.to_nat sequence_length)%nat ->
         starts !! (a * Z.to_nat batch_size + b)%nat = Some st ->
         draws 0 (_n_envs (self w)) (rng w)
           (rng_next w + Z.to_nat (batch_size * n_samples))
           (Z.to_nat (batch_size * n_samples)) !! (a * Z.to_nat batch_size + b)%nat = Some e ->
         exists row x,
           rows !! Z.to_nat ((st + Z.of_nat k) mod _buffer_size (self w)) = Some row
           /\ row !! Z.to_nat e = Some x
           /\ items !! ((a * Z.to_nat sequence_length + k) * Z.to_nat batch_size + b)%nat
              = Some x.
Proof.
  intros Hwf Hrows Hbs Hns Hsl Hcap Hcond.
  destruct (seq_sample_run w batch_size sample_next_obs clone sequence_length n_samples rows
              Hwf Hrows Hbs Hns Hsl Hcap Hcond)
    as (starts & l & w' & items & Hstart & Hrun & Hfresh & Hheap & Hread).
  assert (HN : 0 < batch_size * n_samples) by lia.
  destruct (start_idxes_run w batch_size sequence_length n_samples Hwf HN Hsl Hcap Hcond)
    as (starts' & Hstart' & Hlen & Hall).
  rewrite Hstart' in Hstart. simpl in Hstart. injection Hstart as ->.
  exists starts, l, w', items. rewrite Hstart'. split; [reflexivity|].
  split; [unfold Py.len; lia|]. auto.
Qed.

(** X10.  For a positive batch size, a positive number of samples and
    windows of at least one step, the sequential [sample] returns exactly
    when [batch_size * n_samples] is at most the capacity and, on a full
    buffer, at most the [buffer_size - sequence_length + 1] valid starts, or,
    on a buffer that is not full, the window is at most the [pos] records
    written.  When it raises, it raises one of the four [ValueError] of its
    own checks: nothing fails in the draws, the gather, the reshape or the
    permutation. *)
Theorem sequence_sample_returns_iff w batch_size sample_next_obs clone sequence_length
  n_samples :
  wf w -> 0 < batch_size -> 0 < n_samples -> 1 <= sequence_length ->
  (succeeds (fst (SequentialReplayBuffer.sample (A:=A) (Obs:=Obs) batch_size sample_next_obs
                    clone sequence_length n_samples w))
   <-> batch_size * n_samples <= _buffer_size (self w)
       /\ (if _full (self w)
           then batch_size * n_samples <= _buffer_size (self w) - sequence_length + 1
           else sequence_length <= _pos (self w)))
  /\ (forall e,
        fst (SequentialReplayBuffer.sample (A:=A) (Obs:=Obs) batch_size sample_next_obs
               clone sequence_length n_samples w) = Raise e ->
        e = ValueError_no_sample \/ e = ValueError_larger_than_buffer
        \/ e = ValueError_too_long_sequence \/ e = ValueError_larger_than_sampleable).
Proof.
  intros Hwf Hbs Hns Hsl. pose proof Hwf as (HC & HE & Hpos & Htab).
  assert (HN : 0 < batch_size * n_samples) by lia.
  set (r := fst (SequentialReplayBuffer.sample (A:=A) (Obs:=Obs) batch_size sample_next_obs
                   clone sequence_length n_samples w)).
  assert (Hreturns : batch_size * n_samples <= _buffer_size (self w) ->
            (if _full (self w)
             then batch_size * n_samples <= _buffer_size (self w) - sequence_length + 1
             else sequence_length <= _pos (self w)) ->
            succeeds r).
  { intros Hcap Hcond.
    assert (Hrec : _full (self w) = true \/ _pos (self w) <> 0).
    { destruct (_full (self w)); [now left | right; lia]. }
    pose proof (wf_allocated w Hwf Hrec) as Hb.
    assert (Hrows : exists rows, table_rows w = Some rows).
    { unfold table_rows. unfold table_ok in Htab.
      destruct (_buf (self w)); [|congruence].
      destruct Htab as (rows & -> & _). eauto. }
    destruct Hrows as (rows & Hrows).
    destruct (seq_sample_run w batch_size sample_next_obs clone sequence_length n_samples rows
                Hwf Hrows Hbs Hns Hsl Hcap Hcond)
      as (starts & l & w' & items & _ & Hrun & _).
    exists l. unfold r. rewrite Hrun. reflexivity. }
  assert (Hkinds : forall k, k = CapacityError \/ k = InsufficientDataError ->
            fails_with r k ->
            exists e, r = Raise e
              /\ (e = ValueError_no_sample \/ e = ValueError_larger_than_buffer
                  \/ e = ValueError_too_long_sequence
                  \/ e = ValueError_larger_than_sampleable)).
  { intros k Hk (e & He & Hke). exists e. split; [assumption|].
    assert (Hown : e <> RuntimeError_one_sample).
    { refine (wp_fst _ _ (fun e => e <> RuntimeError_one_sample) w e _ He).
      apply seq_sample_raises; discriminate. }
    destruct Hk as [-> | ->]; destruct e; try discriminate; try congruence; auto. }
  assert (Hdec : (batch_size * n_samples <= _buffer_size (self w)
                  /\ (if _full (self w)
                      then batch_size * n_samples
                           <= _buffer_size (self w) - sequence_length + 1
                      else sequence_length <= _pos (self w)))
                 \/ exists e, r = Raise e
                      /\ (e = ValueError_no_sample \/ e = ValueError_larger_than_buffer
                          \/ e = ValueError_too_long_sequence
                          \/ e = ValueError_larger_than_sampleable)).
  { destruct (seq_sample_errors w batch_size sample_next_obs clone sequence_length n_samples
                Hwf) as (_ & Hcapacity & Hfew). fold r in Hcapacity, Hfew.
    destruct (_full (self w)) eqn:Hf.
    - destruct (Z_le_gt_dec (batch_size * n_samples) (_buffer_size (self w))) as [Hcap|Hcap].
      2:{ right. apply (Hkinds CapacityError); [now left|]. apply Hcapacity; auto. left. lia. }
      destruct (Z_le_gt_dec sequence_length (_buffer_size (self w))) as [Hl1|Hl1].
      2:{ right. apply (Hkinds CapacityError); [now left|]. apply Hcapacity; auto.
          right. left. lia. }
      destruct (Z_le_gt_dec (batch_size * n_samples)
                  (_buffer_size (self w) - sequence_length + 1)) as [Hl2|Hl2]; [now left|].
      right. apply (Hkinds InsufficientDataError); [now right|]. apply Hfew; auto.
      rewrite seq_valid_idxes_len by lia. lia.
    - destruct (Z.eq_dec (_pos (self w)) 0) as [Hp0|Hp0].
      { right. exists ValueError_no_sample. split; [|now left].
        unfold r, SequentialReplayBuffer.sample, SequentialReplayBuffer.window_idxes,
          SequentialReplayBuffer.start_idxes, bind, get_self.
        rewrite Hf, Hp0. rewrite (proj2 (Z.leb_gt _ _) HN). reflexivity. }
      destruct (Z_le_gt_dec (batch_size * n_samples) (_buffer_size (self w))) as [Hcap|Hcap].
      2:{ right. apply (Hkinds CapacityError); [now left|]. apply Hcapacity; auto. left. lia. }
      destruct (Z_le_gt_dec sequence_length (_pos (self w))) as [Hl1|Hl1]; [now left|].
      right. apply (Hkinds CapacityError); [now left|]. apply Hcapacity; auto. right. right.
      split; [reflexivity | lia]. }
  split; [split|].
  - intros (l & Hl). destruct Hdec as [H | (e & He & _)]; [exact H|].
    rewrite Hl in He. discriminate.
  - intros (Hcap & Hcond). now apply Hreturns.
  - intros e He. destruct Hdec as [(Hcap & Hcond) | (e' & He' & Hopt)].
    + destruct (Hreturns Hcap Hcond) as (l & Hl). rewrite Hl in He. discriminate.
    + rewrite He in He'. injection He' as <-. exact Hopt.
Qed.

End SequentialContent.

(** X9, on the full buffer of capacity 5: two windows of two steps. *)
Lemma sequence_sample_layout_witness :
  exists (l : loc) (items : list Z),
    fst (SequentialReplayBuffer.sample 2 false false 2 1 Examples.full5) = Ok l
    /\ heap (snd (SequentialReplayBuffer.sample 2 false false 2 1 Examples.full5)) !! l
       = Some (Samples [1; 2; 2] items None).
Proof.
  destruct (sequence_sample_layout Examples.full5 2 false false 2 1 [[5]; [6]; [2]; [3]; [4]])
    as (starts & l & w' & items & _ & _ & _ & Hrun & _ & Hheap & _).
  - apply wfb_wf. vm_compute. reflexivity.
  - vm_compute. reflexivity.
  - lia.
  - lia.
  - lia.
  - vm_compute. discriminate.
  - vm_compute. discriminate.
  - exists l, items. rewrite Hrun. split; [reflexivity | exact Hheap].
Defined.

(** X10, on a buffer of capacity 10 holding three records: windows of two
    steps fit. *)
Lemma sequence_sample_returns_iff_witness :
  succeeds (fst (SequentialReplayBuffer.sample 2 false false 2 1 Examples.part10)).
Proof.
  apply (proj2 (proj1 (sequence_sample_returns_iff Examples.part10 2 false false 2 1
                         ltac:(apply wfb_wf; vm_compute; reflexivity)
                         ltac:(lia) ltac:(lia) ltac:(lia)))).
  split; vm_compute; discriminate.
Defined.

(** ** The table of a memory-mapped buffer *)

Section Allocation.
Context {A Obs : Type} (zero : A) (observations : option (A -> Obs)).
Local Abbreviation world := (world A Obs).
Implicit Types (w : world) (rows data : list (list A)) (s : attrs).

(** X11.  The check of [_get_samples] for a missing table is not reachable
    through [sample]: on a buffer whose table is not allocated yet, a
    memory-mapped buffer before its first [add], [_get_samples] raises the
    error of line 170, but [sample] stops before it at the check of the batch
    size or of the empty buffer; and [sample] never raises that error. *)
Theorem sample_never_uninitialized w batch_size sample_next_obs clone (idx : list Z) :
  wf w ->
  fst (ReplayBuffer.sample observations batch_size sample_next_obs clone w)
    <> Raise RuntimeError_not_initialized
  /\ (_buf (self w) = None ->
      fst (ReplayBuffer._get_samples observations idx sample_next_obs w)
        = Raise RuntimeError_not_initialized
      /\ fst (ReplayBuffer.sample observations batch_size sample_next_obs clone w)
         = Raise (if batch_size <=? 0 then ValueError_batch_size else ValueError_no_sample)).
Proof.
  intros Hwf. pose proof Hwf as (HC & HE & Hpos & Htab). split.
  - destruct (sample_classify observations w batch_size sample_next_obs clone Hwf)
      as [(_ & ->) | [(_ & _ & _ & ->) | [(_ & _ & _ & _ & ->) | [(_ & _ & _ & _ & ->) |
          (_ & _ & _ & _ & Hok & Hnk)]]]]; try discriminate.
    destruct sample_next_obs; [destruct observations as [obs|]|].
    + destruct Hok as (l & ->); discriminate.
    + rewrite Hnk by reflexivity. discriminate.
    + destruct Hok as (l & ->); discriminate.
  - intros Hb. unfold table_ok in Htab. rewrite Hb in Htab. destruct Htab as (_ & Hp & Hf).
    split.
    + unfold ReplayBuffer._get_samples, bind, get_self.
      rewrite randint_ok by (unfold Py.len; lia). rewrite Hb. reflexivity.
    + unfold ReplayBuffer.sample.
      destruct (Z.leb_spec batch_size 0) as [Hbs|Hbs].
      * now rewrite (bind_raise _ _ _ _ _ (batch_idxes_batch_size w batch_size _ Hbs)).
      * now rewrite (bind_raise _ _ _ _ _
                       (batch_idxes_no_sample w batch_size sample_next_obs Hbs Hf Hp)).
Qed.

(** X12.  The table is allocated once.  A location held by [_buf] is held
    after every sequence of calls of [add] and of the samplers.  On a buffer
    without a table the first [add]
    allocates it at a new location, also when the write that follows raises:
    the table then holds the zero rows. *)
Theorem table_allocated_once w (cs : list (call A)) data :
  wf w ->
  (forall l : loc, _buf (self w) = Some l ->
     _buf (self (fold_left (after zero observations) cs w)) = Some l)
  /\ (_buf (self w) = None ->
      _buf (self (snd (ReplayBuffer.add zero data w))) = Some (length (heap w))
      /\ fresh_in w (length (heap w))
      /\ (fst (ReplayBuffer.add zero data w) <> Ok tt ->
          table_rows (snd (ReplayBuffer.add zero data w))
          = Some (repeat (repeat zero (Z.to_nat (_n_envs (self w))))
                    (Z.to_nat (_buffer_size (self w)))))).
Proof.
  intros Hwf. pose proof Hwf as (HC & HE & Hpos & Htab). split.
  - intros l Hl. now apply after_all_keeps_sizes.
  - intros Hb. unfold table_ok in Htab. rewrite Hb in Htab. destruct Htab as (Hm & Hp & Hf).
    rewrite (add_unallocated zero w data Hb Hm).
    destruct (setitem_rows _ _ _ _) as [rows'|]; simpl.
    + split; [reflexivity|]. split; [unfold fresh_in; lia | congruence].
    + split; [reflexivity|]. split; [unfold fresh_in; lia|]. intros _.
      unfold table_rows. simpl. rewrite lookup_last. reflexivity.
Qed.

End Allocation.

(** X11, on a memory-mapped buffer of capacity 5 before its first [add]. *)
Lemma sample_never_uninitialized_witness :
  fst (ReplayBuffer._get_samples (Some (@id Z)) [0; 1] false Examples.memmap5)
    = Raise RuntimeError_not_initialized
  /\ fst (ReplayBuffer.sample (Some (@id Z)) 2 false false Examples.memmap5)
     = Raise ValueError_no_sample.
Proof.
  destruct (sample_never_uninitialized (Some (@id Z)) Examples.memmap5 2 false false [0; 1])
    as (_ & H).
  - apply wfb_wf. vm_compute. reflexivity.
  - apply H. vm_compute. reflexivity.
Defined.

(** X12, on the same buffer: an [add] of rows of two environments, one too
    many, raises and leaves the table of zero rows. *)
Lemma table_allocated_once_witness :
  _buf (self (snd (ReplayBuffer.add 0 [[7; 8]] Examples.memmap5))) = Some 0%nat
  /\ table_rows (snd (ReplayBuffer.add 0 [[7; 8]] Examples.memmap5))
     = Some [[0]; [0]; [0]; [0]; [0]].
Proof.
  destruct (table_allocated_once 0 (Some (@id Z)) Examples.memmap5 [] [[7; 8]]) as (_ & H).
  - apply wfb_wf. vm_compute. reflexivity.
  - destruct H as (Hb & _ & Ht); [vm_compute; reflexivity|].
    split; [exact Hb|]. apply Ht. vm_compute. discriminate.
Defined.
